(** * Frame-latency benchmark: a shallow embedding

    The repository holds four near-duplicate C++ programs built on OpenCV
    and TBB.  Three of them ([findcontour_time_10000.cpp], [max_time.cpp],
    [time_skip.cpp]) push the frames of a directory through a concurrent
    queue to a worker task, time the processing of each frame and fold the
    timings into run statistics; the fourth ([pixel.cpp]) only counts
    detection pixels.

    Conventions of the embedding:
    - a C++ [double] is modelled by the rational number it denotes, with
      exact arithmetic ([Q]); comparisons of finite doubles agree with the
      comparisons of the rationals they denote;
    - the OpenCV routines are an interface ([OpenCV]); the programs are
      written against it, call by call;
    - reading the clock, calling into OpenCV, writing to the console and a
      thrown [cv::Exception] are effects, threaded through the monad [M];
    - each program lives in a module named after its source file. *)

From Stdlib Require Import ZArith QArith List Bool String Ascii Lia Lqa Permutation.
From Stdlib Require Floats.SpecFloat.
Import ListNotations.

Set Implicit Arguments.
Set Warnings "-abstract-large-number".

Open Scope Q_scope.

(** ** Numbers *)

Definition double : Type := Q.

(** [a < b] and [a > b] on doubles. *)
Definition Qltb (a b : Q) : bool := negb (Qle_bool b a).
Definition Qgtb (a b : Q) : bool := Qltb b a.

(** [M_PI] of <math.h>. *)
Definition M_PI : double := 3.14159265358979323846.

(** ** Paths of <filesystem> *)

Module fs.

(** A directory entry: the directory it was found in and its file name. *)
Record path : Type := mk_path { parent_path : string; filename : string }.

(** [path::string()] *)
Definition to_string (p : path) : string :=
  (parent_path p ++ "/" ++ filename p)%string.

(** The suffix of [s] that starts at its rightmost period, if any. *)
Fixpoint rightmost_period (s : string) : option string :=
  match s with
  | EmptyString => None
  | String c rest =>
      match rightmost_period rest with
      | Some e => Some e
      | None => if Ascii.eqb c "." then Some s else None
      end
  end.

(** [path::extension()]: from the rightmost period of the file name to its
    end; a leading period does not start an extension, and the special
    names dot and dot-dot have none. *)
Definition extension (p : path) : string :=
  match filename p with
  | EmptyString => EmptyString
  | String _ rest =>
      if String.eqb (filename p) ".." then EmptyString
      else match rightmost_period rest with
           | Some e => e
           | None => EmptyString
           end
  end.

(** The part of [s] after its last slash, when it has one. *)
Fixpoint after_last_slash (s : string) : option string :=
  match s with
  | EmptyString => None
  | String c rest =>
      match after_last_slash rest with
      | Some t => Some t
      | None => if Ascii.eqb c "/" then Some rest else None
      end
  end.

(** [fs::path(s).filename().string()] for a path given as a string. *)
Definition filename_of (s : string) : string :=
  match after_last_slash s with
  | Some t => t
  | None => s
  end.

End fs.

(** ** The OpenCV interface *)

Definition Point : Type := (Z * Z)%type.
Definition Contour : Type := list Point.

(** The routines the programs call.  [GaussianBlur] and [subtract] may throw
    a [cv::Exception] ([None]); [GaussianBlur] asserts that its source is not
    empty.  The fixed arguments of the calls (kernel size 5x5, sigma 0; the
    3x3 cross; [RETR_LIST], [CHAIN_APPROX_NONE]; closed curves) are part of
    the routines. *)
Class OpenCV : Type := {
  Mat : Type;
  Mat_empty : Mat -> bool;
  GaussianBlur : Mat -> option Mat;
  subtract : Mat -> Mat -> option Mat;
  threshold : Mat -> Z -> Z -> Mat;
  countNonZero : Mat -> Z;
  dilate : Mat -> nat -> Mat;
  erode : Mat -> nat -> Mat;
  findContours : Mat -> list Contour;
  contourArea : Contour -> double;
  arcLength : Contour -> double;
  convexHull : Contour -> Contour;
  GaussianBlur_empty : forall m, Mat_empty m = true -> GaussianBlur m = None
}.

(** ** Contour metrics (identical in the three timing programs) *)

Record ContourMetrics : Type := mk_metrics {
  area_original : double;
  area_hull : double;
  area_ratio : double;
  circularity_original : double;
  circularity_hull : double;
  circularity_ratio : double
}.

(** [ContourMetrics()]: every field at its default, 0. *)
Definition ContourMetrics_default : ContourMetrics := mk_metrics 0 0 0 0 0 0.

(** [std::max_element] over the range [first :: rest]: the running largest is
    replaced only by an element it compares less than, so the first of
    several greatest elements is returned. *)
Definition max_element {A : Type} (comp : A -> A -> bool) (first : A) (rest : list A) : A :=
  fold_left (fun largest x => if comp largest x then x else largest) rest first.

Section Metrics.
Context {cv : OpenCV}.

Definition area_less (c1 c2 : Contour) : bool :=
  Qltb (contourArea c1) (contourArea c2).

(** The part of [calculate_contour_metrics] after the largest contour
    [cnt] has been chosen. *)
Definition metrics_of_contour (cnt : Contour) : ContourMetrics :=
  let area_original := contourArea cnt in
  let perimeter_original := arcLength cnt in
  if Qle_bool area_original 1e-6 || Qle_bool perimeter_original 1e-6 then
    ContourMetrics_default
  else
    let circularity_original :=
      4 * M_PI * area_original / (perimeter_original * perimeter_original) in
    let hull := convexHull cnt in
    let area_hull := contourArea hull in
    let perimeter_hull := arcLength hull in
    if Qle_bool area_hull 1e-6 || Qle_bool perimeter_hull 1e-6 then
      ContourMetrics_default
    else
      let circularity_hull :=
        4 * M_PI * area_hull / (perimeter_hull * perimeter_hull) in
      mk_metrics area_original area_hull (area_hull / area_original)
                 circularity_original circularity_hull
                 (circularity_hull / circularity_original).

Definition calculate_contour_metrics (contours : list Contour) : ContourMetrics :=
  match contours with
  | [] => ContourMetrics_default
  | first :: rest => metrics_of_contour (max_element area_less first rest)
  end.

End Metrics.

(** ** Effects: the clock, the console, OpenCV calls and exceptions *)

(** What a program does that can be observed from outside, in order. *)
Inductive Event : Type :=
| Imread (file : string)                      (* cv::imread of a file *)
| FindContours                                 (* cv::findContours *)
| CalculateMetrics                             (* calculate_contour_metrics *)
| Cerr (line : string)                         (* a line on std::cerr *)
| Cout (line : string)                         (* a line on std::cout *)
| PixelCount (name : string) (count : Z)       (* a name and its pixel count *)
| Progress (current total : nat)               (* the progress bar, redrawn *)
| Averages (circularity area time findcontour : double). (* the summary *)

(** The state threaded through a program: the readings
    [high_resolution_clock::now()] will return, in microseconds, how many of
    them were consumed, the value found in a [double] that was declared
    without an initialiser, and the events so far (latest first). *)
Record World : Type := mk_world {
  clock : nat -> double;
  ticks : nat;
  indeterminate : double;
  events : list Event
}.

(** A computation either returns a value and a new world, or it ends in an
    exception nothing catches ([None]). *)
Definition M (A : Type) : Type := World -> option (A * World).

Definition ret {A : Type} (a : A) : M A := fun w => Some (a, w).

Definition bind {A B : Type} (m : M A) (k : A -> M B) : M B :=
  fun w => match m w with
           | Some (a, w') => k a w'
           | None => None
           end.

Notation "x <- m ;; k" := (bind m (fun x => k))
  (at level 61, m at next level, right associativity).
Notation "m ;;; k" := (bind m (fun _ => k))
  (at level 61, right associativity).

(** [throw]: a [cv::Exception] or [fs::filesystem_error] leaves the program. *)
Definition throw {A : Type} : M A := fun _ => None.

(** An OpenCV or filesystem call that may throw. *)
Definition try {A : Type} (r : option A) : M A :=
  match r with
  | Some a => ret a
  | None => throw
  end.

Definition emit (e : Event) : M unit :=
  fun w => Some (tt, mk_world (clock w) (ticks w) (indeterminate w) (e :: events w)).

(** [chrono::high_resolution_clock::now()] *)
Definition now : M double :=
  fun w => Some (clock w (ticks w),
                 mk_world (clock w) (S (ticks w)) (indeterminate w) (events w)).

(** The content of a freshly declared, uninitialised [double]. *)
Definition uninitialized : M double := fun w => Some (indeterminate w, w).

Fixpoint foldM {A B : Type} (f : A -> B -> M A) (l : list B) (a : A) : M A :=
  match l with
  | [] => ret a
  | x :: l' => a' <- f a x ;; foldM f l' a'
  end.

(** ** The file system a program runs against *)

Record Disk {cv : OpenCV} : Type := mk_disk {
  (** the entries of a directory, in iteration order; [None] when the
      directory cannot be opened ([fs::directory_iterator] throws) *)
  dir_entries : string -> option (list fs.path);
  (** the image decoded from a file; an empty [Mat] when it cannot be read *)
  file_image : string -> Mat;
  (** [directory_entry::is_regular_file()] *)
  is_regular_file : fs.path -> bool
}.

Section FileSystem.
Context {cv : OpenCV}.

Definition imread (disk : Disk) (file : string) : M Mat :=
  emit (Imread file) ;;; ret (file_image disk file).

Definition directory_iterator (disk : Disk) (directory : string) : M (list fs.path) :=
  try (dir_entries disk directory).

(** The filter of the enumeration loop, the same in every program that
    fills the queue. *)
Definition is_frame (entry : fs.path) : bool :=
  String.eqb (fs.extension entry) ".tiff"
  && negb (String.eqb (fs.filename entry) "background.tiff").

End FileSystem.

(** ** findcontour_time_10000.cpp *)

Module FindContour.
Section Program.
Context {cv : OpenCV}.

(** The four reference parameters of [process_single_image]: what the
    caller's variables hold. *)
Record Refs : Type := mk_refs {
  contours : list Contour;
  metrics : ContourMetrics;
  duration : double;
  findcontour_duration : double
}.

Definition process_single_image (disk : Disk) (image_path : string)
    (blurred_bg : Mat) (r : Refs) : M Refs :=
  image <- imread disk image_path ;;
  start_time <- now ;;
  blurred <- try (GaussianBlur image) ;;
  bg_sub <- try (subtract blurred_bg blurred) ;;
  let binary := threshold bg_sub 10 255 in
  let white_pixel_count := countNonZero binary in
  if (white_pixel_count <? 250)%Z || (white_pixel_count >? 650)%Z then
    ret (mk_refs (contours r) (metrics r) 0 (findcontour_duration r))
  else
    let dilate1 := dilate binary 2 in
    let erode1 := erode dilate1 3 in
    let dilate2 := dilate erode1 1 in
    findcontour_start <- now ;;
    emit FindContours ;;;
    let contours' := findContours dilate2 in
    findcontour_end <- now ;;
    let findcontour_duration' := findcontour_end - findcontour_start in
    end_time <- now ;;
    let duration' := end_time - start_time in
    match contours' with
    | _ :: _ =>
        emit CalculateMetrics ;;;
        ret (mk_refs contours' (calculate_contour_metrics contours')
                     duration' findcontour_duration')
    | [] => ret (mk_refs contours' (metrics r) duration' findcontour_duration')
    end.

(** One row of [results]: path, circularity ratio, area ratio, processing
    time, findContours time. *)
Definition Row : Type := (string * double * double * double * double)%type.

(** The variables the worker task updates: the locals of [run_experiment]
    and its three reference parameters. *)
Record Experiment : Type := mk_experiment {
  total_time : double;
  total_findcontour_time : double;
  number : Z;
  max_process_time : double;
  results : list Row;
  skipped_images : list string;
  max_time_image : string * double
}.

(** The worker's statements after [process_single_image] has returned:
    the branch on [process_time > 0], each arm under the mutex.  The
    steps of the arms, one at a time and with the mutex explicit, are in
    [FindContourLocked] below. *)
Definition aggregate (e : Experiment) (path : fs.path) (r : Refs) : Experiment :=
  let process_time := duration r in
  let findcontour_time := findcontour_duration r in
  if Qgtb process_time 0 then
    (* lock_guard<mutex> lock(mtx); *)
    let total_time' := total_time e + process_time in
    let total_findcontour_time' := total_findcontour_time e + findcontour_time in
    let '(max_process_time', max_time_image') :=
      if Qgtb process_time (max_process_time e)
      then (process_time, (fs.to_string path, process_time))
      else (max_process_time e, max_time_image e) in
    mk_experiment total_time' total_findcontour_time' (number e + 1)
      max_process_time'
      (results e ++ [(fs.to_string path, circularity_ratio (metrics r),
                      area_ratio (metrics r), process_time, findcontour_time)])
      (skipped_images e) max_time_image'
  else
    (* lock_guard<mutex> lock(mtx); *)
    mk_experiment (total_time e) (total_findcontour_time e) (number e)
      (max_process_time e) (results e)
      (skipped_images e ++ [fs.to_string path]) (max_time_image e).

(** The worker's locals, declared afresh for the popped [path], and the
    call of [process_single_image] on them. *)
Definition process_popped (disk : Disk) (blurred_bg : Mat) (path : fs.path) : M Refs :=
  process_time0 <- uninitialized ;;
  findcontour_time0 <- uninitialized ;;
  process_single_image disk (fs.to_string path) blurred_bg
    (mk_refs [] ContourMetrics_default process_time0 findcontour_time0).

(** The body of the worker's loop once [try_pop] has delivered [path]. *)
Definition worker_body (disk : Disk) (blurred_bg : Mat)
    (e : Experiment) (path : fs.path) : M Experiment :=
  r <- process_popped disk blurred_bg path ;;
  ret (aggregate e path r).

(** The frames the enumeration loop pushes, in the order it pushes them. *)
Definition image_queue (entries : list fs.path) : list fs.path :=
  filter is_frame entries.

(** [run_experiment], with the single worker task draining the queue in the
    order the producer filled it (the interleaving of the two is the
    subject of [Pipeline] below).  The result holds the reference
    parameters and, for reference, the locals at the point of return. *)
Definition run_experiment (disk : Disk) (directory : string)
    (results0 : list Row) (skipped_images0 : list string)
    (max_time_image0 : string * double) : M Experiment :=
  let background_path := (directory ++ "/background.tiff")%string in
  let e0 := mk_experiment 0 0 0 0 results0 skipped_images0 max_time_image0 in
  background <- imread disk background_path ;;
  if Mat_empty background then
    emit (Cerr ("Error: Could not read background image: " ++ background_path)) ;;;
    ret e0
  else
    blurred_bg <- try (GaussianBlur background) ;;
    entries <- directory_iterator disk directory ;;
    foldM (worker_body disk blurred_bg) (image_queue entries) e0.

(** The accumulators of [main] and the vectors it hands to every run. *)
Record Totals : Type := mk_totals {
  total_circularity_ratio : double;
  total_area_ratio : double;
  total_processing_time : double;
  total_findcontour_time_all : double;
  last_results : list Row;
  last_skipped_images : list string;
  last_max_time_image : string * double
}.

Definition add_row (t : Totals) (result : Row) : Totals :=
  let '(_, circularity, area, time, findcontour) := result in
  mk_totals (total_circularity_ratio t + circularity)
            (total_area_ratio t + area)
            (total_processing_time t + time)
            (total_findcontour_time_all t + findcontour)
            (last_results t) (last_skipped_images t) (last_max_time_image t).

Definition directory : string := "Test_images/512x96crop".

(** Iteration [i] of the loop of [main]; [disk_at i] is the directory as it
    is during that iteration. *)
Definition repetition (repetitions : nat) (disk_at : nat -> Disk)
    (t : Totals) (i : nat) : M Totals :=
  (* results.clear(); skipped_images.clear(); max_time_image = {"", 0}; *)
  e <- run_experiment (disk_at i) directory [] [] (EmptyString, 0) ;;
  let t' := fold_left add_row (results e)
              (mk_totals (total_circularity_ratio t) (total_area_ratio t)
                         (total_processing_time t) (total_findcontour_time_all t)
                         (results e) (skipped_images e) (max_time_image e)) in
  emit (Progress (i + 1) repetitions) ;;;
  ret t'.

Definition average (total : double) (total_processed_images : nat) : double :=
  if (0 <? total_processed_images)%nat
  then total / inject_Z (Z.of_nat total_processed_images)
  else 0.

(** The four averages [main] prints, from its state after the loop. *)
Definition report (repetitions : nat) (t : Totals) : Event :=
  let total_processed_images := (List.length (last_results t) * repetitions)%nat in
  Averages (average (total_circularity_ratio t) total_processed_images)
           (average (total_area_ratio t) total_processed_images)
           (average (total_processing_time t) total_processed_images)
           (average (total_findcontour_time_all t) total_processed_images).

(** [main], for a repetition count; returns the exit status. *)
Definition main_with (repetitions : nat) (disk_at : nat -> Disk) : M Z :=
  t <- foldM (repetition repetitions disk_at) (seq 0 repetitions)
         (mk_totals 0 0 0 0 [] [] (EmptyString, 0)) ;;
  emit (report repetitions t) ;;;
  ret 0%Z.

Definition main : (nat -> Disk) -> M Z := main_with 10000.

End Program.
End FindContour.

(** ** time_skip.cpp *)

Module TimeSkip.
Section Program.
Context {cv : OpenCV}.

(** The three reference parameters of [process_single_image]. *)
Record Refs : Type := mk_refs {
  contours : list Contour;
  metrics : ContourMetrics;
  duration : double
}.

(** Returns the final content of the references and the [bool] result. *)
Definition process_single_image (disk : Disk) (image_path : string)
    (blurred_bg : Mat) (r : Refs) : M (Refs * bool) :=
  image <- imread disk image_path ;;
  start_time <- now ;;
  blurred <- try (GaussianBlur image) ;;
  bg_sub <- try (subtract blurred_bg blurred) ;;
  let binary := threshold bg_sub 10 255 in
  let dilate1 := dilate binary 2 in
  let erode1 := erode dilate1 3 in
  let dilate2 := dilate erode1 1 in
  current_time <- now ;;
  let duration1 := current_time - start_time in
  if Qgtb duration1 200 then
    ret (mk_refs (contours r) (metrics r) duration1, false)
  else
    emit FindContours ;;;
    let contours' := findContours dilate2 in
    current_time <- now ;;
    let duration2 := current_time - start_time in
    if Qgtb duration2 200 then
      ret (mk_refs contours' (metrics r) duration2, false)
    else
      match contours' with
      | _ :: _ =>
          emit CalculateMetrics ;;;
          ret (mk_refs contours' (calculate_contour_metrics contours') duration2, true)
      | [] => ret (mk_refs contours' (metrics r) duration2, true)
      end.

(** One row of [results]: path, circularity ratio, area ratio, time. *)
Definition Row : Type := (string * double * double * double)%type.

Record Experiment : Type := mk_experiment {
  total_time : double;
  number : Z;
  max_process_time : double;
  results : list Row;
  skipped_images : list (string * double);
  max_time_image : string * double
}.

(** The worker's statements after [process_single_image] has returned:
    the branch on [processed], each arm under the mutex. *)
Definition aggregate (e : Experiment) (path : fs.path) (rp : Refs * bool) : Experiment :=
  let '(r, processed) := rp in
  let process_time := duration r in
  if processed then
    (* lock_guard<mutex> lock(mtx); *)
    let total_time' := total_time e + process_time in
    let '(max_process_time', max_time_image') :=
      if Qgtb process_time (max_process_time e)
      then (process_time, (fs.to_string path, process_time))
      else (max_process_time e, max_time_image e) in
    mk_experiment total_time' (number e + 1) max_process_time'
      (results e ++ [(fs.to_string path, circularity_ratio (metrics r),
                      area_ratio (metrics r), process_time)])
      (skipped_images e) max_time_image'
  else
    (* lock_guard<mutex> lock(mtx); *)
    mk_experiment (total_time e) (number e) (max_process_time e) (results e)
      (skipped_images e ++ [(fs.to_string path, process_time)])
      (max_time_image e).

(** The same on a frame paired with what [process_single_image] returned. *)
Definition commit (e : Experiment) (j : fs.path * (Refs * bool)) : Experiment :=
  aggregate e (fst j) (snd j).

Definition process_popped (disk : Disk) (blurred_bg : Mat) (path : fs.path)
    : M (Refs * bool) :=
  process_time0 <- uninitialized ;;
  process_single_image disk (fs.to_string path) blurred_bg
    (mk_refs [] ContourMetrics_default process_time0).

Definition worker_body (disk : Disk) (blurred_bg : Mat)
    (e : Experiment) (path : fs.path) : M Experiment :=
  rp <- process_popped disk blurred_bg path ;;
  ret (aggregate e path rp).

Definition image_queue (entries : list fs.path) : list fs.path :=
  filter is_frame entries.

Definition run_experiment (disk : Disk) (directory : string)
    (results0 : list Row) (skipped_images0 : list (string * double))
    (max_time_image0 : string * double) : M Experiment :=
  let background_path := (directory ++ "/background.tiff")%string in
  let e0 := mk_experiment 0 0 0 results0 skipped_images0 max_time_image0 in
  background <- imread disk background_path ;;
  if Mat_empty background then
    emit (Cerr ("Error: Could not read background image: " ++ background_path)) ;;;
    ret e0
  else
    blurred_bg <- try (GaussianBlur background) ;;
    entries <- directory_iterator disk directory ;;
    foldM (worker_body disk blurred_bg) (image_queue entries) e0.

Definition directory : string := "Test_images/Cropped".

(** What [main] writes to [std::cout], as data: the lines for the processed
    images (file name, circularity ratio, area ratio, time), the lines for
    the skipped ones (file name, time), the average time, and the maximum
    with the file name it belongs to. *)
Record Report : Type := mk_report {
  printed_results : list (string * double * double * double);
  printed_skipped : list (string * double);
  average_time : double;
  max_time : double;
  max_name : string
}.

(** [main]; returns the exit status and what it printed. *)
Definition main (disk : Disk) : M (Z * Report) :=
  e <- run_experiment disk directory [] [] (EmptyString, 0) ;;
  let printed :=
    map (fun result : Row =>
           let '(p, circularity, area, time) := result in
           (fs.filename_of p, circularity, area, time)) (results e) in
  let skipped :=
    map (fun image => (fs.filename_of (fst image), snd image)) (skipped_images e) in
  let total_time :=
    fold_left (fun total (result : Row) => let '(_, _, _, time) := result in total + time)
              (results e) 0 in
  let average_time :=
    match results e with
    | [] => 0
    | _ :: _ => total_time / inject_Z (Z.of_nat (List.length (results e)))
    end in
  ret (0%Z, mk_report printed skipped average_time
              (snd (max_time_image e)) (fs.filename_of (fst (max_time_image e)))).

End Program.
End TimeSkip.

(** ** max_time.cpp *)

Module MaxTime.
Section Program.
Context {cv : OpenCV}.

Record Refs : Type := mk_refs {
  contours : list Contour;
  metrics : ContourMetrics;
  duration : double
}.

Definition process_single_image (disk : Disk) (image_path : string)
    (blurred_bg : Mat) (r : Refs) : M Refs :=
  image <- imread disk image_path ;;
  start_time <- now ;;
  blurred <- try (GaussianBlur image) ;;
  bg_sub <- try (subtract blurred_bg blurred) ;;
  let binary := threshold bg_sub 10 255 in
  let dilate1 := dilate binary 2 in
  let erode1 := erode dilate1 3 in
  let dilate2 := dilate erode1 1 in
  emit FindContours ;;;
  let contours' := findContours dilate2 in
  end_time <- now ;;
  let duration' := end_time - start_time in
  match contours' with
  | _ :: _ =>
      emit CalculateMetrics ;;;
      ret (mk_refs contours' (calculate_contour_metrics contours') duration')
  | [] => ret (mk_refs contours' (metrics r) duration')
  end.

(** The locals of [run_experiment] and the string it writes through its
    last reference parameter. *)
Record Experiment : Type := mk_experiment {
  total_time : double;
  number : Z;
  max_process_time : double;
  max_processing_time_image : string
}.

(** The worker's statements after [process_single_image] has returned. *)
Definition aggregate (e : Experiment) (path : fs.path) (r : Refs) : Experiment :=
  let process_time := duration r in
  if Qgtb process_time 0 then
    (* lock_guard<mutex> lock(mtx); *)
    let total_time' := total_time e + process_time in
    let '(max_process_time', max_processing_time_image') :=
      if Qgtb process_time (max_process_time e)
      then (process_time, fs.filename path)
      else (max_process_time e, max_processing_time_image e) in
    mk_experiment total_time' (number e + 1) max_process_time'
      max_processing_time_image'
  else
    e.

Definition process_popped (disk : Disk) (blurred_bg : Mat) (path : fs.path) : M Refs :=
  process_time0 <- uninitialized ;;
  process_single_image disk (fs.to_string path) blurred_bg
    (mk_refs [] ContourMetrics_default process_time0).

Definition worker_body (disk : Disk) (blurred_bg : Mat)
    (e : Experiment) (path : fs.path) : M Experiment :=
  r <- process_popped disk blurred_bg path ;;
  ret (aggregate e path r).

Definition image_queue (entries : list fs.path) : list fs.path :=
  filter is_frame entries.

(** [run_experiment]; on return [max_processing_time] is the
    [max_process_time] of the result. *)
Definition run_experiment (disk : Disk) (directory : string) (blurred_bg : Mat)
    (max_processing_time_image0 : string) : M Experiment :=
  let e0 := mk_experiment 0 0 0 max_processing_time_image0 in
  entries <- directory_iterator disk directory ;;
  foldM (worker_body disk blurred_bg) (image_queue entries) e0.

(** [image_count[name] = image_count[name] + 1] on a [std::map]. *)
Fixpoint increment (image_count : list (string * nat)) (name : string) : list (string * nat) :=
  match image_count with
  | [] => [(name, 1%nat)]
  | (k, n) :: rest =>
      if String.eqb k name then (k, S n) :: rest
      else (k, n) :: increment rest name
  end.

Definition directory : string := "Test_images/Cropped".

Definition iteration (total_iterations : nat) (disk_at : nat -> Disk)
    (blurred_bg : Mat) (image_count : list (string * nat)) (i : nat)
    : M (list (string * nat)) :=
  e <- run_experiment (disk_at i) directory blurred_bg EmptyString ;;
  let current_max_image := max_processing_time_image e in
  let image_count' :=
    if String.eqb current_max_image EmptyString then image_count
    else increment image_count current_max_image in
  emit (Progress (i + 1) total_iterations) ;;;
  ret image_count'.

(** [main] up to the end of its loop: the exit status and the occurrence
    counts (the ranking printed from them is not modelled). *)
Definition main_with (total_iterations : nat) (disk_at : nat -> Disk)
    : M (Z * list (string * nat)) :=
  let background_path := (directory ++ "/background.tiff")%string in
  background <- imread (disk_at 0%nat) background_path ;;
  if Mat_empty background then
    emit (Cerr ("Error: Could not read background image: " ++ background_path)) ;;;
    ret ((-1)%Z, [])
  else
    blurred_bg <- try (GaussianBlur background) ;;
    image_count <- foldM (iteration total_iterations disk_at blurred_bg)
                     (seq 0 total_iterations) [] ;;
    ret (0%Z, image_count).

Definition main : (nat -> Disk) -> M (Z * list (string * nat)) := main_with 1000.

End Program.
End MaxTime.

(** ** pixel.cpp *)

Module Pixel.
Section Program.
Context {cv : OpenCV}.

Record ImageInfo : Type := mk_info { info_filename : string; white_pixel_count : Z }.

(** Returns the content of the two reference parameters. *)
Definition process_single_image (disk : Disk) (image_path : fs.path) (blurred_bg : Mat)
    (max_info min_info : ImageInfo) : M (ImageInfo * ImageInfo) :=
  image <- imread disk (fs.to_string image_path) ;;
  if Mat_empty image then
    emit (Cout ("Unable to open or find image: " ++ fs.to_string image_path)) ;;;
    ret (max_info, min_info)
  else
    blurred <- try (GaussianBlur image) ;;
    bg_sub <- try (subtract blurred_bg blurred) ;;
    let binary := threshold bg_sub 10 255 in
    let count := countNonZero binary in
    let max_info' :=
      if (count >? white_pixel_count max_info)%Z
      then mk_info (fs.filename image_path) count else max_info in
    let min_info' :=
      if (count <? white_pixel_count min_info)%Z
      then mk_info (fs.filename image_path) count else min_info in
    emit (PixelCount (fs.filename image_path) count) ;;;
    ret (max_info', min_info').

Definition directory : string := "Test_images/cropped single".

Definition selected (disk : Disk) (entry : fs.path) : bool :=
  is_regular_file disk entry && is_frame entry.

(** [main]; returns the exit status. *)
Definition main (disk : Disk) : M Z :=
  let background_path := (directory ++ "/background.tiff")%string in
  match dir_entries disk directory with
  | None =>
      emit (Cerr ("Directory does not exist: " ++ directory)) ;;;
      ret (-1)%Z
  | Some entries =>
      background <- imread disk background_path ;;
      if Mat_empty background then
        emit (Cerr ("Unable to open or find background image: " ++ background_path)) ;;;
        ret (-1)%Z
      else
        blurred_bg <- try (GaussianBlur background) ;;
        infos <- foldM (fun infos entry =>
                          process_single_image disk entry blurred_bg (fst infos) (snd infos))
                   (filter (selected disk) entries)
                   (mk_info EmptyString 0, mk_info EmptyString 2147483647) ;;
        match filter (selected disk) entries with
        | [] => emit (Cout "No matching image files found.") ;;; ret 0%Z
        | _ :: _ =>
            emit (PixelCount (info_filename (fst infos)) (white_pixel_count (fst infos))) ;;;
            emit (PixelCount (info_filename (snd infos)) (white_pixel_count (snd infos))) ;;;
            ret 0%Z
        end
  end.

End Program.
End Pixel.

(** ** The queue between the enumeration loop and the worker task

    [run_experiment] starts one worker task and then, on the calling thread,
    pushes the frames and sets [processing_complete].  The machine below
    interleaves the two, one shared-memory access at a time. *)

Module Pipeline.
Section Machine.
Variables Item St : Type.

(** The body of the worker's loop on a popped item; [None] when it throws. *)
Variable body : St -> Item -> option St.

(** The items in order, each on the state the previous one left. *)
Fixpoint run (items : list Item) (s : St) : option St :=
  match items with
  | [] => Some s
  | x :: rest =>
      match body s x with
      | Some s' => run rest s'
      | None => None
      end
  end.

(** Where the worker task stands in
    [while (!processing_complete || !image_queue.empty()) { if (try_pop) ... else yield }]. *)
Inductive Worker : Type :=
| TestComplete      (* about to read processing_complete *)
| TestEmpty         (* read it as true; about to call image_queue.empty() *)
| TryPop            (* inside the loop, about to call try_pop *)
| Returned          (* left the loop *)
| Unwound.          (* the body threw *)

Record Config : Type := mk_config {
  to_push : list Item;             (* frames the enumeration has yet to push *)
  image_queue : list Item;         (* front first *)
  processing_complete : bool;
  worker : Worker;
  state : St
}.

Inductive step : Config -> Config -> Prop :=
| producer_push : forall x rest q b wk s,
    step (mk_config (x :: rest) q b wk s) (mk_config rest (q ++ [x]) b wk s)
| producer_complete : forall q wk s,
    step (mk_config [] q false wk s) (mk_config [] q true wk s)
| worker_sees_incomplete : forall tp q s,
    step (mk_config tp q false TestComplete s) (mk_config tp q false TryPop s)
| worker_sees_complete : forall tp q s,
    step (mk_config tp q true TestComplete s) (mk_config tp q true TestEmpty s)
| worker_sees_items : forall tp x q b s,
    step (mk_config tp (x :: q) b TestEmpty s) (mk_config tp (x :: q) b TryPop s)
| worker_sees_empty : forall tp b s,
    step (mk_config tp [] b TestEmpty s) (mk_config tp [] b Returned s)
| worker_pops : forall tp x q b s s',
    body s x = Some s' ->
    step (mk_config tp (x :: q) b TryPop s) (mk_config tp q b TestComplete s')
| worker_throws : forall tp x q b s,
    body s x = None ->
    step (mk_config tp (x :: q) b TryPop s) (mk_config tp q b Unwound s)
| worker_yields : forall tp b s,
    step (mk_config tp [] b TryPop s) (mk_config tp [] b TestComplete s).

Inductive steps : Config -> Config -> Prop :=
| steps_refl : forall c, steps c c
| steps_cons : forall c1 c2 c3, step c1 c2 -> steps c2 c3 -> steps c1 c3.

(** The task is started before the first push. *)
Definition initial (items : list Item) (s0 : St) : Config :=
  mk_config items [] false TestComplete s0.

Definition finished (c : Config) : Prop :=
  worker c = Returned \/ worker c = Unwound.

End Machine.
End Pipeline.

(** ** The mutex around the statistics

    Any number of threads run the worker's loop.  Each takes a frame,
    processes it without touching shared variables, and then executes the
    statements of its [lock_guard] scope one at a time.  A thread inside the
    scope never looks at the mutex; that at most one thread is inside is a
    consequence of how the scope is entered and left. *)

Module Locked.
Section Machine.
Variables Job Shared Pc : Type.

(** Whether the worker opens a [lock_guard] scope for the job at all. *)
Variable guarded : Job -> bool.
(** The first statement of the scope. *)
Variable entry : Job -> Pc.
(** One statement: the variables after it and the next statement, [None] at
    the closing brace. *)
Variable exec : Job -> Pc -> Shared -> Shared * option Pc.

Inductive Thread : Type :=
| Idle                              (* between frames *)
| Waiting (j : Job)                 (* at the lock_guard declaration *)
| Inside (j : Job) (pc : Pc)        (* owns the mutex, about to execute pc *)
| Leaving (j : Job).                (* at the closing brace, about to unlock *)

Record Config : Type := mk_config {
  mtx : option nat;                 (* the owner of the mutex, if locked *)
  shared : Shared;
  threads : nat -> Thread;
  history : list Job                (* the jobs whose scope was left, in order *)
}.

Definition set_thread (ts : nat -> Thread) (w : nat) (t : Thread) : nat -> Thread :=
  fun w' => if Nat.eqb w' w then t else ts w'.

Inductive step : Config -> Config -> Prop :=
| take : forall w j c,
    threads c w = Idle -> guarded j = true ->
    step c (mk_config (mtx c) (shared c) (set_thread (threads c) w (Waiting j)) (history c))
| lock : forall w j c,
    threads c w = Waiting j -> mtx c = None ->
    step c (mk_config (Some w) (shared c)
              (set_thread (threads c) w (Inside j (entry j))) (history c))
| statement : forall w j pc sh' pc' c,
    threads c w = Inside j pc -> exec j pc (shared c) = (sh', Some pc') ->
    step c (mk_config (mtx c) sh' (set_thread (threads c) w (Inside j pc')) (history c))
| last_statement : forall w j pc sh' c,
    threads c w = Inside j pc -> exec j pc (shared c) = (sh', None) ->
    step c (mk_config (mtx c) sh' (set_thread (threads c) w (Leaving j)) (history c))
| unlock : forall w j c,
    threads c w = Leaving j ->
    step c (mk_config None (shared c) (set_thread (threads c) w Idle) (history c ++ [j])).

Definition initial (sh0 : Shared) : Config :=
  mk_config None sh0 (fun _ => Idle) [].

Inductive reachable (sh0 : Shared) : Config -> Prop :=
| reachable_initial : reachable sh0 (initial sh0)
| reachable_step : forall c c', reachable sh0 c -> step c c' -> reachable sh0 c'.

Definition in_scope (t : Thread) : bool :=
  match t with
  | Inside _ _ | Leaving _ => true
  | Idle | Waiting _ => false
  end.

(** The states a thread can be in while it executes the scope for [j],
    having entered it on [sh0]. *)
Inductive within (j : Job) (sh0 : Shared) : Pc -> Shared -> Prop :=
| within_entry : guarded j = true -> within j sh0 (entry j) sh0
| within_next : forall pc sh sh' pc',
    within j sh0 pc sh -> exec j pc sh = (sh', Some pc') -> within j sh0 pc' sh'.

End Machine.

Arguments Idle {Job Pc}.
Arguments Waiting {Job Pc} j.
Arguments Inside {Job Pc} j pc.
Arguments Leaving {Job Pc} j.

End Locked.

(** *** The lock_guard scopes of findcontour_time_10000.cpp, by statement *)

Module FindContourLocked.
Import FindContour.

(** A frame the worker has processed: its path and what
    [process_single_image] left in the references. *)
Definition Job : Type := (fs.path * Refs)%type.

Inductive Pc : Type :=
| AddTotalTime           (* total_time = total_time + process_time; *)
| AddFindcontourTime     (* total_findcontour_time = ... + findcontour_time; *)
| Compare                (* if (process_time > max_process_time) *)
| StoreMax               (* max_process_time = process_time; *)
| StoreMaxImage          (* max_time_image = { path.string(), process_time }; *)
| IncrementNumber        (* number++; *)
| PushResult             (* results.push_back(...); *)
| PushSkipped.           (* skipped_images.push_back(path.string()); *)

Definition guarded (j : Job) : bool := true.

Definition entry (j : Job) : Pc :=
  if Qgtb (duration (snd j)) 0 then AddTotalTime else PushSkipped.

Definition exec (j : Job) (pc : Pc) (e : Experiment) : Experiment * option Pc :=
  let '(path, r) := j in
  let process_time := duration r in
  let findcontour_time := findcontour_duration r in
  match pc with
  | AddTotalTime =>
      (mk_experiment (total_time e + process_time) (total_findcontour_time e)
         (number e) (max_process_time e) (results e) (skipped_images e)
         (max_time_image e), Some AddFindcontourTime)
  | AddFindcontourTime =>
      (mk_experiment (total_time e) (total_findcontour_time e + findcontour_time)
         (number e) (max_process_time e) (results e) (skipped_images e)
         (max_time_image e), Some Compare)
  | Compare =>
      (e, Some (if Qgtb process_time (max_process_time e) then StoreMax
                else IncrementNumber))
  | StoreMax =>
      (mk_experiment (total_time e) (total_findcontour_time e) (number e)
         process_time (results e) (skipped_images e) (max_time_image e),
       Some StoreMaxImage)
  | StoreMaxImage =>
      (mk_experiment (total_time e) (total_findcontour_time e) (number e)
         (max_process_time e) (results e) (skipped_images e)
         (fs.to_string path, process_time), Some IncrementNumber)
  | IncrementNumber =>
      (mk_experiment (total_time e) (total_findcontour_time e) (number e + 1)
         (max_process_time e) (results e) (skipped_images e) (max_time_image e),
       Some PushResult)
  | PushResult =>
      (mk_experiment (total_time e) (total_findcontour_time e) (number e)
         (max_process_time e)
         (results e ++ [(fs.to_string path, circularity_ratio (metrics r),
                         area_ratio (metrics r), process_time, findcontour_time)])
         (skipped_images e) (max_time_image e), None)
  | PushSkipped =>
      (mk_experiment (total_time e) (total_findcontour_time e) (number e)
         (max_process_time e) (results e)
         (skipped_images e ++ [fs.to_string path]) (max_time_image e), None)
  end.

(** The whole scope at once. *)
Definition commit (e : Experiment) (j : Job) : Experiment :=
  aggregate e (fst j) (snd j).

(** The variables as [run_experiment] initialises them and as [main] hands
    them over. *)
Definition fresh : Experiment := mk_experiment 0 0 0 0 [] [] (EmptyString, 0).

Definition reachable : Locked.Config Job Experiment Pc -> Prop :=
  Locked.reachable guarded entry exec fresh.

End FindContourLocked.

(** *** The lock_guard scope of max_time.cpp, by statement *)

Module MaxTimeLocked.
Import MaxTime.

Definition Job : Type := (fs.path * Refs)%type.

Inductive Pc : Type :=
| AddTotalTime           (* total_time = total_time + process_time; *)
| Compare                (* if (process_time > max_process_time) *)
| StoreMax               (* max_process_time = process_time; *)
| StoreMaxImage          (* max_processing_time_image = path.filename().string(); *)
| IncrementNumber.       (* number = number + 1; *)

(** The scope is opened only when [process_time > 0]. *)
Definition guarded (j : Job) : bool := Qgtb (duration (snd j)) 0.

Definition entry (j : Job) : Pc := AddTotalTime.

Definition exec (j : Job) (pc : Pc) (e : Experiment) : Experiment * option Pc :=
  let '(path, r) := j in
  let process_time := duration r in
  match pc with
  | AddTotalTime =>
      (mk_experiment (total_time e + process_time) (number e)
         (max_process_time e) (max_processing_time_image e), Some Compare)
  | Compare =>
      (e, Some (if Qgtb process_time (max_process_time e) then StoreMax
                else IncrementNumber))
  | StoreMax =>
      (mk_experiment (total_time e) (number e) process_time
         (max_processing_time_image e), Some StoreMaxImage)
  | StoreMaxImage =>
      (mk_experiment (total_time e) (number e) (max_process_time e)
         (fs.filename path), Some IncrementNumber)
  | IncrementNumber =>
      (mk_experiment (total_time e) (number e + 1) (max_process_time e)
         (max_processing_time_image e), None)
  end.

Definition commit (e : Experiment) (j : Job) : Experiment :=
  aggregate e (fst j) (snd j).

Definition fresh : Experiment := mk_experiment 0 0 0 EmptyString.

Definition reachable : Locked.Config Job Experiment Pc -> Prop :=
  Locked.reachable guarded entry exec fresh.

(** The program keeps no list of its successes; they are the jobs whose
    measured time is positive. *)
Definition successes (jobs : list Job) : list Job := filter guarded jobs.

Definition job_time (j : Job) : double := duration (snd j).

End MaxTimeLocked.

(** ** Vocabulary of the statements *)

(** [x] is the element of [l] with the greatest [time], the first of them
    when several share it. *)
Inductive first_argmax {A : Type} (time : A -> double) : list A -> A -> Prop :=
| first_argmax_at : forall before x after,
    (forall y, In y before -> time y < time x) ->
    (forall y, In y after -> time y <= time x) ->
    first_argmax time (before ++ x :: after) x.

(** Every item through [f], in order; the results in the same order. *)
Fixpoint mapM {A B : Type} (f : A -> M B) (l : list A) : M (list B) :=
  match l with
  | [] => ret []
  | x :: l' => y <- f x ;; ys <- mapM f l' ;; ret (y :: ys)
  end.

Section Vocabulary.
Context {cv : OpenCV}.

(** The detection-pixel count [process_single_image] computes for an image,
    when neither [GaussianBlur] nor [subtract] throws on it. *)
Definition white_pixel_count (image blurred_bg : Mat) : option Z :=
  match GaussianBlur image with
  | Some blurred =>
      match subtract blurred_bg blurred with
      | Some bg_sub => Some (countNonZero (threshold bg_sub 10 255))
      | None => None
      end
  | None => None
  end.

(** The contours [findContours] extracts from an image, after the
    morphological clean-up. *)
Definition extracted_contours (image blurred_bg : Mat) : option (list Contour) :=
  match GaussianBlur image with
  | Some blurred =>
      match subtract blurred_bg blurred with
      | Some bg_sub =>
          Some (findContours
                  (dilate (erode (dilate (threshold bg_sub 10 255) 2) 3) 1))
      | None => None
      end
  | None => None
  end.

(** A contour, or its hull, too small for the ratios to be formed. *)
Definition degenerate (cnt : Contour) : Prop :=
  contourArea cnt <= 1e-6 \/ arcLength cnt <= 1e-6 \/
  contourArea (convexHull cnt) <= 1e-6 \/ arcLength (convexHull cnt) <= 1e-6.

End Vocabulary.

(** The columns of a row of [results]. *)
Definition row_path5 (row : FindContour.Row) : string :=
  let '(p, _, _, _, _) := row in p.
Definition row_circularity5 (row : FindContour.Row) : double :=
  let '(_, c, _, _, _) := row in c.
Definition row_area5 (row : FindContour.Row) : double :=
  let '(_, _, a, _, _) := row in a.
Definition row_time5 (row : FindContour.Row) : double :=
  let '(_, _, _, t, _) := row in t.
Definition row_findcontour5 (row : FindContour.Row) : double :=
  let '(_, _, _, _, f) := row in f.

Definition row_path4 (row : TimeSkip.Row) : string :=
  let '(p, _, _, _) := row in p.
Definition row_time4 (row : TimeSkip.Row) : double :=
  let '(_, _, _, t) := row in t.

(** The sum of a column, added up from [acc] in list order. *)
Definition column_sum {A : Type} (column : A -> double) (rows : list A) (acc : double) : double :=
  fold_left (fun a row => a + column row) rows acc.

(** The average of a column over all rows of all runs: its sum over the
    number of rows. *)
Definition pooled_average {A : Type} (column : A -> double) (runs : list (list A)) : double :=
  column_sum column (List.concat runs) 0 / inject_Z (Z.of_nat (List.length (List.concat runs))).

(** ** A test double for OpenCV

    Deterministic stand-ins for the routines, to run the programs on
    concrete directories. *)

Module Fake.

(** A decoded image: how many of its pixels differ from the background by
    more than the threshold, and the outlines left after clean-up. *)
Record Image : Type := mk_image { white : Z; shapes : list Contour }.

Definition cross (p q : Point) : Z := (fst p * snd q - fst q * snd p)%Z.

Fixpoint shoelace (first : Point) (c : Contour) : Z :=
  match c with
  | [] => 0%Z
  | p :: rest =>
      match rest with
      | [] => cross p first
      | q :: _ => (cross p q + shoelace first rest)%Z
      end
  end.

Definition taxicab (p q : Point) : Z :=
  (Z.abs (fst p - fst q) + Z.abs (snd p - snd q))%Z.

Fixpoint outline (first : Point) (c : Contour) : Z :=
  match c with
  | [] => 0%Z
  | p :: rest =>
      match rest with
      | [] => taxicab p first
      | q :: _ => (taxicab p q + outline first rest)%Z
      end
  end.

Definition area (c : Contour) : double :=
  match c with
  | [] => 0
  | p :: _ => Z.abs (shoelace p c) # 2
  end.

Definition perimeter (c : Contour) : double :=
  match c with
  | [] => 0
  | p :: _ => inject_Z (outline p c)
  end.

Definition blur (m : option Image) : option (option Image) :=
  match m with
  | Some _ => Some m
  | None => None
  end.

Definition difference (bg m : option Image) : option (option Image) :=
  match bg, m with
  | Some _, Some _ => Some m
  | _, _ => None
  end.

Lemma blur_empty : forall m : option Image,
  match m with None => true | Some _ => false end = true -> blur m = None.
Proof. intros [i|] H; [discriminate H | reflexivity]. Qed.

#[export] Instance cv : OpenCV := {
  Mat := option Image;
  Mat_empty := fun m => match m with None => true | Some _ => false end;
  GaussianBlur := blur;
  subtract := difference;
  threshold := fun m _ _ => m;
  countNonZero := fun m => match m with Some i => white i | None => 0%Z end;
  dilate := fun m _ => m;
  erode := fun m _ => m;
  findContours := fun m => match m with Some i => shapes i | None => [] end;
  contourArea := area;
  arcLength := perimeter;
  convexHull := fun c => c;
  GaussianBlur_empty := blur_empty
}.

(** A directory given by its listing: each file name with the image it
    decodes to, or [None] when it cannot be decoded. *)
Fixpoint lookup (files : list (string * option Image)) (file : string) : option Image :=
  match files with
  | [] => None
  | (name, image) :: rest =>
      if String.eqb name file then image else lookup rest file
  end.

Definition disk (directory : string) (files : list (string * option Image)) : Disk :=
  @mk_disk cv
    (fun d => if String.eqb d directory
              then Some (map (fun f => fs.mk_path directory (fst f)) files)
              else None)
    (fun file => lookup (map (fun f => ((directory ++ "/" ++ fst f)%string, snd f)) files) file)
    (fun _ => true).

(** A clock that advances [period] microseconds between readings. *)
Definition world (period : double) : World :=
  mk_world (fun n => inject_Z (Z.of_nat n) * period) 0 0 [].

Definition square (side : Z) : Contour :=
  [(0, 0); (side, 0); (side, side); (0, side)]%Z.

Definition background : option Image := Some (mk_image 0 []).
(** A frame inside the pixel window with one outline. *)
Definition cell (side : Z) : option Image := Some (mk_image 400 [square side]).
(** A frame inside the pixel window from which clean-up removed everything. *)
Definition speck : option Image := Some (mk_image 300 []).
(** A frame with too few detection pixels. *)
Definition blank : option Image := Some (mk_image 12 []).

(** A frame inside the pixel window whose only outline encloses nothing. *)
Definition sliver : option Image := Some (mk_image 500 [[(0, 0); (7, 0)]%Z]).

(** A directory with the background, four frames and a stray file. *)
Definition files : list (string * option Image) :=
  [("background.tiff"%string, background); ("a.tiff"%string, cell 10);
   ("b.tiff"%string, blank); ("c.tiff"%string, speck);
   ("d.tiff"%string, sliver); ("notes.txt"%string, None)].

Definition sample (directory : string) : Disk := disk directory files.

(** A directory from which a frame is removed while the program runs: two
    good frames during the first [full] repetitions, one afterwards. *)
Definition shrinking (full : nat) (i : nat) : Disk :=
  disk FindContour.directory
    (if (i <? full)%nat
     then [("background.tiff"%string, background); ("c.tiff"%string, speck);
           ("e.tiff"%string, speck)]
     else [("background.tiff"%string, background); ("c.tiff"%string, speck)]).

(** A directory that holds only the background until the last two
    repetitions, when two frames arrive and one of them leaves again. *)
Definition late (i : nat) : Disk :=
  disk FindContour.directory
    (if (i <? 9998)%nat then [("background.tiff"%string, background)]
     else if (i <? 9999)%nat
          then [("background.tiff"%string, background); ("c.tiff"%string, speck);
                ("e.tiff"%string, speck)]
          else [("background.tiff"%string, background); ("c.tiff"%string, speck)]).

(** A directory without a readable background. *)
Definition headless (directory : string) : Disk :=
  disk directory [("a.tiff"%string, cell 10); ("c.tiff"%string, speck)].

(** A directory with a frame that cannot be decoded. *)
Definition damaged (directory : string) : Disk :=
  disk directory
    [("background.tiff"%string, background); ("a.tiff"%string, cell 10);
     ("x.tiff"%string, None); ("c.tiff"%string, speck)].

Definition frame (directory name : string) : fs.path := fs.mk_path directory name.

End Fake.

(** ** Invariants and auxiliary definitions of the proofs *)

Section PipelineInvariant.
Variables Item St : Type.
Variable body : St -> Item -> option St.

(** What holds of every configuration an execution passes through. *)
Definition Pipeline_inv (items : list Item) (s0 : St) (c : Pipeline.Config Item St) : Prop :=
  match Pipeline.worker c with
  | Pipeline.Unwound => Pipeline.run body items s0 = None
  | wk =>
      exists processed,
        items = processed ++ Pipeline.image_queue c ++ Pipeline.to_push c /\
        Pipeline.run body processed s0 = Some (Pipeline.state c) /\
        (Pipeline.processing_complete c = true -> Pipeline.to_push c = []) /\
        (wk = Pipeline.TestEmpty -> Pipeline.processing_complete c = true) /\
        (wk = Pipeline.Returned ->
         Pipeline.processing_complete c = true /\ Pipeline.image_queue c = [])
  end.

End PipelineInvariant.

Section LockedInvariant.
Variables Job Shared Pc : Type.
Variable guarded : Job -> bool.
Variable entry : Job -> Pc.
Variable exec : Job -> Pc -> Shared -> Shared * option Pc.
Variable commit : Shared -> Job -> Shared.

(** What holds of every reachable configuration: a thread in a scope owns
    the mutex, waiting threads hold guarded jobs, and the shared variables
    are those of the completed scopes, advanced by the statements the owner
    has executed so far. *)
Definition Locked_inv (sh0 : Shared) (c : Locked.Config Job Shared Pc) : Prop :=
  (forall w, Locked.in_scope (Locked.threads c w) = true -> Locked.mtx c = Some w) /\
  (forall w j, Locked.threads c w = Locked.Waiting j -> guarded j = true) /\
  match Locked.mtx c with
  | None => Locked.shared c = fold_left commit (Locked.history c) sh0
  | Some w =>
      match Locked.threads c w with
      | Locked.Inside j pc =>
          Locked.within guarded entry exec j
            (fold_left commit (Locked.history c) sh0) pc (Locked.shared c)
      | Locked.Leaving j =>
          Locked.shared c = commit (fold_left commit (Locked.history c) sh0) j
      | _ => False
      end
  end.

End LockedInvariant.

Section FindContourInvariants.
Import FindContour FindContourLocked.

(** What [run_experiment] maintains from frame to frame: [number] counts the
    rows of [results], every row has a positive time, and the recorded
    maximum is the first row of greatest time. *)
Definition FindContour_inv (e : Experiment) : Prop :=
  number e = Z.of_nat (List.length (results e)) /\
  (forall row, In row (results e) -> 0 < row_time5 row) /\
  ((results e = [] /\ max_process_time e = 0 /\ max_time_image e = (EmptyString, 0)) \/
   (exists row, first_argmax row_time5 (results e) row /\
                max_time_image e = (row_path5 row, row_time5 row) /\
                max_process_time e = row_time5 row)).

(** The variables a thread finds before each statement of its scope, in
    terms of those it found on entry. *)
Definition FindContour_at (j : Job) (e0 : Experiment) (pc : Pc) (e : Experiment) : Prop :=
  let '(path, r) := j in
  let t := duration r in
  let f := findcontour_duration r in
  let beaten := Qgtb t (max_process_time e0) in
  match pc with
  | AddTotalTime => Qgtb t 0 = true /\ e = e0
  | AddFindcontourTime =>
      Qgtb t 0 = true /\
      e = mk_experiment (total_time e0 + t) (total_findcontour_time e0) (number e0)
            (max_process_time e0) (results e0) (skipped_images e0) (max_time_image e0)
  | Compare =>
      Qgtb t 0 = true /\
      e = mk_experiment (total_time e0 + t) (total_findcontour_time e0 + f) (number e0)
            (max_process_time e0) (results e0) (skipped_images e0) (max_time_image e0)
  | StoreMax =>
      Qgtb t 0 = true /\ beaten = true /\
      e = mk_experiment (total_time e0 + t) (total_findcontour_time e0 + f) (number e0)
            (max_process_time e0) (results e0) (skipped_images e0) (max_time_image e0)
  | StoreMaxImage =>
      Qgtb t 0 = true /\ beaten = true /\
      e = mk_experiment (total_time e0 + t) (total_findcontour_time e0 + f) (number e0)
            t (results e0) (skipped_images e0) (max_time_image e0)
  | IncrementNumber =>
      Qgtb t 0 = true /\
      e = mk_experiment (total_time e0 + t) (total_findcontour_time e0 + f) (number e0)
            (if beaten then t else max_process_time e0) (results e0) (skipped_images e0)
            (if beaten then (fs.to_string path, t) else max_time_image e0)
  | PushResult =>
      Qgtb t 0 = true /\
      e = mk_experiment (total_time e0 + t) (total_findcontour_time e0 + f)
            (number e0 + 1)
            (if beaten then t else max_process_time e0) (results e0) (skipped_images e0)
            (if beaten then (fs.to_string path, t) else max_time_image e0)
  | PushSkipped => Qgtb t 0 = false /\ e = e0
  end.

End FindContourInvariants.

Section MaxTimeInvariants.
Import MaxTime MaxTimeLocked.

(** What the worker maintains, in terms of the jobs handled so far. *)
Definition MaxTime_inv (done : list MaxTimeLocked.Job) (e : Experiment) : Prop :=
  number e = Z.of_nat (List.length (MaxTimeLocked.successes done)) /\
  ((MaxTimeLocked.successes done = [] /\ max_process_time e = 0 /\
    max_processing_time_image e = EmptyString) \/
   (exists j, first_argmax MaxTimeLocked.job_time (MaxTimeLocked.successes done) j /\
              max_processing_time_image e = fs.filename (fst j) /\
              max_process_time e = MaxTimeLocked.job_time j)).

(** The variables a thread finds before each statement of its scope. *)
Definition MaxTime_at (j : Job) (e0 : Experiment) (pc : Pc) (e : Experiment) : Prop :=
  let '(path, r) := j in
  let t := duration r in
  let beaten := Qgtb t (max_process_time e0) in
  Qgtb t 0 = true /\
  match pc with
  | AddTotalTime => e = e0
  | Compare =>
      e = mk_experiment (total_time e0 + t) (number e0) (max_process_time e0)
            (max_processing_time_image e0)
  | StoreMax =>
      beaten = true /\
      e = mk_experiment (total_time e0 + t) (number e0) (max_process_time e0)
            (max_processing_time_image e0)
  | StoreMaxImage =>
      beaten = true /\
      e = mk_experiment (total_time e0 + t) (number e0) t (max_processing_time_image e0)
  | IncrementNumber =>
      e = mk_experiment (total_time e0 + t) (number e0)
            (if beaten then t else max_process_time e0)
            (if beaten then fs.filename path else max_processing_time_image e0)
  end.

End MaxTimeInvariants.

Section Repetitions.
Context {cv : OpenCV}.
Import FindContour.

(** One repetition as far as the world is concerned: the run and the
    progress bar. *)
Definition FindContour_run (repetitions : nat) (disk_at : nat -> Disk) (i : nat)
    : M Experiment :=
  e <- run_experiment (disk_at i) directory [] [] (EmptyString, 0) ;;
  emit (Progress (i + 1) repetitions) ;;;
  ret e.

(** What [main] does with the outcome of a run. *)
Definition FindContour_absorb (t : Totals) (e : Experiment) : Totals :=
  fold_left add_row (results e)
    (mk_totals (total_circularity_ratio t) (total_area_ratio t)
       (total_processing_time t) (total_findcontour_time_all t)
       (results e) (skipped_images e) (max_time_image e)).

(** What one repetition with an unreadable background leaves on the
    console, latest first. *)
Definition complaint (directory : string) (repetitions : nat) (i : nat) : list Event :=
  [Progress (i + 1) repetitions;
   Cerr ("Error: Could not read background image: " ++ directory ++ "/background.tiff");
   Imread (directory ++ "/background.tiff")].

End Repetitions.

(** ** Further vocabulary *)

(** The files a program has read with [imread], latest first. *)
Fixpoint imread_files (events : list Event) : list string :=
  match events with
  | [] => []
  | Imread file :: rest => file :: imread_files rest
  | _ :: rest => imread_files rest
  end.

(** How often [findContours] was called. *)
Fixpoint findContours_calls (events : list Event) : nat :=
  match events with
  | [] => 0%nat
  | FindContours :: rest => S (findContours_calls rest)
  | _ :: rest => findContours_calls rest
  end.

(** Every field of the metrics is strictly positive. *)
Definition all_positive (m : ContourMetrics) : Prop :=
  0 < area_original m /\ 0 < area_hull m /\ 0 < area_ratio m /\
  0 < circularity_original m /\ 0 < circularity_hull m /\ 0 < circularity_ratio m.

(** ** The lock_guard scopes of time_skip.cpp, by statement *)

Module TimeSkipLocked.
Import TimeSkip.

(** A frame the worker has processed: its path, what [process_single_image]
    left in the references, and what it returned. *)
Definition Job : Type := (fs.path * (Refs * bool))%type.

Inductive Pc : Type :=
| AddTotalTime           (* total_time = total_time + process_time; *)
| Compare                (* if (process_time > max_process_time) *)
| StoreMax               (* max_process_time = process_time; *)
| StoreMaxImage          (* max_time_image = { path.string(), process_time }; *)
| IncrementNumber        (* number++; *)
| PushResult             (* results.push_back(...); *)
| PushSkipped.           (* skipped_images.push_back({ path.string(), process_time }); *)

(** Both arms of [if (processed)] open a scope. *)
Definition guarded (j : Job) : bool := true.

Definition entry (j : Job) : Pc :=
  if snd (snd j) then AddTotalTime else PushSkipped.

Definition exec (j : Job) (pc : Pc) (e : Experiment) : Experiment * option Pc :=
  let '(path, (r, processed)) := j in
  let process_time := duration r in
  match pc with
  | AddTotalTime =>
      (mk_experiment (total_time e + process_time) (number e) (max_process_time e)
         (results e) (skipped_images e) (max_time_image e), Some Compare)
  | Compare =>
      (e, Some (if Qgtb process_time (max_process_time e) then StoreMax
                else IncrementNumber))
  | StoreMax =>
      (mk_experiment (total_time e) (number e) process_time
         (results e) (skipped_images e) (max_time_image e), Some StoreMaxImage)
  | StoreMaxImage =>
      (mk_experiment (total_time e) (number e) (max_process_time e)
         (results e) (skipped_images e) (fs.to_string path, process_time),
       Some IncrementNumber)
  | IncrementNumber =>
      (mk_experiment (total_time e) (number e + 1) (max_process_time e)
         (results e) (skipped_images e) (max_time_image e), Some PushResult)
  | PushResult =>
      (mk_experiment (total_time e) (number e) (max_process_time e)
         (results e ++ [(fs.to_string path, circularity_ratio (metrics r),
                         area_ratio (metrics r), process_time)])
         (skipped_images e) (max_time_image e), None)
  | PushSkipped =>
      (mk_experiment (total_time e) (number e) (max_process_time e) (results e)
         (skipped_images e ++ [(fs.to_string path, process_time)])
         (max_time_image e), None)
  end.

(** The variables as [run_experiment] initialises them and as [main] hands
    them over. *)
Definition fresh : Experiment := mk_experiment 0 0 0 [] [] (EmptyString, 0).

Definition reachable : Locked.Config Job Experiment Pc -> Prop :=
  Locked.reachable guarded entry exec fresh.

End TimeSkipLocked.

Section TimeSkipInvariants.
Import TimeSkip TimeSkipLocked.

(** The variables a thread finds before each statement of its scope, in
    terms of those it found on entry. *)
Definition TimeSkip_at (j : Job) (e0 : Experiment) (pc : Pc) (e : Experiment) : Prop :=
  let '(path, (r, processed)) := j in
  let t := duration r in
  let beaten := Qgtb t (max_process_time e0) in
  match pc with
  | AddTotalTime => processed = true /\ e = e0
  | Compare =>
      processed = true /\
      e = mk_experiment (total_time e0 + t) (number e0) (max_process_time e0)
            (results e0) (skipped_images e0) (max_time_image e0)
  | StoreMax =>
      processed = true /\ beaten = true /\
      e = mk_experiment (total_time e0 + t) (number e0) (max_process_time e0)
            (results e0) (skipped_images e0) (max_time_image e0)
  | StoreMaxImage =>
      processed = true /\ beaten = true /\
      e = mk_experiment (total_time e0 + t) (number e0) t
            (results e0) (skipped_images e0) (max_time_image e0)
  | IncrementNumber =>
      processed = true /\
      e = mk_experiment (total_time e0 + t) (number e0)
            (if beaten then t else max_process_time e0)
            (results e0) (skipped_images e0)
            (if beaten then (fs.to_string path, t) else max_time_image e0)
  | PushResult =>
      processed = true /\
      e = mk_experiment (total_time e0 + t) (number e0 + 1)
            (if beaten then t else max_process_time e0)
            (results e0) (skipped_images e0)
            (if beaten then (fs.to_string path, t) else max_time_image e0)
  | PushSkipped => processed = false /\ e = e0
  end.

End TimeSkipInvariants.

(** ** The pixel window of findcontour_time_10000.cpp *)

Section WindowVocabulary.
Context {cv : OpenCV}.

(** The frame at [path] has from 250 to 650 detection pixels. *)
Definition in_window (disk : Disk) (blurred_bg : Mat) (path : fs.path) : bool :=
  match white_pixel_count (file_image disk (fs.to_string path)) blurred_bg with
  | Some n => negb ((n <? 250)%Z || (n >? 650)%Z)
  | None => false
  end.

End WindowVocabulary.

(** ** The accounts of the workers *)

Section FindContourAccountsVocabulary.
Import FindContour FindContourLocked.

(** What the accumulators are, in terms of the rows and the jobs handled. *)
Definition FindContour_accounts (done : list Job) (e : Experiment) : Prop :=
  total_time e = column_sum row_time5 (results e) 0 /\
  total_findcontour_time e = column_sum row_findcontour5 (results e) 0 /\
  (forall row, In row (results e) -> row_time5 row <= max_process_time e) /\
  0 <= max_process_time e /\
  (List.length (results e) + List.length (skipped_images e) = List.length done)%nat /\
  skipped_images e =
    map (fun j => fs.to_string (fst j))
        (filter (fun j => negb (Qgtb (duration (snd j)) 0)) done).

End FindContourAccountsVocabulary.

Section TimeSkipAccountsVocabulary.
Import TimeSkip.

(** What [process_single_image] returns obeys the budget. *)
Definition within_budget (rp : Refs * bool) : Prop :=
  if snd rp then duration (fst rp) <= 200 else 200 < duration (fst rp).

(** What the worker of time_skip.cpp maintains. *)
Definition TimeSkip_accounts (e : Experiment) : Prop :=
  total_time e = column_sum row_time4 (results e) 0 /\
  (forall row, In row (results e) -> row_time4 row <= 200) /\
  (forall image, In image (skipped_images e) -> 200 < snd image) /\
  ((max_process_time e = 0 /\ max_time_image e = (EmptyString, 0) /\
    forall row, In row (results e) -> row_time4 row <= 0) \/
   (exists row, first_argmax row_time4 (results e) row /\
                0 < row_time4 row /\
                max_time_image e = (row_path4 row, row_time4 row) /\
                max_process_time e = row_time4 row)).

End TimeSkipAccountsVocabulary.

(** ** Where an exception leaves the worker *)

Section PipelineFailure.
Variables Item St : Type.
Variable body : St -> Item -> option St.

(** Once the body has thrown, the state is the one the items before the
    failing one produced, and the failing item is gone from the queue. *)
Definition Pipeline_failed (items : list Item) (s0 : St) (c : Pipeline.Config Item St) : Prop :=
  match Pipeline.worker c with
  | Pipeline.Unwound =>
      exists processed x,
        items = processed ++ x :: Pipeline.image_queue c ++ Pipeline.to_push c /\
        Pipeline.run body processed s0 = Some (Pipeline.state c) /\
        body (Pipeline.state c) x = None
  | _ => True
  end.

End PipelineFailure.

(** ** The progress bar

    [print_progress_bar] of max_time.cpp, which the [Progress] event stands
    for in the program above; [print_progress] of findcontour_time_10000.cpp
    computes the same position and draws the same bar.  The ratio is a
    [float] and the percentage is computed in [double]: IEEE 754 binary32
    and binary64, every operation rounded once to nearest, ties to even.  A
    line is the text between the brackets and the number before the percent
    sign. *)

Module ProgressBar.

Definition float_of_int (n : Z) : SpecFloat.spec_float :=
  SpecFloat.binary_normalize 24 128 n 0 false.
Definition float_div : SpecFloat.spec_float -> SpecFloat.spec_float -> SpecFloat.spec_float :=
  SpecFloat.SFdiv 24 128.
Definition float_mul : SpecFloat.spec_float -> SpecFloat.spec_float -> SpecFloat.spec_float :=
  SpecFloat.SFmul 24 128.

(** The promotion of a [float] operand to [double]; it is exact. *)
Definition double_of_float (x : SpecFloat.spec_float) : SpecFloat.spec_float :=
  match x with
  | SpecFloat.S754_finite s m e =>
      SpecFloat.binary_normalize 53 1024 (if s then Z.neg m else Z.pos m) e s
  | _ => x
  end.
Definition double_of_int (n : Z) : SpecFloat.spec_float :=
  SpecFloat.binary_normalize 53 1024 n 0 false.
Definition double_mul : SpecFloat.spec_float -> SpecFloat.spec_float -> SpecFloat.spec_float :=
  SpecFloat.SFmul 53 1024.

(** [static_cast<int>] of a finite value in range: towards zero. *)
Definition to_int (x : SpecFloat.spec_float) : Z :=
  match x with
  | SpecFloat.S754_finite s m e =>
      let magnitude :=
        match e with
        | Z.neg p => Z.shiftr (Z.pos m) (Z.pos p)
        | _ => Z.shiftl (Z.pos m) e
        end in
      if s then (- magnitude)%Z else magnitude
  | _ => 0%Z
  end.

Definition bar_width : Z := 70.

(** What the loop writes at column [i]. *)
Definition cell (pos i : Z) : ascii :=
  if (i <? pos)%Z then "="%char
  else if (i =? pos)%Z then ">"%char
  else " "%char.

(** The loop [for (int i = 0; i < bar_width; ++i)]. *)
Definition bar (pos : Z) : string :=
  string_of_list_ascii
    (map (fun i => cell pos (Z.of_nat i)) (seq 0 (Z.to_nat bar_width))).

Record Line : Type := mk_line { bar_text : string; percent : Z }.

(** [static_cast<float>(current) / total] *)
Definition ratio (current total : Z) : SpecFloat.spec_float :=
  float_div (float_of_int current) (float_of_int total).

(** [static_cast<int>(bar_width * progress)] *)
Definition position (current total : Z) : Z :=
  to_int (float_mul (float_of_int bar_width) (ratio current total)).

(** [print_progress_bar] of max_time.cpp *)
Definition print_progress_bar (progress total : Z) : Line :=
  let progress_ratio := ratio progress total in
  let pos := to_int (float_mul (float_of_int bar_width) progress_ratio) in
  mk_line (bar pos)
    (to_int (double_mul (double_of_float progress_ratio) (double_of_int 100))).

End ProgressBar.

(** ** The measurements of pixel.cpp *)

Section PixelVocabulary.
Context {cv : OpenCV}.

(** The frames pixel.cpp counts the white pixels of, with their counts, in
    directory order: the frames that can be read. *)
Definition measured (disk : Disk) (blurred_bg : Mat) (frames : list fs.path)
    : list (string * Z) :=
  flat_map (fun image_path =>
              let image := file_image disk (fs.to_string image_path) in
              if Mat_empty image then []
              else match white_pixel_count image blurred_bg with
                   | Some count => [(fs.filename image_path, count)]
                   | None => []
                   end) frames.

(** The two conditional updates of [process_single_image], on a measurement. *)
Definition Pixel_update (infos : Pixel.ImageInfo * Pixel.ImageInfo) (m : string * Z)
    : Pixel.ImageInfo * Pixel.ImageInfo :=
  (if (snd m >? Pixel.white_pixel_count (fst infos))%Z
   then Pixel.mk_info (fst m) (snd m) else fst infos,
   if (snd m <? Pixel.white_pixel_count (snd infos))%Z
   then Pixel.mk_info (fst m) (snd m) else snd infos).

End PixelVocabulary.

(** [m] is the first measurement with the greatest count. *)
Definition first_greatest (ms : list (string * Z)) (m : string * Z) : Prop :=
  exists before after,
    ms = before ++ m :: after /\
    (forall x, In x before -> (snd x < snd m)%Z) /\
    (forall x, In x after -> (snd x <= snd m)%Z).

(** [m] is the first measurement with the least count. *)
Definition first_least (ms : list (string * Z)) (m : string * Z) : Prop :=
  exists before after,
    ms = before ++ m :: after /\
    (forall x, In x before -> (snd m < snd x)%Z) /\
    (forall x, In x after -> (snd m <= snd x)%Z).

(** ** The occurrence counts of max_time.cpp *)

Section MaxTimeVocabulary.
Context {cv : OpenCV}.

(** One repetition of [main]'s loop, up to the name it hands to the map:
    the image [run_experiment] found slowest, empty when it found none. *)
Definition MaxTime_winner (total_iterations : nat) (disk_at : nat -> Disk)
    (blurred_bg : Mat) (i : nat) : M string :=
  e <- MaxTime.run_experiment (disk_at i) MaxTime.directory blurred_bg EmptyString ;;
  emit (Progress (i + 1) total_iterations) ;;;
  ret (MaxTime.max_processing_time_image e).

End MaxTimeVocabulary.

(** What [main] does with that name. *)
Definition tally (image_count : list (string * nat)) (name : string) : list (string * nat) :=
  if String.eqb name EmptyString then image_count else MaxTime.increment image_count name.

(** [image_count] read at a key, 0 when the key is absent. *)
Fixpoint occurrences (image_count : list (string * nat)) (name : string) : nat :=
  match image_count with
  | [] => 0%nat
  | (k, n) :: rest => if String.eqb k name then n else occurrences rest name
  end.

(** What every [image_count] built by [main] satisfies. *)
Definition well_formed_counts (image_count : list (string * nat)) : Prop :=
  NoDup (map fst image_count) /\
  ~ In EmptyString (map fst image_count) /\
  (forall k n, In (k, n) image_count -> (1 <= n)%nat).

(** * Properties *)

(** ** The enumeration filter on sample names *)

Example extension_of_frame :
  fs.extension (fs.mk_path "d" "frame_0001.tiff") = ".tiff"%string.
Proof. reflexivity. Qed.

Example extension_is_the_last_one :
  fs.extension (fs.mk_path "d" "frame.tiff.bak") = ".bak"%string.
Proof. reflexivity. Qed.

Example leading_period_is_no_extension :
  fs.extension (fs.mk_path "d" ".tiff") = EmptyString.
Proof. reflexivity. Qed.

Example background_is_not_a_frame :
  is_frame (fs.mk_path "d" "background.tiff") = false /\
  is_frame (fs.mk_path "d" "frame_0001.tiff") = true /\
  is_frame (fs.mk_path "d" "notes.txt") = false.
Proof. repeat split. Qed.

(** ** Comparisons of doubles *)

Lemma Qltb_lt : forall a b, Qltb a b = true <-> a < b.
Proof.
  intros a b. unfold Qltb. rewrite negb_true_iff.
  split.
  - intro H. apply Qnot_le_lt. intro Hle.
    apply Qle_bool_iff in Hle. congruence.
  - intro H. destruct (Qle_bool b a) eqn:E; [|reflexivity].
    apply Qle_bool_iff in E. exfalso. exact (Qlt_not_le _ _ H E).
Qed.

Lemma Qltb_ge : forall a b, Qltb a b = false <-> b <= a.
Proof.
  intros a b. unfold Qltb. rewrite negb_false_iff. apply Qle_bool_iff.
Qed.

Lemma Qgtb_gt : forall a b, Qgtb a b = true <-> b < a.
Proof. intros a b. apply Qltb_lt. Qed.

Lemma Qgtb_le : forall a b, Qgtb a b = false <-> a <= b.
Proof. intros a b. apply Qltb_ge. Qed.

(** ** The monad *)

Lemma bind_Some : forall (A B : Type) (m : M A) (k : A -> M B) w b w',
  bind m k w = Some (b, w') ->
  exists a w1, m w = Some (a, w1) /\ k a w1 = Some (b, w').
Proof.
  intros A B m k w b w' H. unfold bind in H.
  destruct (m w) as [[a w1]|] eqn:E; [|discriminate].
  exists a, w1. split; [reflexivity | exact H].
Qed.

Lemma mapM_length : forall (A B : Type) (f : A -> M B) l w ys w',
  mapM f l w = Some (ys, w') -> List.length ys = List.length l.
Proof.
  intros A B f l. induction l as [|x l IH]; intros w ys w' H; simpl in H.
  - inversion H. reflexivity.
  - apply bind_Some in H. destruct H as (y & w1 & _ & H).
    apply bind_Some in H. destruct H as (ys' & w2 & Hys & H).
    inversion H; subst. simpl. f_equal. eapply IH. exact Hys.
Qed.

(** A loop whose body measures an item and then folds the measurement into
    the accumulator does all its measuring as [mapM] would, and its
    accumulating as a plain fold over the measurements would. *)
Lemma foldM_measure_then_fold :
  forall (A B R : Type) (measure : B -> M R) (agg : A -> B -> R -> A) l a w,
    foldM (fun a x => r <- measure x ;; ret (agg a x r)) l a w =
    match mapM measure l w with
    | Some (rs, w') =>
        Some (fold_left (fun a xr => agg a (fst xr) (snd xr)) (combine l rs) a, w')
    | None => None
    end.
Proof.
  intros A B R measure agg l. induction l as [|x l IH]; intros a w.
  - reflexivity.
  - simpl. unfold bind at 1 2 4. destruct (measure x w) as [[r w1]|]; [|reflexivity].
    unfold ret at 1. rewrite IH. unfold bind.
    destruct (mapM measure l w1) as [[rs w2]|]; reflexivity.
Qed.

(** ** The queue: every interleaving that ends has run the loop body on the
    enumerated frames, each once, in the order they were pushed *)

Section PipelineFacts.
Variables Item St : Type.
Variable body : St -> Item -> option St.

Local Abbreviation Config := (Pipeline.Config Item St).
Local Abbreviation step := (Pipeline.step body).
Local Abbreviation steps := (Pipeline.steps body).
Local Abbreviation run := (Pipeline.run body).

Lemma Pipeline_run_app : forall l1 l2 s,
  run (l1 ++ l2) s =
  match run l1 s with
  | Some s' => run l2 s'
  | None => None
  end.
Proof.
  induction l1 as [|x l1 IH]; intros l2 s; simpl.
  - reflexivity.
  - destruct (body s x); [apply IH | reflexivity].
Qed.

Lemma Pipeline_steps_trans : forall c1 c2 c3 : Config,
  steps c1 c2 -> steps c2 c3 -> steps c1 c3.
Proof.
  intros c1 c2 c3 H. induction H; intro H'.
  - exact H'.
  - eapply Pipeline.steps_cons; [eassumption | auto].
Qed.


Lemma Pipeline_inv_initial : forall items s0,
  Pipeline_inv body items s0 (Pipeline.initial items s0).
Proof.
  intros items s0. exists []. simpl.
  repeat split; try discriminate; reflexivity.
Qed.

Lemma Pipeline_inv_step : forall items s0 c c',
  Pipeline_inv body items s0 c -> step c c' -> Pipeline_inv body items s0 c'.
Proof.
  intros items s0 c c' Hinv Hstep.
  destruct Hstep; unfold Pipeline_inv in *; simpl in *.
  - (* push *)
    destruct wk; try exact Hinv;
      destruct Hinv as (p & Hitems & Hrun & Hc & Ht & Hr);
      exists p; (split; [rewrite <- app_assoc; exact Hitems|]);
      (split; [exact Hrun|]);
      (split; [intro Hb; specialize (Hc Hb); discriminate|]);
      (split; [exact Ht|]).
    all: intro Hw; try discriminate Hw.
    destruct (Hr eq_refl) as [Hb _]. specialize (Hc Hb). discriminate.
  - (* complete *)
    destruct wk; try exact Hinv;
      destruct Hinv as (p & Hitems & Hrun & Hc & Ht & Hr);
      exists p; repeat split; auto; try (apply Hr; assumption).
  - destruct Hinv as (p & Hitems & Hrun & Hc & Ht & Hr).
    exists p. repeat split; auto; discriminate.
  - destruct Hinv as (p & Hitems & Hrun & Hc & Ht & Hr).
    exists p. repeat split; auto; discriminate.
  - destruct Hinv as (p & Hitems & Hrun & Hc & Ht & Hr).
    exists p. repeat split; auto; discriminate.
  - destruct Hinv as (p & Hitems & Hrun & Hc & Ht & Hr).
    exists p. repeat split; auto; try discriminate; apply Ht; reflexivity.
  - destruct Hinv as (p & Hitems & Hrun & Hc & Ht & Hr).
    exists (p ++ [x]). split; [rewrite <- app_assoc; exact Hitems|].
    split; [rewrite Pipeline_run_app, Hrun; simpl; rewrite H; reflexivity|].
    repeat split; auto; discriminate.
  - destruct Hinv as (p & Hitems & Hrun & Hc & Ht & Hr).
    rewrite Hitems, Pipeline_run_app, Hrun. simpl. rewrite H. reflexivity.
  - destruct Hinv as (p & Hitems & Hrun & Hc & Ht & Hr).
    exists p. repeat split; auto; discriminate.
Qed.

Lemma Pipeline_inv_steps : forall items s0 c c',
  steps c c' -> Pipeline_inv body items s0 c -> Pipeline_inv body items s0 c'.
Proof.
  intros items s0 c c' H. induction H; intro Hinv.
  - exact Hinv.
  - apply IHsteps. eapply Pipeline_inv_step; eassumption.
Qed.

(** When the worker has left its loop, the state is the one the sequential
    run over all enumerated items produces: nothing skipped, nothing twice. *)
Theorem Pipeline_returned : forall items s0 c,
  steps (Pipeline.initial items s0) c ->
  Pipeline.worker c = Pipeline.Returned ->
  run items s0 = Some (Pipeline.state c) /\
  Pipeline.image_queue c = [] /\ Pipeline.to_push c = [].
Proof.
  intros items s0 c Hs Hw.
  pose proof (@Pipeline_inv_steps items s0 _ _ Hs (Pipeline_inv_initial items s0)) as Hinv.
  unfold Pipeline_inv in Hinv. rewrite Hw in Hinv.
  destruct Hinv as (p & Hitems & Hrun & Hc & _ & Hr).
  destruct (Hr eq_refl) as [Hb Hq]. specialize (Hc Hb).
  rewrite Hq, Hc in Hitems. simpl in Hitems. rewrite app_nil_r in Hitems.
  subst p. auto.
Qed.

(** When the body threw, so does the sequential run. *)
Theorem Pipeline_unwound : forall items s0 c,
  steps (Pipeline.initial items s0) c ->
  Pipeline.worker c = Pipeline.Unwound ->
  run items s0 = None.
Proof.
  intros items s0 c Hs Hw.
  pose proof (@Pipeline_inv_steps items s0 _ _ Hs (Pipeline_inv_initial items s0)) as Hinv.
  unfold Pipeline_inv in Hinv. rewrite Hw in Hinv. exact Hinv.
Qed.

Lemma Pipeline_push_all : forall tp q b wk s,
  steps (Pipeline.mk_config tp q b wk s) (Pipeline.mk_config [] (q ++ tp) b wk s).
Proof.
  induction tp as [|x tp IH]; intros q b wk s.
  - rewrite app_nil_r. apply Pipeline.steps_refl.
  - eapply Pipeline.steps_cons; [apply Pipeline.producer_push|].
    replace (q ++ x :: tp) with ((q ++ [x]) ++ tp)
      by (rewrite <- app_assoc; reflexivity).
    apply IH.
Qed.

Lemma Pipeline_drain : forall q wk s,
  exists c', steps (Pipeline.mk_config [] q true wk s) c' /\ Pipeline.finished c'.
Proof.
  induction q as [|x q IH]; intros wk s.
  - assert (Hempty : exists c', steps (Pipeline.mk_config [] [] true Pipeline.TestEmpty s) c'
                                /\ Pipeline.finished c').
    { eexists. split; [eapply Pipeline.steps_cons;
                       [apply Pipeline.worker_sees_empty | apply Pipeline.steps_refl]|].
      left. reflexivity. }
    assert (Hhead : exists c', steps (Pipeline.mk_config [] [] true Pipeline.TestComplete s) c'
                               /\ Pipeline.finished c').
    { destruct Hempty as (c' & Hs & Hf). exists c'. split; [|exact Hf].
      eapply Pipeline.steps_cons; [apply Pipeline.worker_sees_complete | exact Hs]. }
    destruct wk.
    + exact Hhead.
    + exact Hempty.
    + destruct Hhead as (c' & Hs & Hf). exists c'. split; [|exact Hf].
      eapply Pipeline.steps_cons; [apply Pipeline.worker_yields | exact Hs].
    + eexists. split; [apply Pipeline.steps_refl | left; reflexivity].
    + eexists. split; [apply Pipeline.steps_refl | right; reflexivity].
  - assert (Hpop : exists c', steps (Pipeline.mk_config [] (x :: q) true Pipeline.TryPop s) c'
                              /\ Pipeline.finished c').
    { destruct (body s x) as [s'|] eqn:E.
      - destruct (IH Pipeline.TestComplete s') as (c' & Hs & Hf).
        exists c'. split; [|exact Hf].
        eapply Pipeline.steps_cons; [apply Pipeline.worker_pops; exact E | exact Hs].
      - eexists. split; [eapply Pipeline.steps_cons;
                         [apply Pipeline.worker_throws; exact E | apply Pipeline.steps_refl]|].
        right. reflexivity. }
    assert (Hempty : exists c', steps (Pipeline.mk_config [] (x :: q) true Pipeline.TestEmpty s) c'
                                /\ Pipeline.finished c').
    { destruct Hpop as (c' & Hs & Hf). exists c'. split; [|exact Hf].
      eapply Pipeline.steps_cons; [apply Pipeline.worker_sees_items | exact Hs]. }
    destruct wk.
    + destruct Hempty as (c' & Hs & Hf). exists c'. split; [|exact Hf].
      eapply Pipeline.steps_cons; [apply Pipeline.worker_sees_complete | exact Hs].
    + exact Hempty.
    + exact Hpop.
    + eexists. split; [apply Pipeline.steps_refl | left; reflexivity].
    + eexists. split; [apply Pipeline.steps_refl | right; reflexivity].
Qed.

(** From every configuration the run can be brought to an end: the loop
    cannot be trapped waiting. *)
Theorem Pipeline_can_finish : forall c : Config,
  exists c', steps c c' /\ Pipeline.finished c'.
Proof.
  intros [tp q b wk s].
  destruct (Pipeline_drain (q ++ tp) wk s) as (c' & Hs & Hf).
  exists c'. split; [|exact Hf].
  eapply Pipeline_steps_trans; [apply Pipeline_push_all|].
  destruct b.
  - exact Hs.
  - eapply Pipeline.steps_cons; [apply Pipeline.producer_complete | exact Hs].
Qed.

End PipelineFacts.

(** ** The mutex: scopes exclude one another, and between scopes the shared
    variables are what the scopes left so far, run whole and one after the
    other, produce *)

Section LockedFacts.
Variables Job Shared Pc : Type.
Variable guarded : Job -> bool.
Variable entry : Job -> Pc.
Variable exec : Job -> Pc -> Shared -> Shared * option Pc.

(** The scope run at once, and the fact that running it statement by
    statement from its entry ends in the same variables. *)
Variable commit : Shared -> Job -> Shared.
Hypothesis exec_commit : forall j sh0 pc sh sh',
  Locked.within guarded entry exec j sh0 pc sh ->
  exec j pc sh = (sh', None) -> sh' = commit sh0 j.

Local Abbreviation Config := (Locked.Config Job Shared Pc).
Local Abbreviation reachable := (Locked.reachable guarded entry exec).


Lemma set_thread_same : forall (ts : nat -> Locked.Thread Job Pc) w t,
  Locked.set_thread ts w t w = t.
Proof. intros. unfold Locked.set_thread. rewrite Nat.eqb_refl. reflexivity. Qed.

Lemma set_thread_other : forall (ts : nat -> Locked.Thread Job Pc) w t w',
  w' <> w -> Locked.set_thread ts w t w' = ts w'.
Proof.
  intros ts w t w' H. unfold Locked.set_thread.
  destruct (Nat.eqb_spec w' w); [contradiction | reflexivity].
Qed.

Lemma Locked_inv_step : forall sh0 c c',
  Locked_inv guarded entry exec commit sh0 c ->
  Locked.step guarded entry exec c c' ->
  Locked_inv guarded entry exec commit sh0 c'.
Proof.
  intros sh0 c c' (Hscope & Hwait & Hsh) Hstep.
  destruct Hstep as [w j c Hw Hg | w j c Hw Hm | w j pc sh' pc' c Hw He
                    | w j pc sh' c Hw He | w j c Hw];
    unfold Locked_inv; simpl.
  - (* take *)
    split; [|split].
    + intros w' Hin. destruct (Nat.eq_dec w' w) as [->|Hne].
      * rewrite set_thread_same in Hin. discriminate.
      * rewrite set_thread_other in Hin by exact Hne. auto.
    + intros w' j' Hw'. destruct (Nat.eq_dec w' w) as [->|Hne].
      * rewrite set_thread_same in Hw'. inversion Hw'; subst. exact Hg.
      * rewrite set_thread_other in Hw' by exact Hne. eauto.
    + destruct (Locked.mtx c) as [w0|]; [|exact Hsh].
      destruct (Nat.eq_dec w0 w) as [->|Hne].
      * rewrite Hw in Hsh. contradiction.
      * rewrite set_thread_other by exact Hne. exact Hsh.
  - (* lock *)
    rewrite Hm in Hsh.
    split; [|split].
    + intros w' Hin. destruct (Nat.eq_dec w' w) as [->|Hne]; [reflexivity|].
      rewrite set_thread_other in Hin by exact Hne.
      apply Hscope in Hin. congruence.
    + intros w' j' Hw'. destruct (Nat.eq_dec w' w) as [->|Hne].
      * rewrite set_thread_same in Hw'. discriminate.
      * rewrite set_thread_other in Hw' by exact Hne. eauto.
    + rewrite set_thread_same. rewrite Hsh.
      apply Locked.within_entry. eauto.
  - (* a statement that is not the last *)
    assert (Hown : Locked.mtx c = Some w) by (apply Hscope; rewrite Hw; reflexivity).
    rewrite Hown in *. rewrite Hw in Hsh.
    split; [|split].
    + intros w' Hin. destruct (Nat.eq_dec w' w) as [->|Hne]; [reflexivity|].
      rewrite set_thread_other in Hin by exact Hne.
      apply Hscope in Hin. congruence.
    + intros w' j' Hw'. destruct (Nat.eq_dec w' w) as [->|Hne].
      * rewrite set_thread_same in Hw'. discriminate.
      * rewrite set_thread_other in Hw' by exact Hne. eauto.
    + rewrite set_thread_same. eapply Locked.within_next; eassumption.
  - (* the last statement *)
    assert (Hown : Locked.mtx c = Some w) by (apply Hscope; rewrite Hw; reflexivity).
    rewrite Hown in *. rewrite Hw in Hsh.
    split; [|split].
    + intros w' Hin. destruct (Nat.eq_dec w' w) as [->|Hne]; [reflexivity|].
      rewrite set_thread_other in Hin by exact Hne.
      apply Hscope in Hin. congruence.
    + intros w' j' Hw'. destruct (Nat.eq_dec w' w) as [->|Hne].
      * rewrite set_thread_same in Hw'. discriminate.
      * rewrite set_thread_other in Hw' by exact Hne. eauto.
    + rewrite set_thread_same. eapply exec_commit; eassumption.
  - (* unlock *)
    assert (Hown : Locked.mtx c = Some w) by (apply Hscope; rewrite Hw; reflexivity).
    rewrite Hown in *. rewrite Hw in Hsh.
    split; [|split].
    + intros w' Hin. destruct (Nat.eq_dec w' w) as [->|Hne].
      * rewrite set_thread_same in Hin. discriminate.
      * rewrite set_thread_other in Hin by exact Hne.
        apply Hscope in Hin. congruence.
    + intros w' j' Hw'. destruct (Nat.eq_dec w' w) as [->|Hne].
      * rewrite set_thread_same in Hw'. discriminate.
      * rewrite set_thread_other in Hw' by exact Hne. eauto.
    + rewrite fold_left_app. simpl. exact Hsh.
Qed.

Lemma Locked_inv_reachable : forall sh0 c,
  reachable sh0 c -> Locked_inv guarded entry exec commit sh0 c.
Proof.
  intros sh0 c H. induction H.
  - unfold Locked_inv. simpl. repeat split; intros; discriminate.
  - eapply Locked_inv_step; eassumption.
Qed.

(** No two threads are inside a scope at the same time. *)
Theorem Locked_mutual_exclusion : forall sh0 c w1 w2,
  reachable sh0 c ->
  Locked.in_scope (Locked.threads c w1) = true ->
  Locked.in_scope (Locked.threads c w2) = true ->
  w1 = w2.
Proof.
  intros sh0 c w1 w2 H H1 H2.
  destruct (Locked_inv_reachable H) as (Hscope & _ & _).
  apply Hscope in H1. apply Hscope in H2. congruence.
Qed.

(** While the mutex is free, the shared variables are those the scopes left
    so far produce when run whole, in the order they were left. *)
Theorem Locked_quiescent : forall sh0 c,
  reachable sh0 c ->
  Locked.mtx c = None ->
  Locked.shared c = fold_left commit (Locked.history c) sh0.
Proof.
  intros sh0 c H Hm.
  destruct (Locked_inv_reachable H) as (_ & _ & Hsh).
  rewrite Hm in Hsh. exact Hsh.
Qed.

(** A thread at a statement of a scope owns the mutex. *)
Theorem Locked_scope_owner : forall sh0 c w,
  reachable sh0 c ->
  Locked.in_scope (Locked.threads c w) = true ->
  Locked.mtx c = Some w.
Proof.
  intros sh0 c w H Hin.
  destruct (Locked_inv_reachable H) as (Hscope & _ & _). auto.
Qed.

(** A thread outside a scope does not own the mutex. *)
Theorem Locked_owner_in_scope : forall sh0 c w,
  reachable sh0 c ->
  Locked.mtx c = Some w ->
  Locked.in_scope (Locked.threads c w) = true.
Proof.
  intros sh0 c w H Hm.
  destruct (Locked_inv_reachable H) as (_ & _ & Hsh).
  rewrite Hm in Hsh.
  destruct (Locked.threads c w); simpl; try contradiction; reflexivity.
Qed.

End LockedFacts.

(** ** The greatest element, first among equals *)

Lemma first_argmax_In : forall (A : Type) (time : A -> double) l x,
  first_argmax time l x -> In x l.
Proof.
  intros A time l x H. destruct H. apply in_or_app. right. left. reflexivity.
Qed.

Lemma first_argmax_le : forall (A : Type) (time : A -> double) l x,
  first_argmax time l x -> forall y, In y l -> time y <= time x.
Proof.
  intros A time l x H. destruct H as [before x after Hb Ha].
  intros y Hy. apply in_app_or in Hy. destruct Hy as [Hy|[Hy|Hy]].
  - apply Qlt_le_weak. auto.
  - subst y. apply Qle_refl.
  - auto.
Qed.

Lemma first_argmax_snoc_keep : forall (A : Type) (time : A -> double) l x y,
  first_argmax time l x -> time y <= time x -> first_argmax time (l ++ [y]) x.
Proof.
  intros A time l x y H Hy. destruct H as [before x after Hb Ha].
  rewrite <- app_assoc. simpl. constructor; [exact Hb|].
  intros z Hz. apply in_app_or in Hz. destruct Hz as [Hz|[Hz|[]]].
  - auto.
  - subst z. exact Hy.
Qed.

Lemma first_argmax_snoc_new : forall (A : Type) (time : A -> double) l y,
  (forall z, In z l -> time z < time y) -> first_argmax time (l ++ [y]) y.
Proof.
  intros A time l y H. constructor; [exact H|]. intros z [].
Qed.

Lemma first_argmax_split_unique : forall (A : Type) (time : A -> double) b1 b2 x y a1 a2,
  b1 ++ x :: a1 = b2 ++ y :: a2 ->
  (forall z, In z b1 -> time z < time x) -> (forall z, In z a1 -> time z <= time x) ->
  (forall z, In z b2 -> time z < time y) -> (forall z, In z a2 -> time z <= time y) ->
  x = y.
Proof.
  intros A time b1. induction b1 as [|u b1 IH]; intros b2 x y a1 a2 El Hb1 Ha1 Hb2 Ha2.
  - destruct b2 as [|v b2]; simpl in El; inversion El; subst.
    + reflexivity.
    + exfalso.
      assert (time v < time y) by (apply Hb2; left; reflexivity).
      assert (time y <= time v) by (apply Ha1; apply in_or_app; right; left; reflexivity).
      lra.
  - destruct b2 as [|v b2]; simpl in El; inversion El; subst.
    + exfalso.
      assert (time y < time x) by (apply Hb1; left; reflexivity).
      assert (time x <= time y) by (apply Ha2; apply in_or_app; right; left; reflexivity).
      lra.
    + apply (IH b2 x y a1 a2 H1).
      * intros z Hz. apply Hb1. right. exact Hz.
      * exact Ha1.
      * intros z Hz. apply Hb2. right. exact Hz.
      * exact Ha2.
Qed.

(** Ties going to the first, the greatest element is unique. *)
Lemma first_argmax_unique : forall (A : Type) (time : A -> double) l x y,
  first_argmax time l x -> first_argmax time l y -> x = y.
Proof.
  intros A time l x y Hx Hy.
  destruct Hx as [b1 x a1 Hb1 Ha1].
  inversion Hy as [b2 y' a2 Hb2 Ha2 El]. subst y'.
  symmetry in El.
  exact (first_argmax_split_unique time b1 b2 x y a1 a2 El Hb1 Ha1 Hb2 Ha2).
Qed.

(** ** findcontour_time_10000.cpp: one frame *)

Ltac run_monad :=
  unfold bind, ret, emit, now, try, throw, imread, uninitialized; simpl.

Section FindContourFrame.
Context {cv : OpenCV}.
Import FindContour.

(** [process_single_image] in closed form: what it leaves in the references
    and in the world, by the outcome of the OpenCV calls. *)
Lemma FindContour_process_single_image_eval : forall disk image_path blurred_bg r w,
  process_single_image disk image_path blurred_bg r w =
  match white_pixel_count (file_image disk image_path) blurred_bg,
        extracted_contours (file_image disk image_path) blurred_bg with
  | Some n, Some cs =>
      if (n <? 250)%Z || (n >? 650)%Z then
        Some (mk_refs (contours r) (metrics r) 0 (findcontour_duration r),
              mk_world (clock w) (S (ticks w)) (indeterminate w)
                       (Imread image_path :: events w))
      else
        Some (mk_refs cs
                (match cs with [] => metrics r | _ :: _ => calculate_contour_metrics cs end)
                (clock w (3 + ticks w) - clock w (ticks w))
                (clock w (2 + ticks w) - clock w (1 + ticks w)),
              mk_world (clock w) (4 + ticks w) (indeterminate w)
                       (match cs with
                        | [] => FindContours :: Imread image_path :: events w
                        | _ :: _ => CalculateMetrics :: FindContours
                                    :: Imread image_path :: events w
                        end))
  | _, _ => None
  end.
Proof.
  intros disk image_path blurred_bg r w.
  unfold process_single_image, white_pixel_count, extracted_contours.
  run_monad.
  destruct (GaussianBlur (file_image disk image_path)) as [blurred|]; [|reflexivity].
  simpl.
  destruct (subtract blurred_bg blurred) as [bg_sub|]; [|reflexivity].
  simpl.
  destruct ((countNonZero (threshold bg_sub 10 255) <? 250)%Z
            || (countNonZero (threshold bg_sub 10 255) >? 650)%Z); [reflexivity|].
  simpl.
  destruct (findContours (dilate (erode (dilate (threshold bg_sub 10 255) 2) 3) 1));
    reflexivity.
Qed.

(** An image [GaussianBlur] is given empty makes [process_single_image]
    throw: nothing in the function tests for it. *)
Lemma FindContour_process_single_image_unreadable : forall disk image_path blurred_bg r w,
  Mat_empty (file_image disk image_path) = true ->
  process_single_image disk image_path blurred_bg r w = None.
Proof.
  intros disk image_path blurred_bg r w H.
  rewrite FindContour_process_single_image_eval.
  unfold white_pixel_count. rewrite (GaussianBlur_empty _ H). reflexivity.
Qed.

End FindContourFrame.

(** ** Claims about one frame *)

(** C6.  A frame whose detection-pixel count is below 250 or above 650 comes
    back from [process_single_image] with [duration = 0] (the program's mark
    for out of range), after the one clock reading and no call of
    [findContours] or [calculate_contour_metrics]: the only event is the
    [imread], and contours and metrics are as the caller initialised them.
    The worker then appends the frame's path to [skipped_images] and leaves
    [results], [number] and every other statistic as they were. *)
Theorem C6_out_of_window_frame_is_skipped :
  forall (cv : OpenCV) (disk : Disk) (blurred_bg : Mat) (path : fs.path)
         (e : FindContour.Experiment) (w : World) (n : Z),
    white_pixel_count (file_image disk (fs.to_string path)) blurred_bg = Some n ->
    (n < 250 \/ 650 < n)%Z ->
    exists w',
      FindContour.process_popped disk blurred_bg path w =
        Some (FindContour.mk_refs [] ContourMetrics_default 0 (indeterminate w), w') /\
      events w' = Imread (fs.to_string path) :: events w /\
      ticks w' = S (ticks w) /\
      FindContour.worker_body disk blurred_bg e path w =
        Some (FindContour.mk_experiment
                (FindContour.total_time e) (FindContour.total_findcontour_time e)
                (FindContour.number e) (FindContour.max_process_time e)
                (FindContour.results e)
                (FindContour.skipped_images e ++ [fs.to_string path])
                (FindContour.max_time_image e), w').
Proof.
  intros cv disk blurred_bg path e w n Hn Hout.
  assert (Hwin : (n <? 250)%Z || (n >? 650)%Z = true).
  { apply orb_true_iff. destruct Hout as [H|H].
    - left. apply Z.ltb_lt. exact H.
    - right. apply Z.gtb_lt. exact H. }
  assert (Hcs : exists cs, extracted_contours (file_image disk (fs.to_string path)) blurred_bg
                           = Some cs).
  { unfold white_pixel_count in Hn. unfold extracted_contours.
    destruct (GaussianBlur (file_image disk (fs.to_string path))); [|discriminate].
    destruct (subtract blurred_bg m); [|discriminate]. eexists. reflexivity. }
  destruct Hcs as [cs Hcs].
  eexists. split; [|split; [|split]].
  - unfold FindContour.process_popped. unfold bind at 1 2. unfold uninitialized.
    rewrite FindContour_process_single_image_eval, Hn, Hcs, Hwin. reflexivity.
  - reflexivity.
  - reflexivity.
  - unfold FindContour.worker_body, FindContour.process_popped.
    unfold bind at 1 2 3. unfold uninitialized.
    rewrite FindContour_process_single_image_eval, Hn, Hcs, Hwin. reflexivity.
Qed.

Lemma C6_out_of_window_frame_is_skipped_witness :
  exists w',
    FindContour.worker_body (Fake.sample "dir") Fake.background FindContourLocked.fresh
      (Fake.frame "dir" "b.tiff") (Fake.world 10) =
    Some (FindContour.mk_experiment 0 0 0 0 [] ["dir/b.tiff"%string] (EmptyString, 0), w').
Proof.
  destruct (@C6_out_of_window_frame_is_skipped Fake.cv (Fake.sample "dir") Fake.background
              (Fake.frame "dir" "b.tiff") FindContourLocked.fresh (Fake.world 10) 12%Z)
    as (w' & _ & _ & _ & H).
  - reflexivity.
  - left. lia.
  - exists w'. exact H.
Defined.

(** ** time_skip.cpp: one frame *)

Section TimeSkipFrame.
Context {cv : OpenCV}.
Import TimeSkip.

(** [process_single_image] in closed form, by the clock readings. *)
Lemma TimeSkip_process_single_image_eval : forall disk image_path blurred_bg r w,
  process_single_image disk image_path blurred_bg r w =
  match extracted_contours (file_image disk image_path) blurred_bg with
  | Some cs =>
      let duration1 := clock w (1 + ticks w) - clock w (ticks w) in
      let duration2 := clock w (2 + ticks w) - clock w (ticks w) in
      if Qgtb duration1 200 then
        Some ((mk_refs (contours r) (metrics r) duration1, false),
              mk_world (clock w) (2 + ticks w) (indeterminate w)
                       (Imread image_path :: events w))
      else if Qgtb duration2 200 then
        Some ((mk_refs cs (metrics r) duration2, false),
              mk_world (clock w) (3 + ticks w) (indeterminate w)
                       (FindContours :: Imread image_path :: events w))
      else
        Some ((mk_refs cs
                 (match cs with [] => metrics r | _ :: _ => calculate_contour_metrics cs end)
                 duration2, true),
              mk_world (clock w) (3 + ticks w) (indeterminate w)
                       (match cs with
                        | [] => FindContours :: Imread image_path :: events w
                        | _ :: _ => CalculateMetrics :: FindContours
                                    :: Imread image_path :: events w
                        end))
  | None => None
  end.
Proof.
  intros disk image_path blurred_bg r w.
  unfold process_single_image, extracted_contours.
  run_monad.
  destruct (GaussianBlur (file_image disk image_path)) as [blurred|]; [|reflexivity].
  simpl.
  destruct (subtract blurred_bg blurred) as [bg_sub|]; [|reflexivity].
  simpl.
  destruct (Qgtb (clock w (S (ticks w)) - clock w (ticks w)) 200); [reflexivity|].
  simpl.
  destruct (Qgtb (clock w (S (S (ticks w))) - clock w (ticks w)) 200); [reflexivity|].
  destruct (findContours (dilate (erode (dilate (threshold bg_sub 10 255) 2) 3) 1));
    reflexivity.
Qed.

Lemma TimeSkip_worker_body_eval : forall disk blurred_bg e path w,
  worker_body disk blurred_bg e path w =
  match process_single_image disk (fs.to_string path) blurred_bg
          (mk_refs [] ContourMetrics_default (indeterminate w)) w with
  | Some (rp, w') => Some (aggregate e path rp, w')
  | None => None
  end.
Proof.
  intros. unfold worker_body, process_popped. unfold bind at 1 2. unfold uninitialized.
  destruct (process_single_image disk (fs.to_string path) blurred_bg
              (mk_refs [] ContourMetrics_default (indeterminate w)) w) as [[rp w']|];
    reflexivity.
Qed.

End TimeSkipFrame.

Section FindContourWorker.
Context {cv : OpenCV}.
Import FindContour.

Lemma FindContour_worker_body_eval : forall disk blurred_bg e path w,
  worker_body disk blurred_bg e path w =
  match process_single_image disk (fs.to_string path) blurred_bg
          (mk_refs [] ContourMetrics_default (indeterminate w) (indeterminate w)) w with
  | Some (r, w') => Some (aggregate e path r, w')
  | None => None
  end.
Proof.
  intros. unfold worker_body, process_popped. unfold bind at 1 2 3. unfold uninitialized.
  destruct (process_single_image disk (fs.to_string path) blurred_bg
              (mk_refs [] ContourMetrics_default (indeterminate w) (indeterminate w)) w)
    as [[r w']|]; reflexivity.
Qed.

End FindContourWorker.

(** C7.  In time_skip.cpp, with [d1] the time elapsed at the check before
    [findContours] and [d2] the time elapsed at the check after it:
    if [d1 > 200] the frame is abandoned before [findContours] is called and
    goes to [skipped_images] with [d1]; if [d1 <= 200] but [d2 > 200] it is
    abandoned after [findContours], before any metric is computed, and goes
    to [skipped_images] with [d2]; if both are within 200 it is a success:
    a row with time [d2] is appended to [results], [number] grows by one,
    and nothing is added to [skipped_images]. *)
Theorem C7_time_budget_classification :
  forall (cv : OpenCV) (disk : Disk) (blurred_bg : Mat) (path : fs.path)
         (e : TimeSkip.Experiment) (w : World) (cs : list Contour),
    extracted_contours (file_image disk (fs.to_string path)) blurred_bg = Some cs ->
    let d1 := clock w (1 + ticks w) - clock w (ticks w) in
    let d2 := clock w (2 + ticks w) - clock w (ticks w) in
    (200 < d1 ->
     exists w',
       TimeSkip.worker_body disk blurred_bg e path w =
         Some (TimeSkip.mk_experiment (TimeSkip.total_time e) (TimeSkip.number e)
                 (TimeSkip.max_process_time e) (TimeSkip.results e)
                 (TimeSkip.skipped_images e ++ [(fs.to_string path, d1)])
                 (TimeSkip.max_time_image e), w') /\
       events w' = Imread (fs.to_string path) :: events w) /\
    (d1 <= 200 -> 200 < d2 ->
     exists w',
       TimeSkip.worker_body disk blurred_bg e path w =
         Some (TimeSkip.mk_experiment (TimeSkip.total_time e) (TimeSkip.number e)
                 (TimeSkip.max_process_time e) (TimeSkip.results e)
                 (TimeSkip.skipped_images e ++ [(fs.to_string path, d2)])
                 (TimeSkip.max_time_image e), w') /\
       events w' = FindContours :: Imread (fs.to_string path) :: events w) /\
    (d1 <= 200 -> d2 <= 200 ->
     let m := match cs with
              | [] => ContourMetrics_default
              | _ :: _ => calculate_contour_metrics cs
              end in
     exists e' w',
       TimeSkip.worker_body disk blurred_bg e path w = Some (e', w') /\
       TimeSkip.results e' =
         TimeSkip.results e
         ++ [(fs.to_string path, circularity_ratio m, area_ratio m, d2)] /\
       TimeSkip.number e' = (TimeSkip.number e + 1)%Z /\
       TimeSkip.total_time e' = TimeSkip.total_time e + d2 /\
       TimeSkip.skipped_images e' = TimeSkip.skipped_images e).
Proof.
  intros cv disk blurred_bg path e w cs Hcs d1 d2.
  split; [|split].
  - intro H1. apply Qgtb_gt in H1.
    rewrite TimeSkip_worker_body_eval, TimeSkip_process_single_image_eval, Hcs.
    cbv zeta. fold d1. rewrite H1.
    eexists. split; reflexivity.
  - intros H1 H2. apply Qgtb_le in H1. apply Qgtb_gt in H2.
    rewrite TimeSkip_worker_body_eval, TimeSkip_process_single_image_eval, Hcs.
    cbv zeta. fold d1 d2. rewrite H1, H2.
    eexists. split; reflexivity.
  - intros H1 H2. apply Qgtb_le in H1. apply Qgtb_le in H2.
    rewrite TimeSkip_worker_body_eval, TimeSkip_process_single_image_eval, Hcs.
    cbv zeta. fold d1 d2. rewrite H1, H2.
    unfold TimeSkip.aggregate. simpl.
    destruct (Qgtb d2 (TimeSkip.max_process_time e));
      do 2 eexists; (split; [reflexivity|]); simpl; repeat split;
      destruct cs; reflexivity.
Qed.

Ltac decide_order := vm_compute; first [reflexivity | discriminate].

Lemma C7_time_budget_classification_witness :
  (exists e' w',
     TimeSkip.worker_body (Fake.sample "dir") Fake.background
       (TimeSkip.mk_experiment 0 0 0 [] [] (EmptyString, 0))
       (Fake.frame "dir" "a.tiff") (Fake.world 250) = Some (e', w') /\
     TimeSkip.results e' = [] /\ List.length (TimeSkip.skipped_images e') = 1%nat) /\
  (exists e' w',
     TimeSkip.worker_body (Fake.sample "dir") Fake.background
       (TimeSkip.mk_experiment 0 0 0 [] [] (EmptyString, 0))
       (Fake.frame "dir" "a.tiff") (Fake.world 150) = Some (e', w') /\
     TimeSkip.results e' = [] /\ List.length (TimeSkip.skipped_images e') = 1%nat) /\
  (exists e' w',
     TimeSkip.worker_body (Fake.sample "dir") Fake.background
       (TimeSkip.mk_experiment 0 0 0 [] [] (EmptyString, 0))
       (Fake.frame "dir" "a.tiff") (Fake.world 10) = Some (e', w') /\
     List.length (TimeSkip.results e') = 1%nat /\ TimeSkip.skipped_images e' = []).
Proof.
  pose (e0 := TimeSkip.mk_experiment 0 0 0 [] [] (EmptyString, 0)).
  split; [|split].
  - destruct (@C7_time_budget_classification Fake.cv (Fake.sample "dir") Fake.background
                (Fake.frame "dir" "a.tiff") e0 (Fake.world 250) [Fake.square 10] eq_refl)
      as (H & _ & _).
    destruct H as (w' & H & _); [decide_order|].
    eexists; exists w'. split; [exact H|]. split; reflexivity.
  - destruct (@C7_time_budget_classification Fake.cv (Fake.sample "dir") Fake.background
                (Fake.frame "dir" "a.tiff") e0 (Fake.world 150) [Fake.square 10] eq_refl)
      as (_ & H & _).
    destruct H as (w' & H & _); [decide_order | decide_order |].
    eexists; exists w'. split; [exact H|]. split; reflexivity.
  - destruct (@C7_time_budget_classification Fake.cv (Fake.sample "dir") Fake.background
                (Fake.frame "dir" "a.tiff") e0 (Fake.world 10) [Fake.square 10] eq_refl)
      as (_ & _ & H).
    destruct H as (e' & w' & H & Hr & _ & _ & Hs); [decide_order | decide_order |].
    exists e', w'. split; [exact H|]. split; [rewrite Hr; reflexivity | exact Hs].
Defined.

(** ** The contour metrics *)

Section MetricsFacts.
Context {cv : OpenCV}.

Lemma max_element_from : forall (rest done : list Contour) (x : Contour),
  first_argmax contourArea done x ->
  first_argmax contourArea (done ++ rest)
    (fold_left (fun largest c => if area_less largest c then c else largest) rest x).
Proof.
  induction rest as [|c rest IH]; intros done x Hx; simpl.
  - rewrite app_nil_r. exact Hx.
  - replace (done ++ c :: rest) with ((done ++ [c]) ++ rest)
      by (rewrite <- app_assoc; reflexivity).
    apply IH. unfold area_less. destruct (Qltb (contourArea x) (contourArea c)) eqn:E.
    + apply Qltb_lt in E. apply first_argmax_snoc_new.
      intros z Hz. pose proof (first_argmax_le Hx z Hz). lra.
    + apply Qltb_ge in E. apply first_argmax_snoc_keep; assumption.
Qed.

(** [max_element] with the area comparison picks the contour of greatest
    area, the first of them when several share it. *)
Lemma max_element_first_argmax : forall (first : Contour) (rest : list Contour),
  first_argmax contourArea (first :: rest) (max_element area_less first rest).
Proof.
  intros first rest. unfold max_element.
  apply (@max_element_from rest [first] first).
  apply (@first_argmax_at _ contourArea [] first []); intros y [].
Qed.

Lemma metrics_of_degenerate : forall cnt,
  degenerate cnt -> metrics_of_contour cnt = ContourMetrics_default.
Proof.
  intros cnt H. unfold metrics_of_contour.
  destruct (Qle_bool (contourArea cnt) 1e-6) eqn:E1; [reflexivity|].
  destruct (Qle_bool (arcLength cnt) 1e-6) eqn:E2; [reflexivity|].
  destruct (Qle_bool (contourArea (convexHull cnt)) 1e-6) eqn:E3; [reflexivity|].
  destruct (Qle_bool (arcLength (convexHull cnt)) 1e-6) eqn:E4; [reflexivity|].
  exfalso. destruct H as [H|[H|[H|H]]]; apply Qle_bool_iff in H; congruence.
Qed.

Lemma metrics_of_regular : forall cnt,
  ~ degenerate cnt ->
  metrics_of_contour cnt =
  mk_metrics (contourArea cnt) (contourArea (convexHull cnt))
    (contourArea (convexHull cnt) / contourArea cnt)
    (4 * M_PI * contourArea cnt / (arcLength cnt * arcLength cnt))
    (4 * M_PI * contourArea (convexHull cnt)
     / (arcLength (convexHull cnt) * arcLength (convexHull cnt)))
    (4 * M_PI * contourArea (convexHull cnt)
     / (arcLength (convexHull cnt) * arcLength (convexHull cnt))
     / (4 * M_PI * contourArea cnt / (arcLength cnt * arcLength cnt))).
Proof.
  intros cnt H. unfold metrics_of_contour, degenerate in *.
  destruct (Qle_bool (contourArea cnt) 1e-6) eqn:E1;
    [apply Qle_bool_iff in E1; tauto|].
  destruct (Qle_bool (arcLength cnt) 1e-6) eqn:E2;
    [apply Qle_bool_iff in E2; tauto|].
  destruct (Qle_bool (contourArea (convexHull cnt)) 1e-6) eqn:E3;
    [apply Qle_bool_iff in E3; tauto|].
  destruct (Qle_bool (arcLength (convexHull cnt)) 1e-6) eqn:E4;
    [apply Qle_bool_iff in E4; tauto|].
  reflexivity.
Qed.

End MetricsFacts.

(** C9.  A frame inside the pixel window from which [findContours] extracts
    nothing keeps the metrics its caller initialised, all zero (and
    [calculate_contour_metrics] on no contours returns the same).  In
    findcontour_time_10000.cpp it passes the worker's validity test when its
    measured time is positive, in time_skip.cpp when it is within the budget
    at both checks; it is then a success: a row with both ratios zero is
    appended to [results], [number] grows by one, and [skipped_images] is
    unchanged. *)
Theorem C9_no_contour_is_a_zero_metrics_success :
  forall (cv : OpenCV) (disk : Disk) (blurred_bg : Mat) (path : fs.path) (w : World) (n : Z),
    white_pixel_count (file_image disk (fs.to_string path)) blurred_bg = Some n ->
    (250 <= n <= 650)%Z ->
    extracted_contours (file_image disk (fs.to_string path)) blurred_bg = Some [] ->
    calculate_contour_metrics [] = ContourMetrics_default /\
    (forall e : FindContour.Experiment,
       let d := clock w (3 + ticks w) - clock w (ticks w) in
       let fc := clock w (2 + ticks w) - clock w (1 + ticks w) in
       0 < d ->
       exists e' w',
         FindContour.process_popped disk blurred_bg path w =
           Some (FindContour.mk_refs [] ContourMetrics_default d fc, w') /\
         FindContour.worker_body disk blurred_bg e path w = Some (e', w') /\
         FindContour.results e' =
           FindContour.results e ++ [(fs.to_string path, 0, 0, d, fc)] /\
         FindContour.number e' = (FindContour.number e + 1)%Z /\
         FindContour.skipped_images e' = FindContour.skipped_images e) /\
    (forall e : TimeSkip.Experiment,
       let d1 := clock w (1 + ticks w) - clock w (ticks w) in
       let d2 := clock w (2 + ticks w) - clock w (ticks w) in
       d1 <= 200 -> d2 <= 200 ->
       exists e' w',
         TimeSkip.process_popped disk blurred_bg path w =
           Some (TimeSkip.mk_refs [] ContourMetrics_default d2, true, w') /\
         TimeSkip.worker_body disk blurred_bg e path w = Some (e', w') /\
         TimeSkip.results e' = TimeSkip.results e ++ [(fs.to_string path, 0, 0, d2)] /\
         TimeSkip.number e' = (TimeSkip.number e + 1)%Z /\
         TimeSkip.skipped_images e' = TimeSkip.skipped_images e).
Proof.
  intros cv disk blurred_bg path w n Hn Hwin Hcs.
  assert (Hin : (n <? 250)%Z || (n >? 650)%Z = false).
  { apply orb_false_iff. split; [apply Z.ltb_ge | rewrite Z.gtb_ltb; apply Z.ltb_ge]; lia. }
  split; [reflexivity|]. split.
  - intros e d fc Hd. apply Qgtb_gt in Hd.
    assert (Hp : FindContour.process_single_image disk (fs.to_string path) blurred_bg
                   (FindContour.mk_refs [] ContourMetrics_default
                      (indeterminate w) (indeterminate w)) w =
                 Some (FindContour.mk_refs [] ContourMetrics_default d fc,
                       mk_world (clock w) (4 + ticks w) (indeterminate w)
                         (FindContours :: Imread (fs.to_string path) :: events w))).
    { rewrite FindContour_process_single_image_eval, Hn, Hcs, Hin. reflexivity. }
    do 2 eexists. split; [|split].
    + unfold FindContour.process_popped. unfold bind at 1 2. unfold uninitialized.
      exact Hp.
    + rewrite FindContour_worker_body_eval, Hp. reflexivity.
    + unfold FindContour.aggregate. simpl. fold d. rewrite Hd.
      destruct (Qgtb d (FindContour.max_process_time e)); simpl; repeat split; reflexivity.
  - intros e d1 d2 H1 H2. apply Qgtb_le in H1. apply Qgtb_le in H2.
    assert (Hp : TimeSkip.process_single_image disk (fs.to_string path) blurred_bg
                   (TimeSkip.mk_refs [] ContourMetrics_default (indeterminate w)) w =
                 Some (TimeSkip.mk_refs [] ContourMetrics_default d2, true,
                       mk_world (clock w) (3 + ticks w) (indeterminate w)
                         (FindContours :: Imread (fs.to_string path) :: events w))).
    { rewrite TimeSkip_process_single_image_eval, Hcs. cbv zeta. fold d1 d2.
      rewrite H1, H2. reflexivity. }
    do 2 eexists. split; [|split].
    + unfold TimeSkip.process_popped. unfold bind at 1. unfold uninitialized.
      exact Hp.
    + rewrite TimeSkip_worker_body_eval, Hp. reflexivity.
    + unfold TimeSkip.aggregate. simpl.
      destruct (Qgtb d2 (TimeSkip.max_process_time e)); simpl; repeat split; reflexivity.
Qed.

Lemma C9_no_contour_is_a_zero_metrics_success_witness :
  (exists e' w',
     FindContour.worker_body (Fake.sample "dir") Fake.background FindContourLocked.fresh
       (Fake.frame "dir" "c.tiff") (Fake.world 10) = Some (e', w') /\
     FindContour.results e' = [("dir/c.tiff"%string, 0, 0, 3 * 10 - 0 * 10, 2 * 10 - 1 * 10)] /\
     FindContour.number e' = 1%Z /\ FindContour.skipped_images e' = []) /\
  (exists e' w',
     TimeSkip.worker_body (Fake.sample "dir") Fake.background
       (TimeSkip.mk_experiment 0 0 0 [] [] (EmptyString, 0))
       (Fake.frame "dir" "c.tiff") (Fake.world 10) = Some (e', w') /\
     TimeSkip.results e' = [("dir/c.tiff"%string, 0, 0, 2 * 10 - 0 * 10)] /\
     TimeSkip.number e' = 1%Z /\ TimeSkip.skipped_images e' = []).
Proof.
  destruct (@C9_no_contour_is_a_zero_metrics_success Fake.cv (Fake.sample "dir")
              Fake.background (Fake.frame "dir" "c.tiff") (Fake.world 10) 300%Z)
    as (_ & Hfc & Hts).
  - reflexivity.
  - lia.
  - reflexivity.
  - split.
    + destruct (Hfc FindContourLocked.fresh) as (e' & w' & _ & H & Hr & Hn & Hs).
      * decide_order.
      * exists e', w'. split; [exact H|]. split; [exact Hr|]. split; [exact Hn | exact Hs].
    + destruct (Hts (TimeSkip.mk_experiment 0 0 0 [] [] (EmptyString, 0)))
        as (e' & w' & _ & H & Hr & Hn & Hs).
      * decide_order.
      * decide_order.
      * exists e', w'. split; [exact H|]. split; [exact Hr|]. split; [exact Hn | exact Hs].
Defined.

(** C10.  On a non-empty list of contours, [calculate_contour_metrics]
    computes everything from one contour [cnt]: the one of greatest area,
    the first of them on ties.  Any other list with the same greatest
    contour gives the same metrics.  When neither [cnt] nor its hull is
    degenerate (area or perimeter at most 1e-6), the fields are the areas and
    circularities of [cnt] and of its hull, and the two ratios are hull over
    original.  When one is degenerate, every field is zero, and a frame that
    passes the window and the worker's test on its time is still a success
    (findcontour_time_10000.cpp: positive time; time_skip.cpp: within budget
    at both checks): its row, with both ratios zero, is appended to
    [results] and [number] grows by one. *)
Theorem C10_metrics_of_the_largest_contour :
  forall (cv : OpenCV) (first : Contour) (rest : list Contour),
    let contours := first :: rest in
    let m := calculate_contour_metrics contours in
    exists cnt,
      first_argmax contourArea contours cnt /\
      (forall others, first_argmax contourArea others cnt ->
                      calculate_contour_metrics others = m) /\
      (~ degenerate cnt ->
       area_original m = contourArea cnt /\
       area_hull m = contourArea (convexHull cnt) /\
       area_ratio m = area_hull m / area_original m /\
       circularity_original m =
         4 * M_PI * contourArea cnt / (arcLength cnt * arcLength cnt) /\
       circularity_hull m =
         4 * M_PI * contourArea (convexHull cnt)
         / (arcLength (convexHull cnt) * arcLength (convexHull cnt)) /\
       circularity_ratio m = circularity_hull m / circularity_original m) /\
      (degenerate cnt -> m = ContourMetrics_default) /\
      (degenerate cnt ->
       forall (disk : Disk) (blurred_bg : Mat) (path : fs.path) (w : World) (n : Z)
              (e : FindContour.Experiment),
         white_pixel_count (file_image disk (fs.to_string path)) blurred_bg = Some n ->
         (250 <= n <= 650)%Z ->
         extracted_contours (file_image disk (fs.to_string path)) blurred_bg
           = Some contours ->
         let d := clock w (3 + ticks w) - clock w (ticks w) in
         let fc := clock w (2 + ticks w) - clock w (1 + ticks w) in
         0 < d ->
         exists e' w',
           FindContour.worker_body disk blurred_bg e path w = Some (e', w') /\
           FindContour.results e' =
             FindContour.results e ++ [(fs.to_string path, 0, 0, d, fc)] /\
           FindContour.number e' = (FindContour.number e + 1)%Z /\
           FindContour.skipped_images e' = FindContour.skipped_images e) /\
      (degenerate cnt ->
       forall (disk : Disk) (blurred_bg : Mat) (path : fs.path) (w : World)
              (e : TimeSkip.Experiment),
         extracted_contours (file_image disk (fs.to_string path)) blurred_bg
           = Some contours ->
         let d1 := clock w (1 + ticks w) - clock w (ticks w) in
         let d2 := clock w (2 + ticks w) - clock w (ticks w) in
         d1 <= 200 -> d2 <= 200 ->
         exists e' w',
           TimeSkip.worker_body disk blurred_bg e path w = Some (e', w') /\
           TimeSkip.results e' = TimeSkip.results e ++ [(fs.to_string path, 0, 0, d2)] /\
           TimeSkip.number e' = (TimeSkip.number e + 1)%Z /\
           TimeSkip.skipped_images e' = TimeSkip.skipped_images e).
Proof.
  intros cv first rest contours m.
  exists (max_element area_less first rest).
  pose proof (max_element_first_argmax first rest) as Hmax.
  set (cnt := max_element area_less first rest) in *.
  assert (Hm : m = metrics_of_contour cnt) by reflexivity.
  split; [exact Hmax|]. split; [|split; [|split; [|split]]].
  - intros others Ho. destruct others as [|f r].
    + inversion Ho as [b x a _ _ E]. destruct b; discriminate E.
    + simpl. rewrite (first_argmax_unique (max_element_first_argmax f r) Ho).
      symmetry. exact Hm.
  - intro Hreg. rewrite Hm, (metrics_of_regular Hreg). simpl.
    repeat split; reflexivity.
  - intro Hdeg. rewrite Hm. apply metrics_of_degenerate. exact Hdeg.
  - intros Hdeg disk blurred_bg path w n e Hn Hwin Hcs d fc Hd.
    apply Qgtb_gt in Hd.
    assert (Hin : (n <? 250)%Z || (n >? 650)%Z = false).
    { apply orb_false_iff.
      split; [apply Z.ltb_ge | rewrite Z.gtb_ltb; apply Z.ltb_ge]; lia. }
    rewrite FindContour_worker_body_eval, FindContour_process_single_image_eval,
      Hn, Hcs, Hin.
    unfold contours at 1 2. cbv iota. fold contours. fold m.
    rewrite Hm, (metrics_of_degenerate Hdeg).
    do 2 eexists. split; [reflexivity|].
    unfold d in Hd. unfold FindContour.aggregate, FindContour.duration. rewrite Hd.
    destruct (Qgtb _ (FindContour.max_process_time e)); simpl; repeat split; reflexivity.
  - intros Hdeg disk blurred_bg path w e Hcs d1 d2 H1 H2.
    apply Qgtb_le in H1. apply Qgtb_le in H2.
    rewrite TimeSkip_worker_body_eval, TimeSkip_process_single_image_eval, Hcs.
    cbv zeta. fold d1 d2. rewrite H1, H2.
    unfold contours at 1 2. cbv iota. fold contours. fold m.
    rewrite Hm, (metrics_of_degenerate Hdeg).
    do 2 eexists. split; [reflexivity|].
    unfold TimeSkip.aggregate. simpl.
    destruct (Qgtb d2 (TimeSkip.max_process_time e)); simpl; repeat split; reflexivity.
Qed.

Lemma C10_metrics_of_the_largest_contour_witness :
  @calculate_contour_metrics Fake.cv [[(0, 0); (7, 0)]%Z] = ContourMetrics_default /\
  exists e' w',
    FindContour.worker_body (Fake.sample "dir") Fake.background FindContourLocked.fresh
      (Fake.frame "dir" "d.tiff") (Fake.world 10) = Some (e', w') /\
    FindContour.results e' = [("dir/d.tiff"%string, 0, 0, 3 * 10 - 0 * 10, 2 * 10 - 1 * 10)] /\
    FindContour.number e' = 1%Z.
Proof.
  destruct (@C10_metrics_of_the_largest_contour Fake.cv [(0, 0); (7, 0)]%Z [])
    as (cnt & Hmax & _ & _ & Hzero & Hfc & _).
  assert (Hcnt : cnt = [(0, 0); (7, 0)]%Z).
  { apply first_argmax_In in Hmax. destruct Hmax as [H|[]]. symmetry. exact H. }
  subst cnt.
  assert (Hdeg : @degenerate Fake.cv [(0, 0); (7, 0)]%Z) by (left; decide_order).
  split; [exact (Hzero Hdeg)|].
  destruct (Hfc Hdeg (Fake.sample "dir") Fake.background (Fake.frame "dir" "d.tiff")
              (Fake.world 10) 500%Z FindContourLocked.fresh)
    as (e' & w' & H & Hr & Hn & _).
  - reflexivity.
  - lia.
  - reflexivity.
  - decide_order.
  - exists e', w'. split; [exact H|]. split; [exact Hr | exact Hn].
Defined.

(** ** Whole runs *)

Lemma map_fst_combine_eq : forall (A B : Type) (l : list A) (rs : list B),
  List.length rs = List.length l -> map fst (combine l rs) = l.
Proof.
  intros A B l. induction l as [|x l IH]; intros rs H.
  - reflexivity.
  - destruct rs as [|r rs]; [discriminate|]. simpl. f_equal. apply IH.
    simpl in H. lia.
Qed.

Lemma foldM_run : forall (A B : Type) (f : A -> B -> M A) l a w,
  Pipeline.run (fun s x => f (fst s) x (snd s)) l (a, w) = foldM f l a w.
Proof.
  intros A B f l. induction l as [|x l IH]; intros a w; simpl.
  - reflexivity.
  - unfold bind. destruct (f a x w) as [[a' w']|]; [apply IH | reflexivity].
Qed.

Section FindContourRun.
Context {cv : OpenCV}.
Import FindContour.

Lemma FindContour_worker_loop : forall disk blurred_bg queue e w,
  foldM (worker_body disk blurred_bg) queue e w =
  match mapM (process_popped disk blurred_bg) queue w with
  | Some (rs, w') => Some (fold_left FindContourLocked.commit (combine queue rs) e, w')
  | None => None
  end.
Proof.
  intros. unfold worker_body.
  apply (foldM_measure_then_fold (process_popped disk blurred_bg) aggregate).
Qed.

(** Each frame handled adds one entry, to [results] or to [skipped_images]. *)
Lemma FindContour_commit_partition : forall jobs e,
  let e' := fold_left FindContourLocked.commit jobs e in
  Permutation (map row_path5 (results e') ++ skipped_images e')
    (map row_path5 (results e) ++ skipped_images e
     ++ map (fun j => fs.to_string (fst j)) jobs).
Proof.
  induction jobs as [|[path r] jobs IH]; intro e; simpl.
  - rewrite app_nil_r. apply Permutation_refl.
  - eapply Permutation_trans; [apply IH|].
    unfold FindContourLocked.commit, aggregate. simpl.
    destruct (Qgtb (duration r) 0).
    + destruct (Qgtb (duration r) (max_process_time e)); simpl;
        rewrite map_app, <- app_assoc; simpl;
        apply Permutation_app_head; apply Permutation_middle.
    + simpl. rewrite <- app_assoc. apply Permutation_refl.
Qed.


Lemma FindContour_inv_fresh : FindContour_inv FindContourLocked.fresh.
Proof.
  split; [reflexivity|]. split; [intros row []|]. left. repeat split.
Qed.

Lemma FindContour_inv_aggregate : forall e path r,
  FindContour_inv e -> FindContour_inv (aggregate e path r).
Proof.
  intros e path r (Hn & Hpos & Hmax). unfold aggregate.
  destruct (Qgtb (duration r) 0) eqn:E0; [|exact (conj Hn (conj Hpos Hmax))].
  apply Qgtb_gt in E0.
  set (row := (fs.to_string path, circularity_ratio (metrics r), area_ratio (metrics r),
               duration r, findcontour_duration r)).
  assert (Hn' : (number e + 1)%Z = Z.of_nat (List.length (results e ++ [row]))).
  { rewrite length_app. simpl. lia. }
  assert (Hpos' : forall x, In x (results e ++ [row]) -> 0 < row_time5 x).
  { intros x Hx. apply in_app_or in Hx. destruct Hx as [Hx|[Hx|[]]]; [auto|].
    subst x. exact E0. }
  destruct (Qgtb (duration r) (max_process_time e)) eqn:E1; simpl;
    (split; [exact Hn'|]); (split; [exact Hpos'|]); right.
  - apply Qgtb_gt in E1. exists row. split; [|split; reflexivity].
    apply first_argmax_snoc_new. intros z Hz.
    destruct Hmax as [(Hnil & _ & _)|(top & Htop & _ & Hmt)].
    + rewrite Hnil in Hz. destruct Hz.
    + pose proof (first_argmax_le Htop z Hz) as Hle. rewrite Hmt in E1.
      change (row_time5 row) with (duration r). lra.
  - apply Qgtb_le in E1.
    destruct Hmax as [(_ & Hzero & _)|(top & Htop & Him & Hmt)].
    + exfalso. rewrite Hzero in E1. lra.
    + exists top. split; [|split; assumption].
      apply first_argmax_snoc_keep; [exact Htop|].
      rewrite Hmt in E1. exact E1.
Qed.

(** Three frames: the first out of range, then successes of 50 and of 120
    microseconds. *)
Example FindContour_three_frames :
  let job name time :=
    (fs.mk_path "d" name, mk_refs [] ContourMetrics_default time 1) in
  let e := fold_left FindContourLocked.commit
             [job "A.tiff"%string 0; job "B.tiff"%string 50; job "C.tiff"%string 120]
             FindContourLocked.fresh in
  number e = 2%Z /\ skipped_images e = ["d/A.tiff"%string] /\
  max_time_image e = ("d/C.tiff"%string, 120) /\
  map row_path5 (results e) = ["d/B.tiff"; "d/C.tiff"]%string.
Proof. repeat split. Qed.

Lemma FindContour_inv_fold : forall jobs e,
  FindContour_inv e -> FindContour_inv (fold_left FindContourLocked.commit jobs e).
Proof.
  induction jobs as [|[path r] jobs IH]; intros e He; simpl.
  - exact He.
  - apply IH. apply FindContour_inv_aggregate. exact He.
Qed.

(** [run_experiment] in closed form. *)
Lemma FindContour_run_experiment_eval : forall disk dir results0 skipped0 max0 w,
  run_experiment disk dir results0 skipped0 max0 w =
  let background_path := (dir ++ "/background.tiff")%string in
  let e0 := mk_experiment 0 0 0 0 results0 skipped0 max0 in
  if Mat_empty (file_image disk background_path) then
    Some (e0, mk_world (clock w) (ticks w) (indeterminate w)
                (Cerr ("Error: Could not read background image: " ++ background_path)
                 :: Imread background_path :: events w))
  else
    match GaussianBlur (file_image disk background_path), dir_entries disk dir with
    | Some blurred_bg, Some entries =>
        match mapM (process_popped disk blurred_bg) (image_queue entries)
                (mk_world (clock w) (ticks w) (indeterminate w)
                   (Imread background_path :: events w)) with
        | Some (rs, w') =>
            Some (fold_left FindContourLocked.commit
                    (combine (image_queue entries) rs) e0, w')
        | None => None
        end
    | _, _ => None
    end.
Proof.
  intros. unfold run_experiment. cbv zeta.
  unfold bind at 1. unfold imread at 1. unfold bind at 1. unfold emit at 1, ret at 1.
  destruct (Mat_empty (file_image disk (dir ++ "/background.tiff"))).
  - reflexivity.
  - unfold bind at 1. unfold try at 1.
    destruct (GaussianBlur (file_image disk (dir ++ "/background.tiff")));
      [|reflexivity].
    unfold ret at 1. unfold bind at 1. unfold directory_iterator, try.
    destruct (dir_entries disk dir); [|reflexivity].
    unfold ret at 1. apply FindContour_worker_loop.
Qed.

End FindContourRun.

Section TimeSkipRun.
Context {cv : OpenCV}.
Import TimeSkip.

Lemma TimeSkip_worker_loop : forall disk blurred_bg queue e w,
  foldM (worker_body disk blurred_bg) queue e w =
  match mapM (process_popped disk blurred_bg) queue w with
  | Some (rs, w') => Some (fold_left commit (combine queue rs) e, w')
  | None => None
  end.
Proof.
  intros. unfold worker_body.
  apply (foldM_measure_then_fold (process_popped disk blurred_bg) aggregate).
Qed.

Lemma TimeSkip_commit_partition : forall jobs e,
  let e' := fold_left commit jobs e in
  Permutation (map row_path4 (results e') ++ map fst (skipped_images e'))
    (map row_path4 (results e) ++ map fst (skipped_images e)
     ++ map (fun j => fs.to_string (fst j)) jobs) /\
  (number e = Z.of_nat (List.length (results e)) ->
   number e' = Z.of_nat (List.length (results e'))).
Proof.
  induction jobs as [|[path [r processed]] jobs IH]; intro e; simpl.
  - rewrite app_nil_r. split; [apply Permutation_refl | auto].
  - destruct (IH (commit e (path, (r, processed)))) as [IHp IHn]. split.
    + eapply Permutation_trans; [apply IHp|].
      unfold commit, aggregate. simpl. destruct processed.
      * destruct (Qgtb (duration r) (max_process_time e)); simpl;
          rewrite map_app, <- app_assoc; simpl;
          apply Permutation_app_head; apply Permutation_middle.
      * simpl. rewrite map_app, <- app_assoc. apply Permutation_refl.
    + intro Hn. apply IHn. unfold commit, aggregate. simpl. destruct processed.
      * destruct (Qgtb (duration r) (max_process_time e)); simpl;
          rewrite length_app; simpl; lia.
      * exact Hn.
Qed.

Lemma TimeSkip_run_experiment_eval : forall disk dir results0 skipped0 max0 w,
  run_experiment disk dir results0 skipped0 max0 w =
  let background_path := (dir ++ "/background.tiff")%string in
  let e0 := mk_experiment 0 0 0 results0 skipped0 max0 in
  if Mat_empty (file_image disk background_path) then
    Some (e0, mk_world (clock w) (ticks w) (indeterminate w)
                (Cerr ("Error: Could not read background image: " ++ background_path)
                 :: Imread background_path :: events w))
  else
    match GaussianBlur (file_image disk background_path), dir_entries disk dir with
    | Some blurred_bg, Some entries =>
        match mapM (process_popped disk blurred_bg) (image_queue entries)
                (mk_world (clock w) (ticks w) (indeterminate w)
                   (Imread background_path :: events w)) with
        | Some (rs, w') =>
            Some (fold_left commit (combine (image_queue entries) rs) e0, w')
        | None => None
        end
    | _, _ => None
    end.
Proof.
  intros. unfold run_experiment. cbv zeta.
  unfold bind at 1. unfold imread at 1. unfold bind at 1. unfold emit at 1, ret at 1.
  destruct (Mat_empty (file_image disk (dir ++ "/background.tiff"))).
  - reflexivity.
  - unfold bind at 1. unfold try at 1.
    destruct (GaussianBlur (file_image disk (dir ++ "/background.tiff")));
      [|reflexivity].
    unfold ret at 1. unfold bind at 1. unfold directory_iterator, try.
    destruct (dir_entries disk dir); [|reflexivity].
    unfold ret at 1. apply TimeSkip_worker_loop.
Qed.

End TimeSkipRun.

Section MaxTimeRun.
Context {cv : OpenCV}.
Import MaxTime.

Lemma MaxTime_worker_loop : forall disk blurred_bg queue e w,
  foldM (worker_body disk blurred_bg) queue e w =
  match mapM (process_popped disk blurred_bg) queue w with
  | Some (rs, w') => Some (fold_left MaxTimeLocked.commit (combine queue rs) e, w')
  | None => None
  end.
Proof.
  intros. unfold worker_body.
  apply (foldM_measure_then_fold (process_popped disk blurred_bg) aggregate).
Qed.


Lemma MaxTime_inv_commit : forall done e j,
  MaxTime_inv done e -> MaxTime_inv (done ++ [j]) (MaxTimeLocked.commit e j).
Proof.
  intros done e [path r] (Hn & Hmax).
  unfold MaxTime_inv, MaxTimeLocked.successes, MaxTimeLocked.commit, aggregate in *.
  rewrite filter_app. simpl.
  change (MaxTimeLocked.guarded (path, r)) with (Qgtb (duration r) 0).
  destruct (Qgtb (duration r) 0) eqn:E0.
  - apply Qgtb_gt in E0.
    destruct (Qgtb (duration r) (max_process_time e)) eqn:E1; simpl.
    + apply Qgtb_gt in E1. split; [rewrite length_app; simpl; lia|].
      right. exists (path, r). split; [|split; reflexivity].
      apply first_argmax_snoc_new. intros z Hz.
      destruct Hmax as [(Hnil & _ & _)|(top & Htop & _ & Hmt)].
      * rewrite Hnil in Hz. destruct Hz.
      * pose proof (first_argmax_le Htop z Hz) as Hle. rewrite Hmt in E1.
        unfold MaxTimeLocked.job_time at 2. simpl. lra.
    + apply Qgtb_le in E1. split; [rewrite length_app; simpl; lia|].
      destruct Hmax as [(_ & Hzero & _)|(top & Htop & Him & Hmt)].
      * exfalso. rewrite Hzero in E1. lra.
      * right. exists top. split; [|split; assumption].
        apply first_argmax_snoc_keep; [exact Htop|].
        rewrite Hmt in E1. exact E1.
  - rewrite app_nil_r. split; assumption.
Qed.

Lemma MaxTime_inv_fold : forall jobs done e,
  MaxTime_inv done e ->
  MaxTime_inv (done ++ jobs) (fold_left MaxTimeLocked.commit jobs e).
Proof.
  induction jobs as [|j jobs IH]; intros done e He; simpl.
  - rewrite app_nil_r. exact He.
  - replace (done ++ j :: jobs) with ((done ++ [j]) ++ jobs)
      by (rewrite <- app_assoc; reflexivity).
    apply IH. apply MaxTime_inv_commit. exact He.
Qed.

Lemma MaxTime_inv_fresh : MaxTime_inv [] MaxTimeLocked.fresh.
Proof. split; [reflexivity|]. left. repeat split. Qed.

Lemma MaxTime_run_experiment_eval : forall disk dir blurred_bg image0 w,
  run_experiment disk dir blurred_bg image0 w =
  match dir_entries disk dir with
  | Some entries =>
      match mapM (process_popped disk blurred_bg) (image_queue entries) w with
      | Some (rs, w') =>
          Some (fold_left MaxTimeLocked.commit (combine (image_queue entries) rs)
                  (mk_experiment 0 0 0 image0), w')
      | None => None
      end
  | None => None
  end.
Proof.
  intros. unfold run_experiment. cbv zeta.
  unfold bind at 1. unfold directory_iterator, try.
  destruct (dir_entries disk dir); [|reflexivity].
  unfold ret at 1. apply MaxTime_worker_loop.
Qed.

End MaxTimeRun.

(** ** Claims about whole runs *)

Section LoopCounts.
Context {cv : OpenCV}.

Lemma FindContour_loop_counts : forall disk blurred_bg queue w e w',
  foldM (FindContour.worker_body disk blurred_bg) queue FindContourLocked.fresh w
    = Some (e, w') ->
  (List.length (FindContour.results e) + List.length (FindContour.skipped_images e)
   = List.length queue)%nat /\
  FindContour.number e = Z.of_nat (List.length (FindContour.results e)) /\
  Permutation (map row_path5 (FindContour.results e) ++ FindContour.skipped_images e)
    (map fs.to_string queue).
Proof.
  intros disk blurred_bg queue w e w' H.
  rewrite FindContour_worker_loop in H.
  destruct (mapM (FindContour.process_popped disk blurred_bg) queue w) as [[rs w1]|] eqn:Em;
    [|discriminate].
  inversion H; subst; clear H.
  pose proof (mapM_length _ _ _ Em) as Hlen.
  pose proof (FindContour_commit_partition (combine queue rs) FindContourLocked.fresh) as Hp.
  simpl in Hp.
  rewrite <- (map_map fst fs.to_string), (map_fst_combine_eq _ _ Hlen) in Hp.
  split; [|split].
  - apply Permutation_length in Hp. rewrite length_app, !length_map in Hp. exact Hp.
  - apply (FindContour_inv_fold (combine queue rs) FindContour_inv_fresh).
  - exact Hp.
Qed.

Lemma TimeSkip_loop_counts : forall disk blurred_bg queue w e w',
  foldM (TimeSkip.worker_body disk blurred_bg) queue
    (TimeSkip.mk_experiment 0 0 0 [] [] (EmptyString, 0)) w = Some (e, w') ->
  (List.length (TimeSkip.results e) + List.length (TimeSkip.skipped_images e)
   = List.length queue)%nat /\
  TimeSkip.number e = Z.of_nat (List.length (TimeSkip.results e)) /\
  Permutation (map row_path4 (TimeSkip.results e) ++ map fst (TimeSkip.skipped_images e))
    (map fs.to_string queue).
Proof.
  intros disk blurred_bg queue w e w' H.
  rewrite TimeSkip_worker_loop in H.
  destruct (mapM (TimeSkip.process_popped disk blurred_bg) queue w) as [[rs w1]|] eqn:Em;
    [|discriminate].
  inversion H; subst; clear H.
  pose proof (mapM_length _ _ _ Em) as Hlen.
  destruct (TimeSkip_commit_partition (combine queue rs)
              (TimeSkip.mk_experiment 0 0 0 [] [] (EmptyString, 0))) as [Hp Hn].
  simpl in Hp.
  rewrite <- (map_map fst fs.to_string), (map_fst_combine_eq _ _ Hlen) in Hp.
  split; [|split].
  - apply Permutation_length in Hp. rewrite length_app, !length_map in Hp. exact Hp.
  - apply Hn. reflexivity.
  - exact Hp.
Qed.

Lemma MaxTime_process_single_image_eval : forall disk image_path blurred_bg r w,
  MaxTime.process_single_image disk image_path blurred_bg r w =
  match extracted_contours (file_image disk image_path) blurred_bg with
  | Some cs =>
      Some (MaxTime.mk_refs cs
              (match cs with
               | [] => MaxTime.metrics r
               | _ :: _ => calculate_contour_metrics cs
               end)
              (clock w (1 + ticks w) - clock w (ticks w)),
            mk_world (clock w) (2 + ticks w) (indeterminate w)
              (match cs with
               | [] => FindContours :: Imread image_path :: events w
               | _ :: _ => CalculateMetrics :: FindContours
                           :: Imread image_path :: events w
               end))
  | None => None
  end.
Proof.
  intros disk image_path blurred_bg r w.
  unfold MaxTime.process_single_image, extracted_contours. run_monad.
  destruct (GaussianBlur (file_image disk image_path)) as [blurred|]; [|reflexivity].
  simpl.
  destruct (subtract blurred_bg blurred) as [bg_sub|]; [|reflexivity].
  simpl.
  destruct (findContours (dilate (erode (dilate (threshold bg_sub 10 255) 2) 3) 1));
    reflexivity.
Qed.

(** With a clock that advances between any two readings, every frame
    max_time.cpp measures has a positive time. *)
Lemma MaxTime_measured_positive : forall disk blurred_bg queue w rs w',
  (forall n, clock w n < clock w (S n)) ->
  mapM (MaxTime.process_popped disk blurred_bg) queue w = Some (rs, w') ->
  clock w' = clock w /\
  MaxTimeLocked.successes (combine queue rs) = combine queue rs.
Proof.
  intros disk blurred_bg queue. induction queue as [|path queue IH];
    intros w rs w' Hclock H; simpl in H.
  - inversion H; subst. split; reflexivity.
  - apply bind_Some in H. destruct H as (r & w1 & Hr & H).
    apply bind_Some in H. destruct H as (rs' & w2 & Hrs & H).
    inversion H; subst; clear H.
    unfold MaxTime.process_popped in Hr. unfold bind at 1 in Hr. unfold uninitialized in Hr.
    rewrite MaxTime_process_single_image_eval in Hr.
    destruct (extracted_contours (file_image disk (fs.to_string path)) blurred_bg)
      as [cs|]; [|discriminate].
    inversion Hr; subst; clear Hr.
    destruct (IH _ _ _ (Hclock : forall n, clock (mk_world (clock w) _ _ _) n
                                           < clock (mk_world (clock w) _ _ _) (S n)) Hrs)
      as [Hc Hs].
    split; [exact Hc|].
    simpl. unfold MaxTimeLocked.successes in *.
    simpl. unfold MaxTimeLocked.guarded at 1. simpl.
    assert (Hpos : Qgtb (clock w (S (ticks w)) - clock w (ticks w)) 0 = true).
    { apply Qgtb_gt. pose proof (Hclock (ticks w)). lra. }
    rewrite Hpos. f_equal. exact Hs.
Qed.

Lemma mapM_returns : forall (A B : Type) (f : A -> M B) (l : list A),
  (forall x, In x l -> forall w, exists y w', f x w = Some (y, w')) ->
  forall w, exists ys w', mapM f l w = Some (ys, w').
Proof.
  intros A B f l. induction l as [|x l IH]; intros H w; simpl.
  - exists [], w. reflexivity.
  - destruct (H x (or_introl eq_refl) w) as (y & w1 & Hy).
    destruct (IH (fun z Hz => H z (or_intror Hz)) w1) as (ys & w2 & Hys).
    exists (y :: ys), w2. unfold bind at 1. rewrite Hy. unfold bind at 1. rewrite Hys.
    reflexivity.
Qed.

Lemma white_pixel_count_extracted : forall image blurred_bg n,
  white_pixel_count image blurred_bg = Some n ->
  exists cs, extracted_contours image blurred_bg = Some cs.
Proof.
  intros image blurred_bg n H. unfold white_pixel_count in H. unfold extracted_contours.
  destruct (GaussianBlur image) as [blurred|]; [|discriminate].
  destruct (subtract blurred_bg blurred); [|discriminate].
  eexists. reflexivity.
Qed.

(** A run over frames that can all be read and have the background's size
    returns. *)
Lemma FindContour_run_experiment_returns : forall disk dir w blurred_bg entries,
  GaussianBlur (file_image disk (dir ++ "/background.tiff")%string) = Some blurred_bg ->
  dir_entries disk dir = Some entries ->
  (forall path, In path (filter is_frame entries) ->
     white_pixel_count (file_image disk (fs.to_string path)) blurred_bg <> None) ->
  exists e w', FindContour.run_experiment disk dir [] [] (EmptyString, 0) w = Some (e, w').
Proof.
  intros disk dir w blurred_bg entries Hblur Hdir Hall.
  rewrite FindContour_run_experiment_eval. cbv zeta.
  destruct (Mat_empty (file_image disk (dir ++ "/background.tiff"))).
  - do 2 eexists. reflexivity.
  - rewrite Hblur, Hdir.
    match goal with
    | |- context [mapM ?f ?l ?w0] =>
        destruct (@mapM_returns _ _ f l) with (w := w0) as (rs & w' & Hm)
    end.
    + intros path Hin w0. specialize (Hall path Hin).
      destruct (white_pixel_count (file_image disk (fs.to_string path)) blurred_bg)
        as [n|] eqn:En; [|contradiction Hall; reflexivity].
      destruct (white_pixel_count_extracted _ _ En) as [cs Hcs].
      unfold FindContour.process_popped. unfold bind at 1 2. unfold uninitialized.
      rewrite FindContour_process_single_image_eval, En, Hcs.
      destruct ((n <? 250)%Z || (n >? 650)%Z); do 2 eexists; reflexivity.
    + rewrite Hm. do 2 eexists. reflexivity.
Qed.

Lemma TimeSkip_run_experiment_returns : forall disk dir w blurred_bg entries,
  GaussianBlur (file_image disk (dir ++ "/background.tiff")%string) = Some blurred_bg ->
  dir_entries disk dir = Some entries ->
  (forall path, In path (filter is_frame entries) ->
     white_pixel_count (file_image disk (fs.to_string path)) blurred_bg <> None) ->
  exists e w', TimeSkip.run_experiment disk dir [] [] (EmptyString, 0) w = Some (e, w').
Proof.
  intros disk dir w blurred_bg entries Hblur Hdir Hall.
  rewrite TimeSkip_run_experiment_eval. cbv zeta.
  destruct (Mat_empty (file_image disk (dir ++ "/background.tiff"))).
  - do 2 eexists. reflexivity.
  - rewrite Hblur, Hdir.
    match goal with
    | |- context [mapM ?f ?l ?w0] =>
        destruct (@mapM_returns _ _ f l) with (w := w0) as (rs & w' & Hm)
    end.
    + intros path Hin w0. specialize (Hall path Hin).
      destruct (white_pixel_count (file_image disk (fs.to_string path)) blurred_bg)
        as [n|] eqn:En; [|contradiction Hall; reflexivity].
      destruct (white_pixel_count_extracted _ _ En) as [cs Hcs].
      unfold TimeSkip.process_popped. unfold bind at 1. unfold uninitialized.
      rewrite TimeSkip_process_single_image_eval, Hcs. cbv zeta.
      destruct (Qgtb _ 200); [do 2 eexists; reflexivity|].
      destruct (Qgtb _ 200); do 2 eexists; reflexivity.
    + rewrite Hm. do 2 eexists. reflexivity.
Qed.

End LoopCounts.

(** C4.  In the two programs that keep a skip list, a run that returns has
    put every enumerated frame either in [results] or in [skipped_images],
    and none in both or twice: the paths in the two lists together are the
    enumerated paths, rearranged, so the two lengths add up to the number of
    enumerated frames, and [number] is the length of [results].  (When the
    background cannot be read the run returns before enumerating, with both
    lists empty.)  The same holds at the end of every interleaving of the
    enumeration loop with the worker task.  A run returns whenever every
    enumerated frame can be read and has the background's size.  max_time.cpp
    keeps no skip list; with a clock that advances between readings every
    enumerated frame is a success there, and [number] is the number of
    enumerated frames. *)
Theorem C4_each_frame_is_counted_once :
  forall (cv : OpenCV) (disk : Disk) (dir : string) (w : World),
    let enumerated :=
      if Mat_empty (file_image disk (dir ++ "/background.tiff")%string) then []
      else match dir_entries disk dir with
           | Some entries => filter is_frame entries
           | None => []
           end in
    (forall e w',
       FindContour.run_experiment disk dir [] [] (EmptyString, 0) w = Some (e, w') ->
       (List.length (FindContour.results e) + List.length (FindContour.skipped_images e)
        = List.length enumerated)%nat /\
       FindContour.number e = Z.of_nat (List.length (FindContour.results e)) /\
       Permutation (map row_path5 (FindContour.results e) ++ FindContour.skipped_images e)
         (map fs.to_string enumerated)) /\
    (forall e w',
       TimeSkip.run_experiment disk dir [] [] (EmptyString, 0) w = Some (e, w') ->
       (List.length (TimeSkip.results e) + List.length (TimeSkip.skipped_images e)
        = List.length enumerated)%nat /\
       TimeSkip.number e = Z.of_nat (List.length (TimeSkip.results e)) /\
       Permutation (map row_path4 (TimeSkip.results e)
                    ++ map fst (TimeSkip.skipped_images e))
         (map fs.to_string enumerated)) /\
    (forall blurred_bg queue c,
       Pipeline.steps
         (fun s path => FindContour.worker_body disk blurred_bg (fst s) path (snd s))
         (Pipeline.initial queue (FindContourLocked.fresh, w)) c ->
       Pipeline.worker c = Pipeline.Returned ->
       let e := fst (Pipeline.state c) in
       (List.length (FindContour.results e) + List.length (FindContour.skipped_images e)
        = List.length queue)%nat /\
       Permutation (map row_path5 (FindContour.results e) ++ FindContour.skipped_images e)
         (map fs.to_string queue)) /\
    (forall blurred_bg queue c,
       Pipeline.steps
         (fun s path => TimeSkip.worker_body disk blurred_bg (fst s) path (snd s))
         (Pipeline.initial queue (TimeSkip.mk_experiment 0 0 0 [] [] (EmptyString, 0), w)) c ->
       Pipeline.worker c = Pipeline.Returned ->
       let e := fst (Pipeline.state c) in
       (List.length (TimeSkip.results e) + List.length (TimeSkip.skipped_images e)
        = List.length queue)%nat /\
       Permutation (map row_path4 (TimeSkip.results e)
                    ++ map fst (TimeSkip.skipped_images e))
         (map fs.to_string queue)) /\
    (forall blurred_bg entries,
       GaussianBlur (file_image disk (dir ++ "/background.tiff")%string)
         = Some blurred_bg ->
       dir_entries disk dir = Some entries ->
       (forall path, In path (filter is_frame entries) ->
          white_pixel_count (file_image disk (fs.to_string path)) blurred_bg <> None) ->
       (exists e w',
          FindContour.run_experiment disk dir [] [] (EmptyString, 0) w = Some (e, w')) /\
       (exists e w',
          TimeSkip.run_experiment disk dir [] [] (EmptyString, 0) w = Some (e, w'))) /\
    (forall blurred_bg entries e w',
       (forall n, clock w n < clock w (S n)) ->
       dir_entries disk dir = Some entries ->
       MaxTime.run_experiment disk dir blurred_bg EmptyString w = Some (e, w') ->
       MaxTime.number e = Z.of_nat (List.length (filter is_frame entries))).
Proof.
  intros cv disk dir w enumerated.
  split; [|split; [|split; [|split; [|split]]]].
  - intros e w' H. rewrite FindContour_run_experiment_eval in H. cbv zeta in H.
    unfold enumerated.
    destruct (Mat_empty (file_image disk (dir ++ "/background.tiff"))).
    + inversion H; subst. simpl. repeat split. apply Permutation_refl.
    + destruct (GaussianBlur (file_image disk (dir ++ "/background.tiff")))
        as [blurred_bg|]; [|discriminate].
      destruct (dir_entries disk dir) as [entries|]; [|discriminate].
      rewrite <- FindContour_worker_loop in H.
      exact (FindContour_loop_counts _ _ _ _ H).
  - intros e w' H. rewrite TimeSkip_run_experiment_eval in H. cbv zeta in H.
    unfold enumerated.
    destruct (Mat_empty (file_image disk (dir ++ "/background.tiff"))).
    + inversion H; subst. simpl. repeat split. apply Permutation_refl.
    + destruct (GaussianBlur (file_image disk (dir ++ "/background.tiff")))
        as [blurred_bg|]; [|discriminate].
      destruct (dir_entries disk dir) as [entries|]; [|discriminate].
      rewrite <- TimeSkip_worker_loop in H.
      exact (TimeSkip_loop_counts _ _ _ _ H).
  - intros blurred_bg queue c Hs Hw e.
    destruct (Pipeline_returned Hs Hw) as (Hrun & _ & _).
    rewrite foldM_run in Hrun. unfold e.
    destruct (Pipeline.state c) as [e1 w1]. simpl.
    destruct (FindContour_loop_counts _ _ _ _ Hrun) as (Hc & _ & Hp).
    split; assumption.
  - intros blurred_bg queue c Hs Hw e.
    destruct (Pipeline_returned Hs Hw) as (Hrun & _ & _).
    rewrite foldM_run in Hrun. unfold e.
    destruct (Pipeline.state c) as [e1 w1]. simpl.
    destruct (TimeSkip_loop_counts _ _ _ _ Hrun) as (Hc & _ & Hp).
    split; assumption.
  - intros blurred_bg entries Hblur Hdir Hall. split.
    + exact (@FindContour_run_experiment_returns cv disk dir w blurred_bg entries
               Hblur Hdir Hall).
    + exact (@TimeSkip_run_experiment_returns cv disk dir w blurred_bg entries
               Hblur Hdir Hall).
  - intros blurred_bg entries e w' Hclock Hdir H.
    rewrite MaxTime_run_experiment_eval, Hdir in H.
    destruct (mapM _ _ _) as [[rs w1]|] eqn:Em; [|discriminate].
    inversion H; subst; clear H.
    destruct (@MaxTime_measured_positive cv disk blurred_bg _ w rs w' Hclock Em) as [_ Hs].
    destruct (MaxTime_inv_fold (combine (MaxTime.image_queue entries) rs)
                MaxTime_inv_fresh) as (Hn & _).
    simpl in Hn. rewrite Hs in Hn. unfold MaxTimeLocked.Job in Hn.
    rewrite length_combine, (mapM_length _ _ _ Em), Nat.min_id in Hn. exact Hn.
Qed.

Lemma C4_each_frame_is_counted_once_witness :
  exists e w',
    FindContour.run_experiment (Fake.sample "dir") "dir" [] [] (EmptyString, 0)
      (Fake.world 10) = Some (e, w') /\
    (List.length (FindContour.results e) + List.length (FindContour.skipped_images e)
     = 4)%nat.
Proof.
  destruct (FindContour.run_experiment (Fake.sample "dir") "dir" [] [] (EmptyString, 0)
              (Fake.world 10)) as [[e w']|] eqn:E; [|vm_compute in E; discriminate E].
  exists e, w'. split; [reflexivity|].
  destruct (@C4_each_frame_is_counted_once Fake.cv (Fake.sample "dir") "dir" (Fake.world 10))
    as (H & _).
  destruct (H e w' E) as (Hc & _). exact Hc.
Defined.

(** C5.  When a run of findcontour_time_10000.cpp returns with at least one
    row in [results] (its successes, in the order the worker handled them),
    [max_time_image] holds the path and the time of the row of greatest
    time, the first such row when several have that time, and
    [max_process_time] is that time.  In max_time.cpp, where the successes
    are the frames whose measured time is positive, the same holds of
    [max_processing_time_image] (a file name) and [max_process_time]. *)
Theorem C5_max_is_the_first_slowest_success :
  forall (cv : OpenCV) (disk : Disk) (dir : string) (w : World),
    (forall e w',
       FindContour.run_experiment disk dir [] [] (EmptyString, 0) w = Some (e, w') ->
       FindContour.results e <> [] ->
       exists row,
         first_argmax row_time5 (FindContour.results e) row /\
         FindContour.max_time_image e = (row_path5 row, row_time5 row) /\
         FindContour.max_process_time e = row_time5 row) /\
    (forall blurred_bg e w',
       MaxTime.run_experiment disk dir blurred_bg EmptyString w = Some (e, w') ->
       exists entries rs,
         dir_entries disk dir = Some entries /\
         mapM (MaxTime.process_popped disk blurred_bg) (MaxTime.image_queue entries) w
           = Some (rs, w') /\
         let successes :=
           MaxTimeLocked.successes (combine (MaxTime.image_queue entries) rs) in
         MaxTime.number e = Z.of_nat (List.length successes) /\
         (successes <> [] ->
          exists j,
            first_argmax MaxTimeLocked.job_time successes j /\
            MaxTime.max_processing_time_image e = fs.filename (fst j) /\
            MaxTime.max_process_time e = MaxTimeLocked.job_time j)).
Proof.
  intros cv disk dir w. split.
  - intros e w' H Hne. rewrite FindContour_run_experiment_eval in H. cbv zeta in H.
    destruct (Mat_empty (file_image disk (dir ++ "/background.tiff"))).
    + inversion H; subst. contradiction Hne. reflexivity.
    + destruct (GaussianBlur (file_image disk (dir ++ "/background.tiff")))
        as [blurred_bg|]; [|discriminate].
      destruct (dir_entries disk dir) as [entries|]; [|discriminate].
      destruct (mapM _ _ _) as [[rs w1]|]; [|discriminate].
      inversion H; subst; clear H.
      destruct (FindContour_inv_fold (combine (FindContour.image_queue entries) rs)
                  FindContour_inv_fresh) as (_ & _ & [(Hnil & _)|Hmax]).
      * contradiction.
      * exact Hmax.
  - intros blurred_bg e w' H. rewrite MaxTime_run_experiment_eval in H.
    destruct (dir_entries disk dir) as [entries|]; [|discriminate].
    destruct (mapM _ _ _) as [[rs w1]|] eqn:Em; [|discriminate].
    inversion H; subst; clear H.
    exists entries, rs. split; [reflexivity|]. split; [exact Em|].
    destruct (MaxTime_inv_fold (combine (MaxTime.image_queue entries) rs)
                MaxTime_inv_fresh) as (Hn & Hmax).
    simpl in Hn, Hmax. cbv zeta. split; [exact Hn|].
    intro Hne. destruct Hmax as [(Hnil & _)|Hmax]; [contradiction | exact Hmax].
Qed.

Lemma C5_max_is_the_first_slowest_success_witness :
  exists e w',
    FindContour.run_experiment (Fake.sample "dir") "dir" [] [] (EmptyString, 0)
      (Fake.world 10) = Some (e, w') /\
    FindContour.max_time_image e = ("dir/a.tiff"%string, 30).
Proof.
  destruct (FindContour.run_experiment (Fake.sample "dir") "dir" [] [] (EmptyString, 0)
              (Fake.world 10)) as [[e w']|] eqn:E; [|vm_compute in E; discriminate E].
  exists e, w'. split; [reflexivity|].
  destruct (@C5_max_is_the_first_slowest_success Fake.cv (Fake.sample "dir") "dir"
              (Fake.world 10)) as (H & _).
  assert (Hrun : FindContour.results e <> [] /\
                 FindContour.max_time_image e = ("dir/a.tiff"%string, 30)).
  { vm_compute in E. inversion E; subst. split; [discriminate | reflexivity]. }
  destruct (H e w' E (proj1 Hrun)) as (row & _ & Him & _).
  rewrite Him. rewrite Him in Hrun. exact (proj2 Hrun).
Defined.

(** ** The lock_guard scopes, statement by statement *)

Section FindContourScope.
Import FindContour FindContourLocked.


Lemma FindContour_within_at : forall j e0 pc e,
  Locked.within guarded entry exec j e0 pc e -> FindContour_at j e0 pc e.
Proof.
  intros [path r] e0 pc e H. induction H as [_|pc e e' pc' _ IH He].
  - unfold entry, FindContour_at. simpl.
    destruct (Qgtb (duration r) 0) eqn:E; split; auto.
  - unfold FindContour_at in *. destruct pc; simpl in He; inversion He; subst; clear He.
    + destruct IH as [Ht ->]. split; [exact Ht | reflexivity].
    + destruct IH as [Ht ->]. split; [exact Ht | reflexivity].
    + destruct IH as [Ht ->]. simpl.
      destruct (Qgtb (duration r) (max_process_time e0)) eqn:Eb.
      * repeat split; auto.
      * split; [exact Ht | reflexivity].
    + destruct IH as (Ht & Hb & ->). repeat split; auto.
    + destruct IH as (Ht & Hb & ->). rewrite Hb. split; [exact Ht | reflexivity].
    + destruct IH as [Ht ->]. split; [exact Ht | reflexivity].
Qed.

(** The statements of a scope, run in order from its entry, leave what
    [aggregate] computes in one go. *)
Lemma FindContour_exec_commit : forall j e0 pc e e',
  Locked.within guarded entry exec j e0 pc e ->
  exec j pc e = (e', None) -> e' = commit e0 j.
Proof.
  intros [path r] e0 pc e e' H He.
  apply FindContour_within_at in H. unfold FindContour_at in H.
  unfold commit, aggregate. simpl.
  destruct pc; simpl in He; inversion He; subst; clear He.
  - destruct H as [Ht ->]. rewrite Ht. simpl.
    destruct (Qgtb (duration r) (max_process_time e0)); reflexivity.
  - destruct H as [Ht ->]. rewrite Ht. reflexivity.
Qed.

End FindContourScope.

Section MaxTimeScope.
Import MaxTime MaxTimeLocked.


Lemma MaxTime_within_at : forall j e0 pc e,
  Locked.within guarded entry exec j e0 pc e -> MaxTime_at j e0 pc e.
Proof.
  intros [path r] e0 pc e H. induction H as [Hg|pc e e' pc' _ IH He].
  - unfold entry, MaxTime_at. split; [exact Hg | reflexivity].
  - unfold MaxTime_at in *. destruct IH as [Ht IH]. split; [exact Ht|].
    destruct pc; simpl in He; inversion He; subst; clear He.
    + reflexivity.
    + simpl. destruct (Qgtb (duration r) (max_process_time e0)) eqn:Eb.
      * split; reflexivity.
      * reflexivity.
    + destruct IH as (Hb & ->). split; [exact Hb | reflexivity].
    + destruct IH as (Hb & ->). rewrite Hb. reflexivity.
Qed.

Lemma MaxTime_exec_commit : forall j e0 pc e e',
  Locked.within guarded entry exec j e0 pc e ->
  exec j pc e = (e', None) -> e' = commit e0 j.
Proof.
  intros [path r] e0 pc e e' H He.
  apply MaxTime_within_at in H. unfold MaxTime_at in H. destruct H as [Ht H].
  unfold commit, aggregate. simpl. rewrite Ht.
  destruct pc; simpl in He; inversion He; subst; clear He.
  destruct (Qgtb (duration r) (max_process_time e0)); reflexivity.
Qed.

End MaxTimeScope.

(** C2.  With any number of worker threads, interleaved in any way and
    executing their [lock_guard] scopes one statement at a time: a thread
    that is at a statement of a scope (the comparison with the running
    maximum and the two stores among them) owns the mutex, so no two threads
    are in a scope together; and whenever the mutex is free the shared
    variables are exactly what the completed scopes, run whole and in the
    order they completed, produce.  In particular, in
    findcontour_time_10000.cpp [max_time_image] then names the row of
    [results] whose time is [max_process_time], the first of greatest time;
    in max_time.cpp [max_processing_time_image] names the success whose time
    is [max_process_time]. *)
Theorem C2_max_pair_is_updated_under_the_mutex :
  (forall c : Locked.Config FindContourLocked.Job FindContour.Experiment FindContourLocked.Pc,
     FindContourLocked.reachable c ->
     (forall w, Locked.in_scope (Locked.threads c w) = true -> Locked.mtx c = Some w) /\
     (forall w1 w2, Locked.in_scope (Locked.threads c w1) = true ->
                    Locked.in_scope (Locked.threads c w2) = true -> w1 = w2) /\
     (Locked.mtx c = None ->
      let e := Locked.shared c in
      e = fold_left FindContourLocked.commit (Locked.history c) FindContourLocked.fresh /\
      (FindContour.results e = [] ->
       FindContour.max_process_time e = 0 /\
       FindContour.max_time_image e = (EmptyString, 0)) /\
      (FindContour.results e <> [] ->
       exists row,
         first_argmax row_time5 (FindContour.results e) row /\
         FindContour.max_time_image e = (row_path5 row, row_time5 row) /\
         FindContour.max_process_time e = row_time5 row))) /\
  (forall c : Locked.Config MaxTimeLocked.Job MaxTime.Experiment MaxTimeLocked.Pc,
     MaxTimeLocked.reachable c ->
     (forall w, Locked.in_scope (Locked.threads c w) = true -> Locked.mtx c = Some w) /\
     (forall w1 w2, Locked.in_scope (Locked.threads c w1) = true ->
                    Locked.in_scope (Locked.threads c w2) = true -> w1 = w2) /\
     (Locked.mtx c = None ->
      let e := Locked.shared c in
      let successes := MaxTimeLocked.successes (Locked.history c) in
      e = fold_left MaxTimeLocked.commit (Locked.history c) MaxTimeLocked.fresh /\
      (successes = [] ->
       MaxTime.max_process_time e = 0 /\
       MaxTime.max_processing_time_image e = EmptyString) /\
      (successes <> [] ->
       exists j,
         first_argmax MaxTimeLocked.job_time successes j /\
         MaxTime.max_processing_time_image e = fs.filename (fst j) /\
         MaxTime.max_process_time e = MaxTimeLocked.job_time j))).
Proof.
  split.
  - intros c Hc. split; [|split].
    + intros w Hin.
      exact (Locked_scope_owner FindContourLocked.commit FindContour_exec_commit w Hc Hin).
    + intros w1 w2 H1 H2.
      exact (Locked_mutual_exclusion FindContourLocked.commit FindContour_exec_commit
               w1 w2 Hc H1 H2).
    + intros Hm e.
      pose proof (Locked_quiescent FindContourLocked.commit FindContour_exec_commit Hc Hm)
        as Hq.
      split; [exact Hq|]. unfold e. rewrite Hq.
      destruct (FindContour_inv_fold (Locked.history c) FindContour_inv_fresh)
        as (_ & _ & [(Hnil & Hz & Hi)|Hmax]).
      * split; [auto | intro Hne; contradiction].
      * split; [|intros _; exact Hmax].
        intro Hnil. destruct Hmax as (row & Hrow & _).
        apply first_argmax_In in Hrow. rewrite Hnil in Hrow. destruct Hrow.
  - intros c Hc. split; [|split].
    + intros w Hin.
      exact (Locked_scope_owner MaxTimeLocked.commit MaxTime_exec_commit w Hc Hin).
    + intros w1 w2 H1 H2.
      exact (Locked_mutual_exclusion MaxTimeLocked.commit MaxTime_exec_commit
               w1 w2 Hc H1 H2).
    + intros Hm e successes.
      pose proof (Locked_quiescent MaxTimeLocked.commit MaxTime_exec_commit Hc Hm) as Hq.
      split; [exact Hq|]. unfold e. rewrite Hq.
      destruct (MaxTime_inv_fold (Locked.history c) MaxTime_inv_fresh)
        as (_ & [(Hnil & Hz & Hi)|Hmax]); simpl in *.
      * split; [auto | intro Hne; contradiction].
      * split; [|intros _; exact Hmax].
        intro Hnil. destruct Hmax as (j & Hj & _).
        apply first_argmax_In in Hj. unfold successes in Hnil. rewrite Hnil in Hj.
        destruct Hj.
Qed.

(** One thread taking a frame through its whole scope. *)
Lemma FindContour_one_scope :
  let j : FindContourLocked.Job :=
    (Fake.frame "dir" "a.tiff", FindContour.mk_refs [] ContourMetrics_default 30 10) in
  exists c torn,
    FindContourLocked.reachable c /\
    Locked.mtx c = None /\ Locked.history c = [j] /\
    FindContourLocked.reachable torn /\
    Locked.mtx torn = Some 0%nat /\
    FindContour.max_process_time (Locked.shared torn) = 30 /\
    FindContour.max_time_image (Locked.shared torn) = (EmptyString, 0).
Proof.
  intro j. unfold FindContourLocked.reachable.
  pose (row := ("dir/a.tiff"%string, 0, 0, 30, 10) : FindContour.Row).
  pose proof (Locked.reachable_initial FindContourLocked.guarded FindContourLocked.entry
                FindContourLocked.exec FindContourLocked.fresh) as R.
  unfold Locked.initial in R.
  eapply Locked.reachable_step in R;
    [|eapply Locked.take with (w := 0%nat) (j := j); reflexivity].
  cbn [Locked.mtx Locked.shared Locked.threads Locked.history] in R.
  eapply Locked.reachable_step in R;
    [|eapply Locked.lock with (w := 0%nat) (j := j); reflexivity].
  cbn [Locked.mtx Locked.shared Locked.threads Locked.history] in R.
  eapply Locked.reachable_step in R;
    [|eapply Locked.statement with (w := 0%nat) (j := j)
        (pc := FindContourLocked.AddTotalTime) (pc' := FindContourLocked.AddFindcontourTime)
        (sh' := FindContour.mk_experiment (0 + 30) 0 0 0 [] [] (EmptyString, 0));
      reflexivity].
  cbn [Locked.mtx Locked.shared Locked.threads Locked.history] in R.
  eapply Locked.reachable_step in R;
    [|eapply Locked.statement with (w := 0%nat) (j := j)
        (pc := FindContourLocked.AddFindcontourTime) (pc' := FindContourLocked.Compare)
        (sh' := FindContour.mk_experiment (0 + 30) (0 + 10) 0 0 [] [] (EmptyString, 0));
      reflexivity].
  cbn [Locked.mtx Locked.shared Locked.threads Locked.history] in R.
  eapply Locked.reachable_step in R;
    [|eapply Locked.statement with (w := 0%nat) (j := j)
        (pc := FindContourLocked.Compare) (pc' := FindContourLocked.StoreMax)
        (sh' := FindContour.mk_experiment (0 + 30) (0 + 10) 0 0 [] [] (EmptyString, 0));
      reflexivity].
  cbn [Locked.mtx Locked.shared Locked.threads Locked.history] in R.
  eapply Locked.reachable_step in R;
    [|eapply Locked.statement with (w := 0%nat) (j := j)
        (pc := FindContourLocked.StoreMax) (pc' := FindContourLocked.StoreMaxImage)
        (sh' := FindContour.mk_experiment (0 + 30) (0 + 10) 0 30 [] [] (EmptyString, 0));
      reflexivity].
  cbn [Locked.mtx Locked.shared Locked.threads Locked.history] in R.
  assert (Rtorn := R).
  eapply Locked.reachable_step in R;
    [|eapply Locked.statement with (w := 0%nat) (j := j)
        (pc := FindContourLocked.StoreMaxImage) (pc' := FindContourLocked.IncrementNumber)
        (sh' := FindContour.mk_experiment (0 + 30) (0 + 10) 0 30 [] []
                  ("dir/a.tiff"%string, 30));
      reflexivity].
  cbn [Locked.mtx Locked.shared Locked.threads Locked.history] in R.
  eapply Locked.reachable_step in R;
    [|eapply Locked.statement with (w := 0%nat) (j := j)
        (pc := FindContourLocked.IncrementNumber) (pc' := FindContourLocked.PushResult)
        (sh' := FindContour.mk_experiment (0 + 30) (0 + 10) (0 + 1) 30 [] []
                  ("dir/a.tiff"%string, 30));
      reflexivity].
  cbn [Locked.mtx Locked.shared Locked.threads Locked.history] in R.
  eapply Locked.reachable_step in R;
    [|eapply Locked.last_statement with (w := 0%nat) (j := j)
        (pc := FindContourLocked.PushResult)
        (sh' := FindContour.mk_experiment (0 + 30) (0 + 10) (0 + 1) 30 [row] []
                  ("dir/a.tiff"%string, 30));
      reflexivity].
  cbn [Locked.mtx Locked.shared Locked.threads Locked.history] in R.
  eapply Locked.reachable_step in R;
    [|eapply Locked.unlock with (w := 0%nat) (j := j); reflexivity].
  cbn [Locked.mtx Locked.shared Locked.threads Locked.history] in R.
  eexists. eexists.
  split; [exact R|]. split; [reflexivity|]. split; [reflexivity|].
  split; [exact Rtorn|]. split; [reflexivity|]. split; reflexivity.
Qed.

Lemma C2_max_pair_is_updated_under_the_mutex_witness :
  exists c,
    FindContourLocked.reachable c /\ Locked.mtx c = None /\
    FindContour.max_time_image (Locked.shared c) = ("dir/a.tiff"%string, 30) /\
    FindContour.max_process_time (Locked.shared c) = 30.
Proof.
  destruct FindContour_one_scope as (c & _ & Hc & Hm & Hh & _).
  exists c. split; [exact Hc|]. split; [exact Hm|].
  destruct C2_max_pair_is_updated_under_the_mutex as [H _].
  destruct (H c Hc) as (_ & _ & Hfree).
  destruct (Hfree Hm) as (Hq & _ & _).
  rewrite Hq, Hh. split; reflexivity.
Defined.

(** ** The repetitions of findcontour_time_10000.cpp *)

Lemma foldM_ext : forall (A B : Type) (f g : A -> B -> M A),
  (forall a x w, f a x w = g a x w) ->
  forall l a w, foldM f l a w = foldM g l a w.
Proof.
  intros A B f g H l. induction l as [|x l IH]; intros a w; simpl.
  - reflexivity.
  - unfold bind. rewrite H. destruct (g a x w) as [[a' w']|]; [apply IH | reflexivity].
Qed.

Section FindContourMain.
Context {cv : OpenCV}.
Import FindContour.



Lemma FindContour_repetition_split : forall repetitions disk_at t i w,
  repetition repetitions disk_at t i w =
  (e <- FindContour_run repetitions disk_at i ;; ret (FindContour_absorb t e)) w.
Proof.
  intros. unfold repetition, FindContour_run, FindContour_absorb, bind, emit, ret.
  destruct (run_experiment (disk_at i) directory [] [] (EmptyString, 0) w) as [[e w']|];
    reflexivity.
Qed.

Lemma fold_add_row : forall rows t,
  let t' := fold_left add_row rows t in
  total_circularity_ratio t' = column_sum row_circularity5 rows (total_circularity_ratio t) /\
  total_area_ratio t' = column_sum row_area5 rows (total_area_ratio t) /\
  total_processing_time t' = column_sum row_time5 rows (total_processing_time t) /\
  total_findcontour_time_all t' =
    column_sum row_findcontour5 rows (total_findcontour_time_all t) /\
  last_results t' = last_results t.
Proof.
  induction rows as [|[[[[p c] a] tm] f] rows IH]; intro t; simpl.
  - repeat split.
  - destruct (IH (add_row t (p, c, a, tm, f))) as (H1 & H2 & H3 & H4 & H5).
    unfold column_sum. simpl. repeat split; assumption.
Qed.

Lemma last_cons_default : forall (A : Type) (l : list A) (x d d' : A),
  last (x :: l) d = last (x :: l) d'.
Proof.
  intros A l. induction l as [|y l IH]; intros x d d'.
  - reflexivity.
  - change (last (y :: l) d = last (y :: l) d'). apply IH.
Qed.

Lemma fold_absorb : forall es t,
  let t' := fold_left FindContour_absorb es t in
  let rows := List.concat (map results es) in
  total_circularity_ratio t' = column_sum row_circularity5 rows (total_circularity_ratio t) /\
  total_area_ratio t' = column_sum row_area5 rows (total_area_ratio t) /\
  total_processing_time t' = column_sum row_time5 rows (total_processing_time t) /\
  total_findcontour_time_all t' =
    column_sum row_findcontour5 rows (total_findcontour_time_all t) /\
  last_results t' = last (map results es) (last_results t).
Proof.
  induction es as [|e es IH]; intro t.
  - simpl. repeat split.
  - cbv zeta. simpl fold_left. simpl map. simpl List.concat.
    destruct (IH (FindContour_absorb t e)) as (H1 & H2 & H3 & H4 & H5).
    destruct (fold_add_row (results e)
                (mk_totals (total_circularity_ratio t) (total_area_ratio t)
                   (total_processing_time t) (total_findcontour_time_all t)
                   (results e) (skipped_images e) (max_time_image e)))
      as (G1 & G2 & G3 & G4 & G5).
    fold (FindContour_absorb t e) in G1, G2, G3, G4, G5. simpl in G1, G2, G3, G4, G5.
    unfold column_sum in *. rewrite !fold_left_app.
    rewrite H1, H2, H3, H4, H5, G1, G2, G3, G4, G5.
    repeat split.
    destruct (map results es) as [|r rs]; [reflexivity|].
    change (last (results e :: r :: rs) (last_results t))
      with (last (r :: rs) (last_results t)).
    apply last_cons_default.
Qed.

(** [main] in closed form: the runs one after the other, then the report,
    whose numerators are the column sums over every row of every run and
    whose denominator is the row count of the last run times the number of
    repetitions. *)
Lemma FindContour_main_eval : forall repetitions disk_at w,
  main_with repetitions disk_at w =
  match mapM (FindContour_run repetitions disk_at) (seq 0 repetitions) w with
  | Some (es, w') =>
      let rows := List.concat (map results es) in
      let total_processed_images :=
        (List.length (last (map results es) []) * repetitions)%nat in
      Some (0%Z,
            mk_world (clock w') (ticks w') (indeterminate w')
              (Averages
                 (average (column_sum row_circularity5 rows 0) total_processed_images)
                 (average (column_sum row_area5 rows 0) total_processed_images)
                 (average (column_sum row_time5 rows 0) total_processed_images)
                 (average (column_sum row_findcontour5 rows 0) total_processed_images)
               :: events w'))
  | None => None
  end.
Proof.
  intros repetitions disk_at w. unfold main_with. unfold bind at 1.
  rewrite (foldM_ext _ _ (FindContour_repetition_split repetitions disk_at)).
  rewrite (foldM_measure_then_fold (FindContour_run repetitions disk_at)
             (fun t (_ : nat) e => FindContour_absorb t e)).
  destruct (mapM (FindContour_run repetitions disk_at) (seq 0 repetitions) w)
    as [[es w']|] eqn:Em; [|reflexivity].
  pose proof (mapM_length _ _ _ Em) as Hlen.
  assert (Hfold : forall (l : list nat) (es : list Experiment) t,
             List.length es = List.length l ->
             fold_left (fun a xr => FindContour_absorb a (snd xr)) (combine l es) t
             = fold_left FindContour_absorb es t).
  { induction l as [|x l IH]; intros [|e es'] t H; try discriminate; [reflexivity|].
    simpl. apply IH. simpl in H. lia. }
  simpl snd. rewrite (Hfold _ _ _ Hlen).
  destruct (fold_absorb es (mk_totals 0 0 0 0 [] [] (EmptyString, 0)))
    as (H1 & H2 & H3 & H4 & H5).
  simpl in H1, H2, H3, H4, H5.
  unfold bind, emit, ret, report. rewrite H1, H2, H3, H4, H5. reflexivity.
Qed.

End FindContourMain.

(** Where the report is right: when every run has the same number of rows,
    the denominator is the number of rows of all runs. *)
Lemma FindContour_average_when_runs_agree :
  forall (column : FindContour.Row -> double) (runs : list (list FindContour.Row)) (n : nat),
    (forall rows, In rows runs -> List.length rows = n) ->
    (0 < n * List.length runs)%nat ->
    FindContour.average (column_sum column (List.concat runs) 0)
      (List.length (last runs []) * List.length runs)
    = pooled_average column runs.
Proof.
  intros column runs n Hall Hpos.
  assert (Hcat : List.length (List.concat runs) = (n * List.length runs)%nat).
  { clear Hpos. induction runs as [|r runs IH]; simpl.
    - lia.
    - rewrite length_app, (Hall r) by (left; reflexivity).
      rewrite IH by (intros rows Hin; apply Hall; right; exact Hin). lia. }
  assert (Hlast : List.length (last runs []) = n).
  { destruct runs as [|r runs]; [simpl in Hpos; lia|].
    apply Hall. clear. revert r. induction runs as [|r' runs IH]; intro r.
    - left. reflexivity.
    - right. apply IH. }
  unfold FindContour.average, pooled_average. rewrite Hlast, Hcat.
  destruct (Nat.ltb_spec 0 (n * List.length runs)); [reflexivity | lia].
Qed.

(** C1.  The averages [main] prints divide the sums over every row of every
    run by the row count of the LAST run times the number of repetitions
    ([FindContour_main_eval]).  On a directory from which a frame disappears
    between the first and the second of two repetitions, the runs have 2 and
    1 successes, each of 30 microseconds; the program exits with status 0
    having reported an average processing time of 90/2 = 45, while the sum
    over all successes divided by their number is 90/3 = 30. *)
Theorem C1_reported_average_is_not_the_pooled_average :
  option_map (fun r => map (fun e => List.length (FindContour.results e)) (fst r))
    (mapM (FindContour_run 2 (Fake.shrinking 1)) (seq 0 2) (Fake.world 10))
  = Some [2; 1]%nat /\
  option_map (fun r => (fst r, hd_error (events (snd r))))
    (FindContour.main_with 2 (Fake.shrinking 1) (Fake.world 10))
  = Some (0%Z, Some (Averages (0 # 2) (0 # 2) (90 # 2) (30 # 2))) /\
  option_map (fun r => pooled_average row_time5 (map FindContour.results (fst r)))
    (mapM (FindContour_run 2 (Fake.shrinking 1)) (seq 0 2) (Fake.world 10))
  = Some (90 # 3) /\
  ~ (90 # 2 == 90 # 3).
Proof.
  split; [vm_compute; reflexivity|].
  split; [vm_compute; reflexivity|].
  split; [vm_compute; reflexivity|].
  discriminate.
Qed.

Lemma mapM_app : forall (A B : Type) (f : A -> M B) (l1 l2 : list A) w,
  mapM f (l1 ++ l2) w =
  match mapM f l1 w with
  | Some (ys1, w1) =>
      match mapM f l2 w1 with
      | Some (ys2, w2) => Some (ys1 ++ ys2, w2)
      | None => None
      end
  | None => None
  end.
Proof.
  intros A B f l1. induction l1 as [|x l1 IH]; intros l2 w; simpl.
  - unfold ret. destruct (mapM f l2 w) as [[ys2 w2]|]; reflexivity.
  - unfold bind, ret. destruct (f x w) as [[y w1]|]; [|reflexivity].
    rewrite IH.
    destruct (mapM f l1 w1) as [[ys1 w2]|]; [|reflexivity].
    destruct (mapM f l2 w2) as [[ys2 w3]|]; reflexivity.
Qed.

Section IdleRepetitions.
Context {cv : OpenCV}.

(** A repetition on a directory that holds no frame. *)
Lemma FindContour_run_no_frames : forall repetitions disk_at i w blurred_bg entries,
  Mat_empty (file_image (disk_at i) (FindContour.directory ++ "/background.tiff")%string)
    = false ->
  GaussianBlur (file_image (disk_at i) (FindContour.directory ++ "/background.tiff")%string)
    = Some blurred_bg ->
  dir_entries (disk_at i) FindContour.directory = Some entries ->
  filter is_frame entries = [] ->
  FindContour_run repetitions disk_at i w =
  Some (FindContourLocked.fresh,
        mk_world (clock w) (ticks w) (indeterminate w)
          (Progress (i + 1) repetitions
           :: Imread (FindContour.directory ++ "/background.tiff") :: events w)).
Proof.
  intros repetitions disk_at i w blurred_bg entries Hbg Hblur Hdir Hnone.
  unfold FindContour_run. unfold bind at 1.
  rewrite FindContour_run_experiment_eval. cbv zeta.
  rewrite Hbg, Hblur, Hdir. unfold FindContour.image_queue. rewrite Hnone.
  reflexivity.
Qed.

Lemma FindContour_runs_no_frames : forall repetitions disk_at n k w,
  (forall i, (k <= i < k + n)%nat ->
     exists blurred_bg entries,
       Mat_empty (file_image (disk_at i) (FindContour.directory ++ "/background.tiff")%string)
         = false /\
       GaussianBlur
         (file_image (disk_at i) (FindContour.directory ++ "/background.tiff")%string)
         = Some blurred_bg /\
       dir_entries (disk_at i) FindContour.directory = Some entries /\
       filter is_frame entries = []) ->
  exists w',
    mapM (FindContour_run repetitions disk_at) (seq k n) w =
      Some (repeat FindContourLocked.fresh n, w') /\
    clock w' = clock w /\ ticks w' = ticks w.
Proof.
  intros repetitions disk_at n. induction n as [|n IH]; intros k w H.
  - exists w. repeat split.
  - destruct (H k) as (bg & entries & Hbg & Hblur & Hdir & Hnone); [lia|].
    simpl mapM. unfold bind at 1.
    rewrite (FindContour_run_no_frames _ _ _ _ Hbg Hblur Hdir Hnone).
    destruct (IH (S k)
                (mk_world (clock w) (ticks w) (indeterminate w)
                   (Progress (k + 1) repetitions
                    :: Imread (FindContour.directory ++ "/background.tiff") :: events w)))
      as (w' & Hm & Hc & Ht); [intros i Hi; apply H; lia|].
    exists w'. unfold bind at 1. rewrite Hm. repeat split; assumption.
Qed.

End IdleRepetitions.

(** The same with the program's own 10000 repetitions, on a directory whose
    frames arrive for the last two (two frames, then one): three successes
    of 30 microseconds each, and a reported average of 90/10000. *)
Lemma FindContour_main_10000_average :
  exists w',
    FindContour.main Fake.late (Fake.world 10) = Some (0%Z, w') /\
    hd_error (events w')
    = Some (Averages (0 # 10000) (0 # 10000) (90 # 10000) (30 # 10000)).
Proof.
  unfold FindContour.main. rewrite FindContour_main_eval.
  change (seq 0 10000) with (seq 0 (9998 + 2)).
  rewrite seq_app, mapM_app.
  destruct (@FindContour_runs_no_frames Fake.cv 10000 Fake.late 9998 0 (Fake.world 10))
    as (w1 & Hm & Hc & Ht).
  { intros i Hi. unfold Fake.late.
    assert (Hlt : (i <? 9998)%nat = true) by (apply Nat.ltb_lt; lia).
    rewrite Hlt. do 2 eexists. repeat split; reflexivity. }
  rewrite Hm.
  destruct w1 as [clock1 ticks1 indeterminate1 events1]. simpl in Hc, Ht. subst clock1 ticks1.
  match goal with
  | |- context [mapM ?f (seq (0 + 9998) 2) ?w] =>
      destruct (mapM f (seq (0 + 9998) 2) w) as [[es2 w2]|] eqn:E2;
        [|exfalso; revert E2; vm_compute; discriminate]
  end.
  assert (Hes2 : map FindContour.results es2 =
                 [[("Test_images/512x96crop/c.tiff"%string, 0, 0, 30, 10);
                   ("Test_images/512x96crop/e.tiff"%string, 0, 0, 30, 10)];
                  [("Test_images/512x96crop/c.tiff"%string, 0, 0, 30, 10)]]).
  { revert E2. vm_compute. intro E2. inversion E2; subst. reflexivity. }
  cbv zeta. rewrite map_app, Hes2, concat_app.
  assert (Hrows : forall n, List.concat (map FindContour.results
                                           (repeat FindContourLocked.fresh n)) = []).
  { induction n as [|n IH]; [reflexivity | exact IH]. }
  rewrite Hrows.
  replace (last (map FindContour.results (repeat FindContourLocked.fresh 9998) ++
                 [[("Test_images/512x96crop/c.tiff"%string, 0, 0, 30, 10);
                   ("Test_images/512x96crop/e.tiff"%string, 0, 0, 30, 10)];
                  [("Test_images/512x96crop/c.tiff"%string, 0, 0, 30, 10)]]) [])
    with [("Test_images/512x96crop/c.tiff"%string, 0, 0, 30, 10) : FindContour.Row].
  - eexists. split; [reflexivity|]. vm_compute. reflexivity.
  - symmetry.
    generalize (map FindContour.results (repeat FindContourLocked.fresh 9998)).
    intro l. induction l as [|x l IH]; [reflexivity|].
    rewrite <- IH. simpl. destruct l; reflexivity.
Qed.

(** ** An unreadable background *)

Section UnreadableBackground.
Context {cv : OpenCV}.


Lemma FindContour_run_unreadable_background : forall repetitions disk_at i w,
  Mat_empty (file_image (disk_at i) (FindContour.directory ++ "/background.tiff")%string)
    = true ->
  FindContour_run repetitions disk_at i w =
  Some (FindContourLocked.fresh,
        mk_world (clock w) (ticks w) (indeterminate w)
          (complaint FindContour.directory repetitions i ++ events w)).
Proof.
  intros repetitions disk_at i w H. unfold FindContour_run. unfold bind at 1.
  rewrite FindContour_run_experiment_eval. cbv zeta. rewrite H. reflexivity.
Qed.

Lemma FindContour_runs_unreadable_background : forall repetitions disk_at n k w,
  (forall i, (k <= i < k + n)%nat ->
     Mat_empty (file_image (disk_at i) (FindContour.directory ++ "/background.tiff")%string)
       = true) ->
  mapM (FindContour_run repetitions disk_at) (seq k n) w =
  Some (repeat FindContourLocked.fresh n,
        mk_world (clock w) (ticks w) (indeterminate w)
          (flat_map (complaint FindContour.directory repetitions) (rev (seq k n))
           ++ events w)).
Proof.
  intros repetitions disk_at n. induction n as [|n IH]; intros k w H.
  - destruct w. reflexivity.
  - simpl mapM. unfold bind at 1.
    rewrite FindContour_run_unreadable_background by (apply H; lia).
    unfold bind at 1. rewrite IH by (intros i Hi; apply H; lia).
    unfold ret. simpl clock. simpl ticks. simpl indeterminate. simpl events.
    simpl seq. simpl rev. rewrite flat_map_app. simpl flat_map.
    rewrite <- !app_assoc. reflexivity.
Qed.

End UnreadableBackground.

(** C3.  When the background cannot be read in any of the repetitions,
    findcontour_time_10000.cpp does not abort: [run_experiment] writes the
    diagnostic and returns to [main], which goes on to the next repetition.
    After the last one [main] prints the four averages, all zero, and
    returns 0.  No frame is read, and the diagnostic is written once per
    repetition. *)
Theorem C3_unreadable_background_does_not_abort :
  forall (cv : OpenCV) (repetitions : nat) (disk_at : nat -> Disk) (w : World),
    (forall i, (i < repetitions)%nat ->
       Mat_empty
         (file_image (disk_at i) (FindContour.directory ++ "/background.tiff")%string)
       = true) ->
    FindContour.main_with repetitions disk_at w =
    Some (0%Z,
          mk_world (clock w) (ticks w) (indeterminate w)
            (Averages 0 0 0 0
             :: flat_map (complaint FindContour.directory repetitions)
                  (rev (seq 0 repetitions))
             ++ events w)).
Proof.
  intros cv repetitions disk_at w H.
  rewrite FindContour_main_eval.
  rewrite FindContour_runs_unreadable_background by (intros i Hi; apply H; lia).
  cbv zeta.
  assert (Hrows : forall n, List.concat (map FindContour.results
                                           (repeat FindContourLocked.fresh n)) = []).
  { induction n as [|n IH]; [reflexivity | exact IH]. }
  assert (Hlast : forall n, last (map FindContour.results
                                    (repeat FindContourLocked.fresh n)) [] = []).
  { induction n as [|n IH]; [reflexivity|]. simpl map.
    destruct n; [reflexivity | exact IH]. }
  rewrite Hrows, Hlast. reflexivity.
Qed.

Lemma C3_unreadable_background_does_not_abort_witness :
  option_map (fun r => (fst r, events (snd r)))
    (FindContour.main_with 2 (fun _ => Fake.headless FindContour.directory) (Fake.world 10))
  = Some (0%Z,
          [Averages 0 0 0 0;
           Progress 2 2;
           Cerr "Error: Could not read background image: Test_images/512x96crop/background.tiff";
           Imread "Test_images/512x96crop/background.tiff";
           Progress 1 2;
           Cerr "Error: Could not read background image: Test_images/512x96crop/background.tiff";
           Imread "Test_images/512x96crop/background.tiff"]).
Proof.
  rewrite (@C3_unreadable_background_does_not_abort Fake.cv 2
             (fun _ => Fake.headless FindContour.directory) (Fake.world 10)).
  - reflexivity.
  - intros i _. reflexivity.
Defined.

(** max_time.cpp reads the background in [main], before the loop, and
    returns -1 when it cannot: one diagnostic, no repetition. *)
Lemma MaxTime_main_unreadable_background :
  forall (cv : OpenCV) (total_iterations : nat) (disk_at : nat -> Disk) (w : World),
    Mat_empty
      (file_image (disk_at 0%nat) (MaxTime.directory ++ "/background.tiff")%string) = true ->
    MaxTime.main_with total_iterations disk_at w =
    Some (((-1)%Z, []),
          mk_world (clock w) (ticks w) (indeterminate w)
            (Cerr ("Error: Could not read background image: "
                   ++ MaxTime.directory ++ "/background.tiff")
             :: Imread (MaxTime.directory ++ "/background.tiff") :: events w)).
Proof.
  intros cv total_iterations disk_at w H.
  unfold MaxTime.main_with. cbv zeta. unfold bind at 1. unfold imread at 1.
  unfold bind at 1. unfold emit at 1, ret at 1. rewrite H. reflexivity.
Qed.

(** ** A frame that cannot be read *)

Lemma mapM_throws : forall (A B : Type) (f : A -> M B) (l : list A) (x : A),
  In x l -> (forall w, f x w = None) -> forall w, mapM f l w = None.
Proof.
  intros A B f l x Hin Hx. induction l as [|y l IH]; intro w.
  - destruct Hin.
  - simpl. unfold bind at 1. destruct Hin as [->|Hin].
    + rewrite Hx. reflexivity.
    + destruct (f y w) as [[b w1]|]; [|reflexivity].
      unfold bind at 1. rewrite (IH Hin). reflexivity.
Qed.

Section UnreadableFrame.
Context {cv : OpenCV}.

Lemma TimeSkip_process_single_image_unreadable : forall disk image_path blurred_bg r w,
  Mat_empty (file_image disk image_path) = true ->
  TimeSkip.process_single_image disk image_path blurred_bg r w = None.
Proof.
  intros disk image_path blurred_bg r w H.
  rewrite TimeSkip_process_single_image_eval.
  unfold extracted_contours. rewrite (GaussianBlur_empty _ H). reflexivity.
Qed.

Lemma MaxTime_process_single_image_unreadable : forall disk image_path blurred_bg r w,
  Mat_empty (file_image disk image_path) = true ->
  MaxTime.process_single_image disk image_path blurred_bg r w = None.
Proof.
  intros disk image_path blurred_bg r w H.
  unfold MaxTime.process_single_image. run_monad.
  rewrite (GaussianBlur_empty _ H). reflexivity.
Qed.

(** pixel.cpp tests for the empty image and returns. *)
Lemma Pixel_process_single_image_unreadable :
  forall disk image_path blurred_bg max_info min_info w,
    Mat_empty (file_image disk (fs.to_string image_path)) = true ->
    Pixel.process_single_image disk image_path blurred_bg max_info min_info w =
    Some ((max_info, min_info),
          mk_world (clock w) (ticks w) (indeterminate w)
            (Cout ("Unable to open or find image: " ++ fs.to_string image_path)
             :: Imread (fs.to_string image_path) :: events w)).
Proof.
  intros disk image_path blurred_bg max_info min_info w H.
  unfold Pixel.process_single_image. run_monad. rewrite H. reflexivity.
Qed.

End UnreadableFrame.

(** C8.  None of the three timing programs tests whether [imread] returned
    an image.  On a frame that cannot be read, [GaussianBlur] throws inside
    [process_single_image]; nothing catches the exception, so the worker
    records nothing for the frame (neither a row of [results] nor an entry
    of [skipped_images]), and a run whose queue holds such a frame ends in
    the exception instead of returning statistics. *)
Theorem C8_unreadable_frame_ends_the_run :
  forall (cv : OpenCV) (disk : Disk) (blurred_bg : Mat) (path : fs.path),
    Mat_empty (file_image disk (fs.to_string path)) = true ->
    (forall e w, FindContour.worker_body disk blurred_bg e path w = None) /\
    (forall e w, TimeSkip.worker_body disk blurred_bg e path w = None) /\
    (forall e w, MaxTime.worker_body disk blurred_bg e path w = None) /\
    (forall dir entries w,
       dir_entries disk dir = Some entries ->
       In path (filter is_frame entries) ->
       Mat_empty (file_image disk (dir ++ "/background.tiff")%string) = false ->
       FindContour.run_experiment disk dir [] [] (EmptyString, 0) w = None).
Proof.
  intros cv disk blurred_bg path H.
  assert (Hfc : forall bg w, FindContour.process_popped disk bg path w = None).
  { intros bg w. unfold FindContour.process_popped. unfold bind at 1 2. unfold uninitialized.
    apply FindContour_process_single_image_unreadable. exact H. }
  split; [|split; [|split]].
  - intros e w. unfold FindContour.worker_body. unfold bind at 1. rewrite Hfc. reflexivity.
  - intros e w. rewrite TimeSkip_worker_body_eval.
    rewrite TimeSkip_process_single_image_unreadable by exact H. reflexivity.
  - intros e w. unfold MaxTime.worker_body, MaxTime.process_popped.
    unfold bind at 1 2. unfold uninitialized.
    rewrite MaxTime_process_single_image_unreadable by exact H. reflexivity.
  - intros dir entries w Hdir Hin Hbg.
    rewrite FindContour_run_experiment_eval. cbv zeta. rewrite Hbg, Hdir.
    destruct (GaussianBlur (file_image disk (dir ++ "/background.tiff")))
      as [bg|]; [|reflexivity].
    unfold FindContour.image_queue.
    rewrite (mapM_throws _ _ _ Hin (Hfc bg)). reflexivity.
Qed.

Lemma C8_unreadable_frame_ends_the_run_witness :
  FindContour.run_experiment (Fake.damaged "dir") "dir" [] [] (EmptyString, 0)
    (Fake.world 10) = None /\
  FindContour.main_with 3 (fun _ => Fake.damaged FindContour.directory) (Fake.world 10)
  = None.
Proof.
  split.
  - destruct (@C8_unreadable_frame_ends_the_run Fake.cv (Fake.damaged "dir")
                Fake.background (Fake.frame "dir" "x.tiff") eq_refl) as (_ & _ & _ & H).
    apply (H "dir"%string
             (map (fun f => fs.mk_path "dir" (fst f))
                [("background.tiff"%string, Fake.background);
                 ("a.tiff"%string, Fake.cell 10); ("x.tiff"%string, None);
                 ("c.tiff"%string, Fake.speck)])).
    + reflexivity.
    + right. left. reflexivity.
    + reflexivity.
  - vm_compute. reflexivity.
Defined.

(** pixel.cpp reports a missing directory or background and returns -1. *)
Lemma Pixel_main_unreadable_background :
  forall (cv : OpenCV) (disk : Disk) (w : World),
    (dir_entries disk Pixel.directory = None \/
     Mat_empty (file_image disk (Pixel.directory ++ "/background.tiff")%string) = true) ->
    exists w', Pixel.main disk w = Some ((-1)%Z, w').
Proof.
  intros cv disk w H. unfold Pixel.main. cbv zeta.
  destruct (dir_entries disk Pixel.directory) as [entries|].
  - destruct H as [H|H]; [discriminate|].
    unfold bind at 1. unfold imread at 1. unfold bind at 1. unfold emit at 1, ret at 1.
    rewrite H. eexists. reflexivity.
  - eexists. reflexivity.
Qed.

(** * Further properties of the programs *)

(** ** The accumulators of findcontour_time_10000.cpp *)

Section FindContourAccounts.
Import FindContour FindContourLocked.

Lemma column_sum_snoc : forall (A : Type) (column : A -> double) rows row acc,
  column_sum column (rows ++ [row]) acc = column_sum column rows acc + column row.
Proof. intros. unfold column_sum. rewrite fold_left_app. reflexivity. Qed.

Lemma FindContour_accounts_fresh : FindContour_accounts [] fresh.
Proof.
  repeat split; try reflexivity.
  - intros row [].
  - discriminate.
Qed.

Lemma FindContour_accounts_commit : forall done e j,
  FindContour_accounts done e -> FindContour_accounts (done ++ [j]) (commit e j).
Proof.
  intros done e [path r] (Ht & Hf & Hmax & H0 & Hlen & Hsk).
  unfold FindContour_accounts, commit, aggregate. simpl fst. simpl snd.
  rewrite filter_app, map_app, length_app. simpl filter.
  destruct (Qgtb (duration r) 0) eqn:E0; simpl negb; cbv iota.
  - apply Qgtb_gt in E0.
    destruct (Qgtb (duration r) (max_process_time e)) eqn:E1; simpl;
      rewrite !column_sum_snoc, length_app, app_nil_r; simpl;
      (split; [rewrite Ht; reflexivity|]);
      (split; [rewrite Hf; reflexivity|]).
    + apply Qgtb_gt in E1. split; [|split; [lra|split; [lia | exact Hsk]]].
      intros row Hrow. apply in_app_or in Hrow. destruct Hrow as [Hrow|[<-|[]]].
      * specialize (Hmax row Hrow). lra.
      * simpl. lra.
    + apply Qgtb_le in E1. split; [|split; [exact H0|split; [lia | exact Hsk]]].
      intros row Hrow. apply in_app_or in Hrow. destruct Hrow as [Hrow|[<-|[]]].
      * auto.
      * exact E1.
  - simpl. rewrite length_app. simpl.
    repeat split; try assumption; [lia | rewrite Hsk; reflexivity].
Qed.

Lemma FindContour_accounts_fold : forall jobs done e,
  FindContour_accounts done e ->
  FindContour_accounts (done ++ jobs) (fold_left commit jobs e).
Proof.
  induction jobs as [|j jobs IH]; intros done e He; simpl.
  - rewrite app_nil_r. exact He.
  - replace (done ++ j :: jobs) with ((done ++ [j]) ++ jobs)
      by (rewrite <- app_assoc; reflexivity).
    apply IH. apply FindContour_accounts_commit. exact He.
Qed.

End FindContourAccounts.

(** X1.  findcontour_time_10000.cpp, any number of worker threads in any
    interleaving: whenever the mutex is free, no update has been lost.
    [number] is the number of rows of [results]; [total_time] and
    [total_findcontour_time] are the sums of the two time columns of
    [results], added in row order from 0; every row has a positive time that
    is at most [max_process_time]; rows and skipped paths together are as
    many as the scopes completed; and the skipped paths are those of the
    frames whose measured time was not positive, in the order their scopes
    completed. *)
Theorem X1_no_lost_update_in_findcontour_accounts :
  forall c : Locked.Config FindContourLocked.Job FindContour.Experiment FindContourLocked.Pc,
    FindContourLocked.reachable c ->
    Locked.mtx c = None ->
    let e := Locked.shared c in
    FindContour.number e = Z.of_nat (List.length (FindContour.results e)) /\
    FindContour.total_time e = column_sum row_time5 (FindContour.results e) 0 /\
    FindContour.total_findcontour_time e
      = column_sum row_findcontour5 (FindContour.results e) 0 /\
    (forall row, In row (FindContour.results e) ->
       0 < row_time5 row /\ row_time5 row <= FindContour.max_process_time e) /\
    (List.length (FindContour.results e) + List.length (FindContour.skipped_images e)
     = List.length (Locked.history c))%nat /\
    FindContour.skipped_images e =
      map (fun j => fs.to_string (fst j))
          (filter (fun j => negb (Qgtb (FindContour.duration (snd j)) 0))
                  (Locked.history c)).
Proof.
  intros c Hc Hm e.
  pose proof (Locked_quiescent FindContourLocked.commit FindContour_exec_commit Hc Hm)
    as Hq.
  unfold e. rewrite Hq.
  destruct (FindContour_inv_fold (Locked.history c) FindContour_inv_fresh)
    as (Hn & Hpos & _).
  destruct (FindContour_accounts_fold (Locked.history c) FindContour_accounts_fresh)
    as (Ht & Hf & Hmax & _ & Hlen & Hsk).
  simpl app in Hlen, Hsk.
  split; [exact Hn|]. split; [exact Ht|]. split; [exact Hf|].
  split; [|split; [exact Hlen | exact Hsk]].
  intros row Hrow. split; [apply Hpos | apply Hmax]; exact Hrow.
Qed.

Lemma X1_no_lost_update_in_findcontour_accounts_witness :
  exists c,
    FindContourLocked.reachable c /\ Locked.mtx c = None /\
    FindContour.total_time (Locked.shared c) = 0 + 30 /\
    FindContour.number (Locked.shared c) = 1%Z.
Proof.
  destruct FindContour_one_scope as (c & _ & Hc & Hm & Hh & _).
  exists c. split; [exact Hc|]. split; [exact Hm|].
  destruct (X1_no_lost_update_in_findcontour_accounts Hc Hm) as (Hn & Ht & _).
  pose proof (Locked_quiescent FindContourLocked.commit FindContour_exec_commit Hc Hm)
    as Hq.
  rewrite Hh in Hq. rewrite Hn, Ht, Hq. split; reflexivity.
Defined.

(** ** What a run reads *)

Lemma mapM_imread_files : forall (A B : Type) (f : A -> M B) (name : A -> string),
  (forall x w y w', f x w = Some (y, w') ->
     imread_files (events w') = name x :: imread_files (events w)) ->
  forall l w ys w', mapM f l w = Some (ys, w') ->
    imread_files (events w') = rev (map name l) ++ imread_files (events w).
Proof.
  intros A B f name Hf l. induction l as [|x l IH]; intros w ys w' H; simpl in H.
  - inversion H; subst. reflexivity.
  - apply bind_Some in H. destruct H as (y & w1 & Hy & H).
    apply bind_Some in H. destruct H as (ys' & w2 & Hys & H).
    inversion H; subst; clear H.
    rewrite (IH _ _ _ Hys), (Hf _ _ _ _ Hy). simpl.
    rewrite <- app_assoc. reflexivity.
Qed.

Section Reads.
Context {cv : OpenCV}.

Lemma FindContour_process_popped_reads : forall disk blurred_bg path w r w',
  FindContour.process_popped disk blurred_bg path w = Some (r, w') ->
  imread_files (events w') = fs.to_string path :: imread_files (events w).
Proof.
  intros disk blurred_bg path w r w' H.
  unfold FindContour.process_popped in H. unfold bind at 1 2 in H.
  unfold uninitialized in H. rewrite FindContour_process_single_image_eval in H.
  destruct (white_pixel_count _ _) as [n|]; [|discriminate].
  destruct (extracted_contours _ _) as [cs|]; [|discriminate].
  destruct ((n <? 250)%Z || (n >? 650)%Z); inversion H; subst; clear H.
  - reflexivity.
  - destruct cs; reflexivity.
Qed.

Lemma TimeSkip_process_popped_reads : forall disk blurred_bg path w rp w',
  TimeSkip.process_popped disk blurred_bg path w = Some (rp, w') ->
  imread_files (events w') = fs.to_string path :: imread_files (events w).
Proof.
  intros disk blurred_bg path w rp w' H.
  unfold TimeSkip.process_popped in H. unfold bind at 1 in H.
  unfold uninitialized in H. rewrite TimeSkip_process_single_image_eval in H.
  destruct (extracted_contours _ _) as [cs|]; [|discriminate].
  cbv zeta in H.
  destruct (Qgtb (clock w (1 + ticks w) - clock w (ticks w)) 200);
    [inversion H; subst; reflexivity|].
  destruct (Qgtb (clock w (2 + ticks w) - clock w (ticks w)) 200);
    [inversion H; subst; reflexivity|].
  inversion H; subst; clear H. destruct cs; reflexivity.
Qed.

Lemma MaxTime_process_popped_reads : forall disk blurred_bg path w r w',
  MaxTime.process_popped disk blurred_bg path w = Some (r, w') ->
  imread_files (events w') = fs.to_string path :: imread_files (events w).
Proof.
  intros disk blurred_bg path w r w' H.
  unfold MaxTime.process_popped in H. unfold bind at 1 in H.
  unfold uninitialized in H. rewrite MaxTime_process_single_image_eval in H.
  destruct (extracted_contours _ _) as [cs|]; [|discriminate].
  inversion H; subst; clear H. destruct cs; reflexivity.
Qed.

End Reads.

(** X2.  A run that returns has read, in this order, the background once
    and then every enumerated frame exactly once, in the order the directory
    lists them; no file is read twice and no other file is read
    (findcontour_time_10000.cpp, time_skip.cpp).  max_time.cpp, whose
    [run_experiment] is handed the background, reads exactly the enumerated
    frames.  A frame is never a file named background.tiff and always has the
    extension .tiff. *)
Theorem X2_each_frame_is_read_once_in_order :
  forall (cv : OpenCV) (disk : Disk) (dir : string) (entries : list fs.path) (w : World),
    dir_entries disk dir = Some entries ->
    let frames := map fs.to_string (filter is_frame entries) in
    let background_path := (dir ++ "/background.tiff")%string in
    (forall e w',
       Mat_empty (file_image disk background_path) = false ->
       FindContour.run_experiment disk dir [] [] (EmptyString, 0) w = Some (e, w') ->
       rev (imread_files (events w'))
       = rev (imread_files (events w)) ++ background_path :: frames) /\
    (forall e w',
       Mat_empty (file_image disk background_path) = false ->
       TimeSkip.run_experiment disk dir [] [] (EmptyString, 0) w = Some (e, w') ->
       rev (imread_files (events w'))
       = rev (imread_files (events w)) ++ background_path :: frames) /\
    (forall blurred_bg e w',
       MaxTime.run_experiment disk dir blurred_bg EmptyString w = Some (e, w') ->
       rev (imread_files (events w')) = rev (imread_files (events w)) ++ frames) /\
    (forall path, In path (filter is_frame entries) ->
       fs.filename path <> "background.tiff"%string /\
       fs.extension path = ".tiff"%string).
Proof.
  intros cv disk dir entries w Hdir frames background_path.
  split; [|split; [|split]].
  - intros e w' Hbg H. rewrite FindContour_run_experiment_eval in H. cbv zeta in H.
    fold background_path in H. rewrite Hbg, Hdir in H.
    destruct (GaussianBlur (file_image disk background_path)); [|discriminate].
    destruct (mapM _ _ _) as [[rs w1]|] eqn:Em; [|discriminate].
    inversion H; subst; clear H.
    rewrite (mapM_imread_files _ fs.to_string
               (@FindContour_process_popped_reads cv disk m) _ _ Em).
    simpl. rewrite rev_app_distr, rev_involutive. simpl.
    rewrite <- app_assoc. reflexivity.
  - intros e w' Hbg H. rewrite TimeSkip_run_experiment_eval in H. cbv zeta in H.
    fold background_path in H. rewrite Hbg, Hdir in H.
    destruct (GaussianBlur (file_image disk background_path)); [|discriminate].
    destruct (mapM _ _ _) as [[rs w1]|] eqn:Em; [|discriminate].
    inversion H; subst; clear H.
    rewrite (mapM_imread_files _ fs.to_string
               (@TimeSkip_process_popped_reads cv disk m) _ _ Em).
    simpl. rewrite rev_app_distr, rev_involutive. simpl.
    rewrite <- app_assoc. reflexivity.
  - intros blurred_bg e w' H. rewrite MaxTime_run_experiment_eval, Hdir in H.
    destruct (mapM _ _ _) as [[rs w1]|] eqn:Em; [|discriminate].
    inversion H; subst; clear H.
    rewrite (mapM_imread_files _ fs.to_string
               (@MaxTime_process_popped_reads cv disk blurred_bg) _ _ Em).
    rewrite rev_app_distr, rev_involutive. reflexivity.
  - intros path Hin. apply filter_In in Hin. destruct Hin as [_ Hf].
    unfold is_frame in Hf. apply andb_true_iff in Hf. destruct Hf as [He Hb].
    apply String.eqb_eq in He. apply negb_true_iff in Hb.
    apply String.eqb_neq in Hb. split; assumption.
Qed.

Lemma X2_each_frame_is_read_once_in_order_witness :
  exists e w',
    FindContour.run_experiment (Fake.sample "dir") "dir" [] [] (EmptyString, 0)
      (Fake.world 10) = Some (e, w') /\
    rev (imread_files (events w'))
    = ["dir/background.tiff"; "dir/a.tiff"; "dir/b.tiff"; "dir/c.tiff"; "dir/d.tiff"]%string.
Proof.
  destruct (FindContour.run_experiment (Fake.sample "dir") "dir" [] [] (EmptyString, 0)
              (Fake.world 10)) as [[e w']|] eqn:E; [|vm_compute in E; discriminate E].
  exists e, w'. split; [reflexivity|].
  destruct (@X2_each_frame_is_read_once_in_order Fake.cv (Fake.sample "dir") "dir"
              (map (fun f => fs.mk_path "dir" (fst f)) Fake.files) (Fake.world 10) eq_refl)
    as (H & _).
  rewrite (H e w' eq_refl E). reflexivity.
Defined.

(** ** The metrics are all zero or all positive *)

Lemma Qdiv_pos : forall a b : Q, 0 < a -> 0 < b -> 0 < a / b.
Proof.
  intros a b Ha Hb. unfold Qdiv. apply Qmult_lt_0_compat; [exact Ha|].
  apply Qinv_lt_0_compat. exact Hb.
Qed.

Lemma circularity_pos : forall area perimeter : Q,
  0 < area -> 0 < perimeter -> 0 < 4 * M_PI * area / (perimeter * perimeter).
Proof.
  intros area perimeter Ha Hp. apply Qdiv_pos.
  - apply Qmult_lt_0_compat; [|exact Ha]. reflexivity.
  - apply Qmult_lt_0_compat; exact Hp.
Qed.

(** X3.  [calculate_contour_metrics] returns either the all-zero record or a
    record whose six fields are all strictly positive; there is nothing in
    between.  So a ratio of exactly zero in a row of [results] can only come
    from a frame without a usable contour. *)
Theorem X3_metrics_are_all_zero_or_all_positive :
  forall (cv : OpenCV) (contours : list Contour),
    let m := calculate_contour_metrics contours in
    (m = ContourMetrics_default \/ all_positive m) /\
    (circularity_ratio m == 0 -> m = ContourMetrics_default) /\
    (area_ratio m == 0 -> m = ContourMetrics_default).
Proof.
  intros cv contours m.
  assert (H : m = ContourMetrics_default \/ all_positive m).
  { unfold m. destruct contours as [|first rest]; [left; reflexivity|].
    simpl. set (cnt := max_element area_less first rest).
    unfold metrics_of_contour.
    destruct (Qle_bool (contourArea cnt) 1e-6) eqn:E1; [left; reflexivity|].
    destruct (Qle_bool (arcLength cnt) 1e-6) eqn:E2; [left; reflexivity|].
    destruct (Qle_bool (contourArea (convexHull cnt)) 1e-6) eqn:E3; [left; reflexivity|].
    destruct (Qle_bool (arcLength (convexHull cnt)) 1e-6) eqn:E4; [left; reflexivity|].
    right. simpl.
    assert (Heps : 0 < 1e-6) by reflexivity.
    assert (Hgt : forall x, Qle_bool x 1e-6 = false -> 0 < x).
    { intros x Hx. destruct (Qlt_le_dec 1e-6 x) as [Hlt|Hle].
      - lra.
      - apply Qle_bool_iff in Hle. congruence. }
    apply Hgt in E1, E2, E3, E4.
    unfold all_positive. simpl.
    repeat split; auto using Qdiv_pos, circularity_pos. }
  split; [exact H|].
  split; intro Hz; (destruct H as [H|H]; [exact H|]);
    destruct H as (_ & _ & Ha & _ & _ & Hc); exfalso; lra.
Qed.

(** ** When the report of findcontour_time_10000.cpp is right *)

Lemma last_map : forall (A B : Type) (f : A -> B) (l : list A) (d : A),
  last (map f l) (f d) = f (last l d).
Proof.
  intros A B f l d. induction l as [|x l IH]; [reflexivity|].
  destruct l as [|y l]; [reflexivity|]. exact IH.
Qed.

(** X4.  When every repetition ends with the same positive number of
    successes, each of the four averages [main] prints is the sum of its
    column over every success of every repetition divided by the number of
    all successes, and [main] returns 0. *)
Theorem X4_report_is_pooled_when_runs_agree :
  forall (cv : OpenCV) (repetitions n : nat) (disk_at : nat -> Disk)
         (w w1 : World) (es : list FindContour.Experiment),
    mapM (FindContour_run repetitions disk_at) (seq 0 repetitions) w = Some (es, w1) ->
    (forall e, In e es -> List.length (FindContour.results e) = n) ->
    (0 < n * repetitions)%nat ->
    let runs := map FindContour.results es in
    FindContour.main_with repetitions disk_at w =
    Some (0%Z,
          mk_world (clock w1) (ticks w1) (indeterminate w1)
            (Averages (pooled_average row_circularity5 runs)
                      (pooled_average row_area5 runs)
                      (pooled_average row_time5 runs)
                      (pooled_average row_findcontour5 runs)
             :: events w1)).
Proof.
  intros cv repetitions n disk_at w w1 es Hm Hall Hpos runs.
  rewrite FindContour_main_eval, Hm. cbv zeta. fold runs.
  assert (Hlen : List.length runs = repetitions).
  { unfold runs. rewrite length_map, (mapM_length _ _ _ Hm), length_seq. reflexivity. }
  assert (Hruns : forall rows, In rows runs -> List.length rows = n).
  { intros rows Hin. unfold runs in Hin. apply in_map_iff in Hin.
    destruct Hin as (e & <- & He). apply Hall. exact He. }
  rewrite <- Hlen in Hpos |- * at 1 2 3 4.
  rewrite !(FindContour_average_when_runs_agree _ runs Hruns Hpos). reflexivity.
Qed.

Lemma X4_report_is_pooled_when_runs_agree_witness :
  option_map (fun r => (fst r, hd_error (events (snd r))))
    (FindContour.main_with 2 (Fake.shrinking 5) (Fake.world 10))
  = Some (0%Z, Some (Averages (0 # 4) (0 # 4) (120 # 4) (40 # 4))).
Proof.
  destruct (mapM (FindContour_run 2 (Fake.shrinking 5)) (seq 0 2) (Fake.world 10))
    as [[es w1]|] eqn:E; [|vm_compute in E; discriminate E].
  assert (Hes : map FindContour.results es =
                [[("Test_images/512x96crop/c.tiff"%string, 0, 0, 30, 10);
                  ("Test_images/512x96crop/e.tiff"%string, 0, 0, 30, 10)];
                 [("Test_images/512x96crop/c.tiff"%string, 0, 0, 30, 10);
                  ("Test_images/512x96crop/e.tiff"%string, 0, 0, 30, 10)]]).
  { vm_compute in E. inversion E; subst. reflexivity. }
  rewrite (@X4_report_is_pooled_when_runs_agree Fake.cv 2 2 (Fake.shrinking 5)
             (Fake.world 10) w1 es E).
  - cbv zeta. rewrite Hes. reflexivity.
  - intros e He. apply (in_map FindContour.results) in He. rewrite Hes in He.
    destruct He as [<-|[<-|[]]]; reflexivity.
  - lia.
Defined.

(** X5.  When the last repetition ends without a success (an empty
    directory, every frame skipped, an unreadable background), or when there
    is no repetition at all, [main] divides nothing: it prints 0 for the four
    averages, whatever the earlier repetitions measured, and returns 0. *)
Theorem X5_report_is_zero_when_last_run_is_empty :
  forall (cv : OpenCV) (repetitions : nat) (disk_at : nat -> Disk)
         (w w1 : World) (es : list FindContour.Experiment),
    mapM (FindContour_run repetitions disk_at) (seq 0 repetitions) w = Some (es, w1) ->
    FindContour.results (last es FindContourLocked.fresh) = [] ->
    FindContour.main_with repetitions disk_at w =
    Some (0%Z,
          mk_world (clock w1) (ticks w1) (indeterminate w1)
            (Averages 0 0 0 0 :: events w1)).
Proof.
  intros cv repetitions disk_at w w1 es Hm Hlast.
  rewrite FindContour_main_eval, Hm. cbv zeta.
  change (@nil FindContour.Row) with (FindContour.results FindContourLocked.fresh) at 1 2 3 4.
  rewrite last_map, Hlast. reflexivity.
Qed.

Lemma X5_report_is_zero_when_last_run_is_empty_witness :
  option_map (fun r => (fst r, hd_error (events (snd r))))
    (FindContour.main_with 2
       (fun i => if (i =? 0)%nat then Fake.shrinking 5 0 else Fake.headless FindContour.directory)
       (Fake.world 10))
  = Some (0%Z, Some (Averages 0 0 0 0)).
Proof.
  set (d := fun i => if (i =? 0)%nat then Fake.shrinking 5 0
                     else Fake.headless FindContour.directory).
  destruct (mapM (FindContour_run 2 d) (seq 0 2) (Fake.world 10))
    as [[es w1]|] eqn:E; [|vm_compute in E; discriminate E].
  rewrite (@X5_report_is_zero_when_last_run_is_empty Fake.cv 2 d (Fake.world 10) w1 es E).
  - reflexivity.
  - vm_compute in E. inversion E; subst. reflexivity.
Defined.

(** ** time_skip.cpp: the budget, the maximum and the report *)

Lemma mapM_Forall2 : forall (A B : Type) (f : A -> M B) (P : A -> B -> Prop),
  (forall x w y w', f x w = Some (y, w') -> P x y) ->
  forall l w ys w', mapM f l w = Some (ys, w') -> Forall2 P l ys.
Proof.
  intros A B f P Hf l. induction l as [|x l IH]; intros w ys w' H; simpl in H.
  - inversion H; subst. constructor.
  - apply bind_Some in H. destruct H as (y & w1 & Hy & H).
    apply bind_Some in H. destruct H as (ys' & w2 & Hys & H).
    inversion H; subst; clear H. constructor; eauto.
Qed.

Lemma Forall2_combine : forall (A B : Type) (P : A -> B -> Prop) l ys,
  Forall2 P l ys -> Forall (fun xy => P (fst xy) (snd xy)) (combine l ys).
Proof.
  intros A B P l ys H. induction H; simpl; constructor; auto.
Qed.

Section TimeSkipBudget.
Context {cv : OpenCV}.
Import TimeSkip.

Lemma TimeSkip_process_popped_budget : forall disk blurred_bg path w rp w',
  process_popped disk blurred_bg path w = Some (rp, w') -> within_budget rp.
Proof.
  intros disk blurred_bg path w rp w' H.
  unfold process_popped in H. unfold bind at 1 in H. unfold uninitialized in H.
  rewrite TimeSkip_process_single_image_eval in H.
  destruct (extracted_contours _ _) as [cs|]; [|discriminate].
  cbv zeta in H.
  destruct (Qgtb (clock w (1 + ticks w) - clock w (ticks w)) 200) eqn:E1.
  - inversion H; subst. apply Qgtb_gt in E1. exact E1.
  - destruct (Qgtb (clock w (2 + ticks w) - clock w (ticks w)) 200) eqn:E2;
      inversion H; subst.
    + apply Qgtb_gt in E2. exact E2.
    + apply Qgtb_le in E2. exact E2.
Qed.

Lemma TimeSkip_accounts_commit : forall e j,
  within_budget (snd j) -> TimeSkip_accounts e -> TimeSkip_accounts (commit e j).
Proof.
  intros e [path [r processed]] Hb (Ht & Hrows & Hsk & Hmax).
  unfold within_budget in Hb. simpl in Hb.
  unfold TimeSkip_accounts, commit, aggregate. simpl fst. simpl snd. cbv iota beta.
  destruct processed.
  - set (row := (fs.to_string path, circularity_ratio (metrics r), area_ratio (metrics r),
                 duration r) : Row).
    assert (Hrows' : forall x, In x (results e ++ [row]) -> row_time4 x <= 200).
    { intros x Hx. apply in_app_or in Hx. destruct Hx as [Hx|[<-|[]]]; [auto | exact Hb]. }
    destruct (Qgtb (duration r) (max_process_time e)) eqn:E1; simpl;
      rewrite column_sum_snoc;
      (split; [rewrite Ht; reflexivity|]); (split; [exact Hrows'|]);
      (split; [exact Hsk|]).
    + apply Qgtb_gt in E1. right. exists row.
      destruct Hmax as [(Hz & _ & Hle)|(top & Htop & Hpos & _ & Hmt)].
      * rewrite Hz in E1. split; [|split; [exact E1 | split; reflexivity]].
        apply first_argmax_snoc_new. intros z Hz'. specialize (Hle z Hz').
        change (row_time4 row) with (duration r). lra.
      * rewrite Hmt in E1. split; [|split; [|split; reflexivity]].
        -- apply first_argmax_snoc_new. intros z Hz'.
           pose proof (first_argmax_le Htop z Hz').
           change (row_time4 row) with (duration r). lra.
        -- change (row_time4 row) with (duration r). lra.
    + apply Qgtb_le in E1.
      destruct Hmax as [(Hz & Hi & Hle)|(top & Htop & Hpos & Hi & Hmt)].
      * left. split; [exact Hz|]. split; [exact Hi|].
        intros x Hx. apply in_app_or in Hx. destruct Hx as [Hx|[<-|[]]]; [auto|].
        rewrite Hz in E1. exact E1.
      * right. exists top. split; [|split; [exact Hpos | split; assumption]].
        apply first_argmax_snoc_keep; [exact Htop|]. rewrite Hmt in E1. exact E1.
  - simpl. split; [exact Ht|]. split; [exact Hrows|]. split; [|exact Hmax].
    intros image Hin. apply in_app_or in Hin. destruct Hin as [Hin|[<-|[]]]; [auto|].
    exact Hb.
Qed.

Lemma TimeSkip_accounts_fold : forall jobs e,
  Forall (fun j => within_budget (snd j)) jobs ->
  TimeSkip_accounts e -> TimeSkip_accounts (fold_left commit jobs e).
Proof.
  induction jobs as [|j jobs IH]; intros e Hall He; simpl.
  - exact He.
  - inversion Hall; subst. apply IH; [assumption|].
    apply TimeSkip_accounts_commit; assumption.
Qed.

Lemma TimeSkip_accounts_run : forall disk dir w e w',
  run_experiment disk dir [] [] (EmptyString, 0) w = Some (e, w') ->
  TimeSkip_accounts e.
Proof.
  intros disk dir w e w' H.
  assert (Hfresh : TimeSkip_accounts (mk_experiment 0 0 0 [] [] (EmptyString, 0))).
  { split; [reflexivity|]. split; [intros row []|]. split; [intros image []|].
    left. repeat split. intros row []. }
  rewrite TimeSkip_run_experiment_eval in H. cbv zeta in H.
  destruct (Mat_empty _).
  - inversion H; subst. exact Hfresh.
  - destruct (GaussianBlur _) as [blurred_bg|]; [|discriminate].
    destruct (dir_entries disk dir) as [entries|]; [|discriminate].
    destruct (mapM _ _ _) as [[rs w1]|] eqn:Em; [|discriminate].
    inversion H; subst; clear H.
    apply TimeSkip_accounts_fold; [|exact Hfresh].
    apply Forall2_combine with (P := fun (_ : fs.path) rp => within_budget rp).
    eapply mapM_Forall2; [|exact Em].
    intros path w0 rp w2 Hp. exact (TimeSkip_process_popped_budget _ _ _ _ Hp).
Qed.

End TimeSkipBudget.

(** X6.  In a run of time_skip.cpp that returns, every row of [results] has
    a time of at most 200 microseconds and every entry of [skipped_images]
    carries a time above 200: the two lists are separated by the budget.
    [total_time] is the sum of the times of the rows, added in row order. *)
Theorem X6_budget_separates_results_from_skips :
  forall (cv : OpenCV) (disk : Disk) (dir : string) (w w' : World) (e : TimeSkip.Experiment),
    TimeSkip.run_experiment disk dir [] [] (EmptyString, 0) w = Some (e, w') ->
    (forall row, In row (TimeSkip.results e) -> row_time4 row <= 200) /\
    (forall image, In image (TimeSkip.skipped_images e) -> 200 < snd image) /\
    TimeSkip.total_time e = column_sum row_time4 (TimeSkip.results e) 0.
Proof.
  intros cv disk dir w w' e H.
  destruct (TimeSkip_accounts_run _ _ _ H) as (Ht & Hrows & Hsk & _).
  repeat split; assumption.
Qed.

(** X7.  time_skip.cpp starts its maximum at 0 and replaces it only by a
    strictly greater time.  So when a run returns and some row of [results]
    has a positive time, [max_time_image] is the path and time of the row of
    greatest time, the first such row; but when no row has a positive time
    (no success, or a clock that did not advance), [max_time_image] is still
    the empty path with time 0, whatever [results] holds. *)
Theorem X7_time_skip_maximum_starts_at_zero :
  forall (cv : OpenCV) (disk : Disk) (dir : string) (w w' : World) (e : TimeSkip.Experiment),
    TimeSkip.run_experiment disk dir [] [] (EmptyString, 0) w = Some (e, w') ->
    ((exists row, In row (TimeSkip.results e) /\ 0 < row_time4 row) ->
     exists top,
       first_argmax row_time4 (TimeSkip.results e) top /\
       TimeSkip.max_time_image e = (row_path4 top, row_time4 top) /\
       TimeSkip.max_process_time e = row_time4 top) /\
    ((forall row, In row (TimeSkip.results e) -> row_time4 row <= 0) ->
     TimeSkip.max_time_image e = (EmptyString, 0) /\
     TimeSkip.max_process_time e = 0).
Proof.
  intros cv disk dir w w' e H.
  destruct (TimeSkip_accounts_run _ _ _ H) as (_ & _ & _ & Hmax).
  split.
  - intros (row & Hin & Hpos).
    destruct Hmax as [(_ & _ & Hle)|(top & Htop & _ & Hi & Hm)].
    + specialize (Hle row Hin). lra.
    + exists top. repeat split; assumption.
  - intro Hle.
    destruct Hmax as [(Hz & Hi & _)|(top & Htop & Hpos & _)].
    + split; assumption.
    + specialize (Hle top (first_argmax_In Htop)). lra.
Qed.

Lemma X6_budget_separates_results_from_skips_witness :
  exists e w',
    TimeSkip.run_experiment (Fake.sample "dir") "dir" [] [] (EmptyString, 0)
      (Fake.world 150) = Some (e, w') /\
    TimeSkip.results e = [] /\
    (forall image, In image (TimeSkip.skipped_images e) -> 200 < snd image) /\
    List.length (TimeSkip.skipped_images e) = 4%nat.
Proof.
  destruct (TimeSkip.run_experiment (Fake.sample "dir") "dir" [] [] (EmptyString, 0)
              (Fake.world 150)) as [[e w']|] eqn:E; [|vm_compute in E; discriminate E].
  exists e, w'. split; [reflexivity|].
  destruct (@X6_budget_separates_results_from_skips Fake.cv _ _ _ _ _ E) as (_ & Hsk & _).
  assert (H : TimeSkip.results e = [] /\ List.length (TimeSkip.skipped_images e) = 4%nat).
  { vm_compute in E. inversion E; subst. split; reflexivity. }
  destruct H as [Hr Hl]. split; [exact Hr|]. split; [exact Hsk | exact Hl].
Defined.

Lemma X7_time_skip_maximum_starts_at_zero_witness :
  exists e w',
    TimeSkip.run_experiment (Fake.sample "dir") "dir" [] [] (EmptyString, 0)
      (Fake.world 0) = Some (e, w') /\
    List.length (TimeSkip.results e) = 4%nat /\
    TimeSkip.max_time_image e = (EmptyString, 0).
Proof.
  destruct (TimeSkip.run_experiment (Fake.sample "dir") "dir" [] [] (EmptyString, 0)
              (Fake.world 0)) as [[e w']|] eqn:E; [|vm_compute in E; discriminate E].
  exists e, w'. split; [reflexivity|].
  destruct (@X7_time_skip_maximum_starts_at_zero Fake.cv _ _ _ _ _ E) as (_ & Hzero).
  assert (H : List.length (TimeSkip.results e) = 4%nat /\
              forall row, In row (TimeSkip.results e) -> row_time4 row <= 0).
  { vm_compute in E. inversion E; subst. split; [reflexivity|].
    intros row Hin. repeat (destruct Hin as [<-|Hin]; [discriminate|]). destruct Hin. }
  destruct H as [Hl Hle]. split; [exact Hl|]. exact (proj1 (Hzero Hle)).
Defined.

(** ** What time_skip.cpp prints *)

Lemma filename_of_to_string : forall p : fs.path,
  fs.after_last_slash (fs.filename p) = None ->
  fs.filename_of (fs.to_string p) = fs.filename p.
Proof.
  intros [parent name] H. simpl in H.
  unfold fs.filename_of, fs.to_string, fs.parent_path, fs.filename.
  change ("/" ++ name)%string with (String "/" name).
  assert (Hs : fs.after_last_slash (parent ++ String "/" name)%string = Some name).
  { induction parent as [|c parent IH]; simpl.
    - rewrite H. reflexivity.
    - rewrite IH. reflexivity. }
  rewrite Hs. reflexivity.
Qed.

Lemma column_sum_le : forall (A : Type) (column : A -> double) (bound : Q) rows acc,
  (forall row, In row rows -> column row <= bound) ->
  column_sum column rows acc <= acc + inject_Z (Z.of_nat (List.length rows)) * bound.
Proof.
  intros A column bound rows. induction rows as [|row rows IH]; intros acc H.
  - change (acc <= acc + 0 * bound). lra.
  - unfold column_sum in *. simpl fold_left.
    eapply Qle_trans; [apply IH; intros r Hr; apply H; right; exact Hr|].
    assert (Hrow : column row <= bound) by (apply H; left; reflexivity).
    change (List.length (row :: rows)) with (S (List.length rows)).
    rewrite Nat2Z.inj_succ. unfold Z.succ. rewrite inject_Z_plus.
    change (inject_Z 1) with 1. lra.
Qed.

Section TimeSkipReport.
Context {cv : OpenCV}.
Import TimeSkip.

Lemma TimeSkip_main_eval : forall disk w,
  main disk w =
  match run_experiment disk directory [] [] (EmptyString, 0) w with
  | Some (e, w') =>
      Some ((0%Z,
             mk_report
               (map (fun result : Row =>
                       let '(p, circularity, area, time) := result in
                       (fs.filename_of p, circularity, area, time)) (results e))
               (map (fun image => (fs.filename_of (fst image), snd image))
                    (skipped_images e))
               (match results e with
                | [] => 0
                | _ :: _ => column_sum row_time4 (results e) 0
                            / inject_Z (Z.of_nat (List.length (results e)))
                end)
               (snd (max_time_image e)) (fs.filename_of (fst (max_time_image e)))),
            w')
  | None => None
  end.
Proof.
  intros disk w. unfold main. unfold bind.
  destruct (run_experiment disk directory [] [] (EmptyString, 0) w) as [[e w']|];
    [|reflexivity].
  unfold ret. do 4 f_equal.
  assert (Hfold : forall (rows : list Row) acc,
            fold_left (fun total (result : Row) =>
                         let '(_, _, _, time) := result in total + time) rows acc
            = column_sum row_time4 rows acc).
  { induction rows as [|[[[p c] a] t] rows IH]; intros acc; [reflexivity|].
    unfold column_sum in *. simpl. apply IH. }
  rewrite Hfold. reflexivity.
Qed.

End TimeSkipReport.

(** X8.  What time_skip.cpp prints after a run over a directory with a
    readable background: every enumerated frame appears exactly once, by
    its file name (the directory is stripped again), either among the
    processed images or among the skipped ones; the average time and the
    maximum time printed are at most the budget of 200 microseconds, the
    maximum is not negative, and the exit status is 0. *)
Theorem X8_time_skip_prints_each_frame_once :
  forall (cv : OpenCV) (disk : Disk) (entries : list fs.path) (w w' : World)
         (status : Z) (report : TimeSkip.Report),
    Mat_empty (file_image disk (TimeSkip.directory ++ "/background.tiff")%string) = false ->
    dir_entries disk TimeSkip.directory = Some entries ->
    (forall p, In p entries -> fs.after_last_slash (fs.filename p) = None) ->
    TimeSkip.main disk w = Some ((status, report), w') ->
    status = 0%Z /\
    Permutation (map row_path4 (TimeSkip.printed_results report)
                 ++ map fst (TimeSkip.printed_skipped report))
                (map fs.filename (filter is_frame entries)) /\
    (forall image, In image (TimeSkip.printed_skipped report) -> 200 < snd image) /\
    TimeSkip.average_time report <= 200 /\
    0 <= TimeSkip.max_time report <= 200.
Proof.
  intros cv disk entries w w' status report Hbg Hdir Hnames H.
  rewrite TimeSkip_main_eval in H.
  destruct (TimeSkip.run_experiment disk TimeSkip.directory [] [] (EmptyString, 0) w)
    as [[e w1]|] eqn:Er; [|discriminate].
  inversion H; subst; clear H. cbn [TimeSkip.printed_results TimeSkip.printed_skipped
                                     TimeSkip.average_time TimeSkip.max_time].
  destruct (TimeSkip_accounts_run _ _ _ Er) as (_ & Hrows & Hsk & Hmax).
  split; [reflexivity|]. split; [|split; [|split]].
  - rewrite TimeSkip_run_experiment_eval in Er. cbv zeta in Er.
    rewrite Hbg, Hdir in Er.
    destruct (GaussianBlur _) as [blurred_bg|]; [|discriminate].
    rewrite <- TimeSkip_worker_loop in Er.
    destruct (TimeSkip_loop_counts _ _ _ _ Er) as (_ & _ & Hp).
    apply (Permutation_map fs.filename_of) in Hp.
    rewrite map_app, !map_map in Hp. rewrite !map_map.
    erewrite (map_ext_in (fun x => fs.filename_of (fs.to_string x)) fs.filename) in Hp.
    + erewrite (map_ext (fun x => row_path4 (let '(p, c, a, t) := x in
                                            (fs.filename_of p, c, a, t)))
                        (fun x => fs.filename_of (row_path4 x))).
      * exact Hp.
      * intros [[[p c] a] t]. reflexivity.
    + intros p Hin. apply filename_of_to_string. apply Hnames.
      unfold TimeSkip.image_queue in Hin. apply filter_In in Hin. apply Hin.
  - intros image Hin. apply in_map_iff in Hin. destruct Hin as (x & <- & Hx).
    simpl. apply Hsk. exact Hx.
  - destruct (TimeSkip.results e) as [|row rows] eqn:Eres; [lra|].
    apply Qle_shift_div_r.
    + change 0 with (inject_Z 0). rewrite <- Zlt_Qlt. simpl List.length. lia.
    + pose proof (@column_sum_le _ row_time4 200 (row :: rows) 0 Hrows) as Hs. lra.
  - destruct Hmax as [(_ & Hi & _)|(top & Htop & Hpos & Hi & _)]; rewrite Hi; simpl.
    + lra.
    + pose proof (Hrows top (first_argmax_In Htop)). lra.
Qed.

Lemma X8_time_skip_prints_each_frame_once_witness :
  exists report w',
    TimeSkip.main (Fake.sample TimeSkip.directory) (Fake.world 70)
      = Some ((0%Z, report), w') /\
    Permutation (map row_path4 (TimeSkip.printed_results report)
                 ++ map fst (TimeSkip.printed_skipped report))
                ["a.tiff"; "b.tiff"; "c.tiff"; "d.tiff"]%string /\
    TimeSkip.average_time report <= 200.
Proof.
  destruct (TimeSkip.main (Fake.sample TimeSkip.directory) (Fake.world 70))
    as [[[status report] w']|] eqn:E; [|vm_compute in E; discriminate E].
  assert (Hbg : Mat_empty (file_image (Fake.sample TimeSkip.directory)
                             (TimeSkip.directory ++ "/background.tiff")%string) = false)
    by reflexivity.
  assert (Hdir : dir_entries (Fake.sample TimeSkip.directory) TimeSkip.directory
                 = Some (map (fun f => fs.mk_path TimeSkip.directory (fst f)) Fake.files))
    by reflexivity.
  assert (Hnames : forall p,
            In p (map (fun f => fs.mk_path TimeSkip.directory (fst f)) Fake.files) ->
            fs.after_last_slash (fs.filename p) = None).
  { intros p Hin. simpl in Hin.
    repeat (destruct Hin as [<-|Hin]; [reflexivity|]). destruct Hin. }
  destruct (@X8_time_skip_prints_each_frame_once Fake.cv _ _ _ _ _ _ Hbg Hdir Hnames E)
    as (Hs & Hp & _ & Ha & _).
  subst status. exists report, w'. split; [reflexivity|]. split; [exact Hp | exact Ha].
Defined.

(** X9.  time_skip.cpp does not abort when the background cannot be read:
    [run_experiment] writes one diagnostic and returns, and [main] goes on
    to print an empty list of processed images, an empty list of skipped
    images, an average of 0 and a maximum of 0 for an empty file name, and
    returns exit status 0; no frame is read. *)
Theorem X9_time_skip_unreadable_background_still_reports :
  forall (cv : OpenCV) (disk : Disk) (w : World),
    Mat_empty (file_image disk (TimeSkip.directory ++ "/background.tiff")%string) = true ->
    TimeSkip.main disk w =
    Some ((0%Z, TimeSkip.mk_report [] [] 0 0 EmptyString),
          mk_world (clock w) (ticks w) (indeterminate w)
            (Cerr ("Error: Could not read background image: "
                   ++ TimeSkip.directory ++ "/background.tiff")
             :: Imread (TimeSkip.directory ++ "/background.tiff") :: events w)).
Proof.
  intros cv disk w Hbg.
  rewrite TimeSkip_main_eval, TimeSkip_run_experiment_eval. cbv zeta.
  rewrite Hbg. reflexivity.
Qed.

Lemma X9_time_skip_unreadable_background_still_reports_witness :
  option_map fst (TimeSkip.main (Fake.headless TimeSkip.directory) (Fake.world 70))
  = Some (0%Z, TimeSkip.mk_report [] [] 0 0 EmptyString).
Proof.
  rewrite (@X9_time_skip_unreadable_background_still_reports Fake.cv
             (Fake.headless TimeSkip.directory) (Fake.world 70)); reflexivity.
Defined.

(** ** pixel.cpp: the extremes *)

Section PixelRun.
Context {cv : OpenCV}.

Lemma Pixel_process_single_image_eval :
  forall disk image_path blurred_bg max_info min_info w,
    Pixel.process_single_image disk image_path blurred_bg max_info min_info w =
    let image := file_image disk (fs.to_string image_path) in
    if Mat_empty image then
      Some ((max_info, min_info),
            mk_world (clock w) (ticks w) (indeterminate w)
              (Cout ("Unable to open or find image: " ++ fs.to_string image_path)
               :: Imread (fs.to_string image_path) :: events w))
    else
      match white_pixel_count image blurred_bg with
      | Some count =>
          Some (Pixel_update (max_info, min_info) (fs.filename image_path, count),
                mk_world (clock w) (ticks w) (indeterminate w)
                  (PixelCount (fs.filename image_path) count
                   :: Imread (fs.to_string image_path) :: events w))
      | None => None
      end.
Proof.
  intros disk image_path blurred_bg max_info min_info w. cbv zeta.
  destruct (Mat_empty (file_image disk (fs.to_string image_path))) eqn:Ee.
  - apply Pixel_process_single_image_unreadable. exact Ee.
  - unfold Pixel.process_single_image, white_pixel_count.
    unfold bind at 1. unfold imread at 1. unfold bind at 1. unfold emit at 1, ret at 1.
    rewrite Ee. unfold bind at 1.
    destruct (GaussianBlur (file_image disk (fs.to_string image_path))) as [blurred|];
      [|reflexivity].
    unfold try at 1, ret at 1. unfold bind at 1.
    destruct (subtract blurred_bg blurred) as [bg_sub|]; reflexivity.
Qed.

Lemma Pixel_loop : forall disk blurred_bg frames infos w infos' w',
  foldM (fun infos entry =>
           Pixel.process_single_image disk entry blurred_bg (fst infos) (snd infos))
        frames infos w = Some (infos', w') ->
  infos' = fold_left Pixel_update (measured disk blurred_bg frames) infos.
Proof.
  intros disk blurred_bg. induction frames as [|p frames IH]; intros infos w infos' w' H.
  - inversion H. reflexivity.
  - simpl foldM in H. unfold bind at 1 in H.
    rewrite Pixel_process_single_image_eval in H. cbv zeta in H.
    unfold measured. simpl flat_map. fold (measured disk blurred_bg frames).
    destruct (Mat_empty (file_image disk (fs.to_string p))).
    + apply IH in H. rewrite H. destruct infos; reflexivity.
    + destruct (white_pixel_count (file_image disk (fs.to_string p)) blurred_bg)
        as [count|]; [|discriminate].
      apply IH in H. rewrite H. destruct infos; reflexivity.
Qed.

Lemma Pixel_loop_returns : forall disk blurred_bg frames infos w,
  (forall p, In p frames ->
     Mat_empty (file_image disk (fs.to_string p)) = true \/
     white_pixel_count (file_image disk (fs.to_string p)) blurred_bg <> None) ->
  exists infos' w',
    foldM (fun infos entry =>
             Pixel.process_single_image disk entry blurred_bg (fst infos) (snd infos))
          frames infos w = Some (infos', w') /\
    exists later, events w' = later ++ events w.
Proof.
  intros disk blurred_bg. induction frames as [|p frames IH]; intros infos w Hall.
  - exists infos, w. split; [reflexivity|]. exists []. reflexivity.
  - simpl foldM. unfold bind at 1.
    rewrite Pixel_process_single_image_eval. cbv zeta.
    assert (Hrest : forall q, In q frames ->
              Mat_empty (file_image disk (fs.to_string q)) = true \/
              white_pixel_count (file_image disk (fs.to_string q)) blurred_bg <> None)
      by (intros q Hq; apply Hall; right; exact Hq).
    destruct (Hall p (or_introl eq_refl)) as [He|Hc].
    + rewrite He.
      match goal with |- context [foldM ?f frames ?i ?w0] =>
        destruct (IH i w0 Hrest) as (infos' & w' & Hf & later & Hev) end.
      exists infos', w'. split; [exact Hf|]. simpl in Hev.
      eexists (later ++ [_; _]). rewrite <- app_assoc. exact Hev.
    + destruct (Mat_empty (file_image disk (fs.to_string p))).
      * match goal with |- context [foldM ?f frames ?i ?w0] =>
          destruct (IH i w0 Hrest) as (infos' & w' & Hf & later & Hev) end.
        exists infos', w'. split; [exact Hf|]. simpl in Hev.
        eexists (later ++ [_; _]). rewrite <- app_assoc. exact Hev.
      * destruct (white_pixel_count (file_image disk (fs.to_string p)) blurred_bg)
          as [count|]; [|contradiction Hc; reflexivity].
        match goal with |- context [foldM ?f frames ?i ?w0] =>
          destruct (IH i w0 Hrest) as (infos' & w' & Hf & later & Hev) end.
        exists infos', w'. split; [exact Hf|]. simpl in Hev.
        eexists (later ++ [_; _]). rewrite <- app_assoc. exact Hev.
Qed.

(** [main] in closed form, for a directory with a readable background. *)
Lemma Pixel_main_eval : forall disk entries blurred_bg w,
  dir_entries disk Pixel.directory = Some entries ->
  GaussianBlur (file_image disk (Pixel.directory ++ "/background.tiff")%string)
    = Some blurred_bg ->
  Pixel.main disk w =
  match foldM (fun infos entry =>
                 Pixel.process_single_image disk entry blurred_bg (fst infos) (snd infos))
              (filter (Pixel.selected disk) entries)
              (Pixel.mk_info EmptyString 0, Pixel.mk_info EmptyString 2147483647)
              (mk_world (clock w) (ticks w) (indeterminate w)
                 (Imread (Pixel.directory ++ "/background.tiff") :: events w)) with
  | Some (infos, w1) =>
      match filter (Pixel.selected disk) entries with
      | [] => Some (0%Z, mk_world (clock w1) (ticks w1) (indeterminate w1)
                           (Cout "No matching image files found." :: events w1))
      | _ :: _ =>
          Some (0%Z, mk_world (clock w1) (ticks w1) (indeterminate w1)
                       (PixelCount (Pixel.info_filename (snd infos))
                                   (Pixel.white_pixel_count (snd infos))
                        :: PixelCount (Pixel.info_filename (fst infos))
                                      (Pixel.white_pixel_count (fst infos))
                        :: events w1))
      end
  | None => None
  end.
Proof.
  intros disk entries blurred_bg w Hdir Hblur.
  assert (Hbg : Mat_empty (file_image disk (Pixel.directory ++ "/background.tiff")%string)
                = false).
  { destruct (Mat_empty _) eqn:E; [|reflexivity].
    rewrite (GaussianBlur_empty _ E) in Hblur. discriminate. }
  unfold Pixel.main. cbv zeta. rewrite Hdir.
  unfold bind at 1. unfold imread at 1. unfold bind at 1. unfold emit at 1, ret at 1.
  rewrite Hbg. unfold bind at 1. rewrite Hblur. unfold try at 1, ret at 1.
  unfold bind at 1.
  destruct (foldM _ _ _ _) as [[infos w1]|]; [|reflexivity].
  destruct (filter (Pixel.selected disk) entries); reflexivity.
Qed.

End PixelRun.

Lemma Pixel_update_snoc : forall ms m infos,
  fold_left Pixel_update (ms ++ [m]) infos = Pixel_update (fold_left Pixel_update ms infos) m.
Proof. intros. rewrite fold_left_app. reflexivity. Qed.

Lemma Pixel_maximum : forall ms infos,
  let top := fst (fold_left Pixel_update ms infos) in
  ((forall x, In x ms -> (snd x <= Pixel.white_pixel_count (fst infos))%Z) /\
   top = fst infos) \/
  ((Pixel.white_pixel_count (fst infos) < Pixel.white_pixel_count top)%Z /\
   first_greatest ms (Pixel.info_filename top, Pixel.white_pixel_count top)).
Proof.
  intros ms infos. induction ms as [|m ms IH] using rev_ind; cbv zeta in *.
  - left. split; [intros x []|reflexivity].
  - rewrite Pixel_update_snoc. set (cur := fold_left Pixel_update ms infos) in *.
    unfold Pixel_update. cbn [fst].
    destruct (snd m >? Pixel.white_pixel_count (fst cur))%Z eqn:E.
    + apply Z.gtb_lt in E. right. cbn [Pixel.info_filename Pixel.white_pixel_count].
      destruct IH as [(Hle & Heq)|(Hlt & before & after & Hms & Hb & Ha)].
      * rewrite Heq in E. split; [exact E|].
        exists ms, []. split; [destruct m; reflexivity|]. split; [|intros x []].
        intros x Hx. specialize (Hle x Hx). cbn [snd]. lia.
      * split; [lia|]. exists ms, []. split; [destruct m; reflexivity|].
        split; [|intros x []]. intros x Hx. cbn [snd] in *. rewrite Hms in Hx.
        apply in_app_or in Hx. destruct Hx as [Hx|[<-|Hx]].
        -- specialize (Hb x Hx). lia.
        -- cbn [snd]. lia.
        -- specialize (Ha x Hx). lia.
    + rewrite Z.gtb_ltb in E. apply Z.ltb_ge in E.
      destruct IH as [(Hle & Heq)|(Hlt & before & after & Hms & Hb & Ha)].
      * left. split; [|exact Heq]. intros x Hx. apply in_app_or in Hx.
        destruct Hx as [Hx|[<-|[]]]; [auto|]. rewrite Heq in E. exact E.
      * right. split; [exact Hlt|]. exists before, (after ++ [m]).
        split; [rewrite Hms, <- app_assoc; reflexivity|]. split; [exact Hb|].
        intros x Hx. apply in_app_or in Hx. destruct Hx as [Hx|[<-|[]]]; [auto|].
        cbn [snd]. exact E.
Qed.

Lemma Pixel_minimum : forall ms infos,
  let bottom := snd (fold_left Pixel_update ms infos) in
  ((forall x, In x ms -> (Pixel.white_pixel_count (snd infos) <= snd x)%Z) /\
   bottom = snd infos) \/
  ((Pixel.white_pixel_count bottom < Pixel.white_pixel_count (snd infos))%Z /\
   first_least ms (Pixel.info_filename bottom, Pixel.white_pixel_count bottom)).
Proof.
  intros ms infos. induction ms as [|m ms IH] using rev_ind; cbv zeta in *.
  - left. split; [intros x []|reflexivity].
  - rewrite Pixel_update_snoc. set (cur := fold_left Pixel_update ms infos) in *.
    unfold Pixel_update. cbn [snd].
    destruct (snd m <? Pixel.white_pixel_count (snd cur))%Z eqn:E.
    + apply Z.ltb_lt in E. right. cbn [Pixel.info_filename Pixel.white_pixel_count].
      destruct IH as [(Hle & Heq)|(Hlt & before & after & Hms & Hb & Ha)].
      * rewrite Heq in E. split; [exact E|].
        exists ms, []. split; [destruct m; reflexivity|]. split; [|intros x []].
        intros x Hx. specialize (Hle x Hx). cbn [snd]. lia.
      * split; [lia|]. exists ms, []. split; [destruct m; reflexivity|].
        split; [|intros x []]. intros x Hx. cbn [snd] in *. rewrite Hms in Hx.
        apply in_app_or in Hx. destruct Hx as [Hx|[<-|Hx]].
        -- specialize (Hb x Hx). lia.
        -- cbn [snd]. lia.
        -- specialize (Ha x Hx). lia.
    + apply Z.ltb_ge in E.
      destruct IH as [(Hle & Heq)|(Hlt & before & after & Hms & Hb & Ha)].
      * left. split; [|exact Heq]. intros x Hx. apply in_app_or in Hx.
        destruct Hx as [Hx|[<-|[]]]; [auto|]. rewrite Heq in E. exact E.
      * right. split; [exact Hlt|]. exists before, (after ++ [m]).
        split; [rewrite Hms, <- app_assoc; reflexivity|]. split; [exact Hb|].
        intros x Hx. apply in_app_or in Hx. destruct Hx as [Hx|[<-|[]]]; [auto|].
        cbn [snd]. exact E.
Qed.

(** X10.  The extremes pixel.cpp prints at the end of a run that selected
    at least one file.  The measurements are the selected frames that could
    be read, in directory order.  The maximum starts at 0 with an empty name
    and is replaced only by a strictly greater count: it is the first
    measurement of greatest count when some count is positive, and still
    the initial pair otherwise.  The minimum starts at 2147483647 and is
    replaced only by a strictly smaller count: it is the first measurement
    of least count when some count is below 2147483647, and still the
    initial pair otherwise.  The exit status is 0. *)
Theorem X10_pixel_extremes_are_first_strict_extremes :
  forall (cv : OpenCV) (disk : Disk) (entries : list fs.path) (blurred_bg : Mat)
         (w w' : World) (status : Z),
    dir_entries disk Pixel.directory = Some entries ->
    GaussianBlur (file_image disk (Pixel.directory ++ "/background.tiff")%string)
      = Some blurred_bg ->
    filter (Pixel.selected disk) entries <> [] ->
    Pixel.main disk w = Some (status, w') ->
    status = 0%Z /\
    exists max_info min_info rest,
      events w' = PixelCount (Pixel.info_filename min_info) (Pixel.white_pixel_count min_info)
                  :: PixelCount (Pixel.info_filename max_info)
                                (Pixel.white_pixel_count max_info)
                  :: rest /\
      let ms := measured disk blurred_bg (filter (Pixel.selected disk) entries) in
      (((forall x, In x ms -> (snd x <= 0)%Z) /\ max_info = Pixel.mk_info EmptyString 0) \/
       ((0 < Pixel.white_pixel_count max_info)%Z /\
        first_greatest ms (Pixel.info_filename max_info, Pixel.white_pixel_count max_info)))
      /\
      (((forall x, In x ms -> (2147483647 <= snd x)%Z) /\
        min_info = Pixel.mk_info EmptyString 2147483647) \/
       ((Pixel.white_pixel_count min_info < 2147483647)%Z /\
        first_least ms (Pixel.info_filename min_info, Pixel.white_pixel_count min_info))).
Proof.
  intros cv disk entries blurred_bg w w' status Hdir Hblur Hsome H.
  rewrite (Pixel_main_eval _ _ Hdir Hblur) in H.
  destruct (foldM _ _ _ _) as [[infos w1]|] eqn:Ef; [|discriminate].
  apply Pixel_loop in Ef.
  destruct (filter (Pixel.selected disk) entries) as [|p frames] eqn:Esel;
    [contradiction Hsome; reflexivity|].
  inversion H; subst status w'; clear H. split; [reflexivity|].
  exists (fst infos), (snd infos), (events w1). split; [reflexivity|]. cbv zeta.
  rewrite Ef. split.
  - apply (Pixel_maximum (measured disk blurred_bg (p :: frames))
             (Pixel.mk_info EmptyString 0, Pixel.mk_info EmptyString 2147483647)).
  - apply (Pixel_minimum (measured disk blurred_bg (p :: frames))
             (Pixel.mk_info EmptyString 0, Pixel.mk_info EmptyString 2147483647)).
Qed.

Lemma X10_pixel_extremes_are_first_strict_extremes_witness :
  exists w' max_info min_info rest,
    Pixel.main (Fake.sample Pixel.directory) (Fake.world 10) = Some (0%Z, w') /\
    events w' = PixelCount (Pixel.info_filename min_info) (Pixel.white_pixel_count min_info)
                :: PixelCount (Pixel.info_filename max_info)
                              (Pixel.white_pixel_count max_info)
                :: rest /\
    first_greatest [("a.tiff", 400); ("b.tiff", 12); ("c.tiff", 300); ("d.tiff", 500)]%Z%string
      (Pixel.info_filename max_info, Pixel.white_pixel_count max_info) /\
    first_least [("a.tiff", 400); ("b.tiff", 12); ("c.tiff", 300); ("d.tiff", 500)]%Z%string
      (Pixel.info_filename min_info, Pixel.white_pixel_count min_info).
Proof.
  destruct (Pixel.main (Fake.sample Pixel.directory) (Fake.world 10))
    as [[status w']|] eqn:E; [|vm_compute in E; discriminate E].
  assert (Hdir : dir_entries (Fake.sample Pixel.directory) Pixel.directory
                 = Some (map (fun f => fs.mk_path Pixel.directory (fst f)) Fake.files))
    by reflexivity.
  assert (Hblur : GaussianBlur
                    (file_image (Fake.sample Pixel.directory)
                       (Pixel.directory ++ "/background.tiff")%string)
                  = Some Fake.background) by reflexivity.
  assert (Hsome : filter (Pixel.selected (Fake.sample Pixel.directory))
                    (map (fun f => fs.mk_path Pixel.directory (fst f)) Fake.files) <> [])
    by (vm_compute; discriminate).
  destruct (@X10_pixel_extremes_are_first_strict_extremes Fake.cv _ _ _ _ _ _
              Hdir Hblur Hsome E)
    as (Hs & max_info & min_info & rest & Hev & Hmax & Hmin).
  subst status. exists w', max_info, min_info, rest.
  split; [reflexivity|]. split; [exact Hev|].
  change (measured (Fake.sample Pixel.directory) Fake.background
            (filter (Pixel.selected (Fake.sample Pixel.directory))
               (map (fun f => fs.mk_path Pixel.directory (fst f)) Fake.files)))
    with [("a.tiff", 400); ("b.tiff", 12); ("c.tiff", 300); ("d.tiff", 500)]%Z%string
    in Hmax, Hmin.
  split.
  - destruct Hmax as [(Hle & _)|(_ & Hg)]; [|exact Hg].
    specialize (Hle ("a.tiff"%string, 400%Z) (or_introl eq_refl)). simpl in Hle. lia.
  - destruct Hmin as [(Hle & _)|(_ & Hl)]; [|exact Hl].
    specialize (Hle ("a.tiff"%string, 400%Z) (or_introl eq_refl)). simpl in Hle. lia.
Defined.

(** X11.  pixel.cpp survives frames it cannot read: in a directory with a
    readable background whose readable frames have the background's size,
    [main] returns exit status 0, whatever the other frames are.  (The three
    timing programs end in an exception on the first unreadable frame.) *)
Theorem X11_pixel_main_survives_unreadable_frames :
  forall (cv : OpenCV) (disk : Disk) (entries : list fs.path) (blurred_bg : Mat) (w : World),
    dir_entries disk Pixel.directory = Some entries ->
    GaussianBlur (file_image disk (Pixel.directory ++ "/background.tiff")%string)
      = Some blurred_bg ->
    (forall p, In p entries ->
       Mat_empty (file_image disk (fs.to_string p)) = true \/
       white_pixel_count (file_image disk (fs.to_string p)) blurred_bg <> None) ->
    exists w', Pixel.main disk w = Some (0%Z, w') /\
               exists later, events w' = later ++ events w.
Proof.
  intros cv disk entries blurred_bg w Hdir Hblur Hall.
  rewrite (Pixel_main_eval _ _ Hdir Hblur).
  match goal with |- context [foldM ?f ?l ?i ?w0] =>
    destruct (@Pixel_loop_returns _ disk blurred_bg l i w0)
      as (infos & w1 & Hf & later & Hev) end.
  - intros p Hp. apply Hall. apply filter_In in Hp. apply Hp.
  - rewrite Hf. cbn [events] in Hev.
    destruct (filter (Pixel.selected disk) entries); eexists; (split; [reflexivity|]);
      cbn [events]; rewrite Hev.
    + exists (Cout "No matching image files found."
              :: later ++ [Imread (Pixel.directory ++ "/background.tiff")]).
      rewrite <- app_comm_cons, <- app_assoc. reflexivity.
    + exists (PixelCount (Pixel.info_filename (snd infos))
                         (Pixel.white_pixel_count (snd infos))
              :: PixelCount (Pixel.info_filename (fst infos))
                            (Pixel.white_pixel_count (fst infos))
              :: later ++ [Imread (Pixel.directory ++ "/background.tiff")]).
      rewrite <- !app_comm_cons, <- app_assoc. reflexivity.
Qed.

Lemma X11_pixel_main_survives_unreadable_frames_witness :
  exists w', Pixel.main (Fake.damaged Pixel.directory) (Fake.world 10) = Some (0%Z, w').
Proof.
  destruct (@X11_pixel_main_survives_unreadable_frames Fake.cv
              (Fake.damaged Pixel.directory)
              (map (fun f => fs.mk_path Pixel.directory (fst f))
                 [("background.tiff"%string, Fake.background); ("a.tiff"%string, Fake.cell 10);
                  ("x.tiff"%string, None); ("c.tiff"%string, Fake.speck)])
              Fake.background (Fake.world 10) eq_refl eq_refl) as (w' & H & _).
  - intros p Hin. simpl in Hin.
    destruct Hin as [<-|[<-|[<-|[<-|[]]]]];
      [right; vm_compute; discriminate | right; vm_compute; discriminate
      | left; reflexivity | right; vm_compute; discriminate].
  - exists w'. exact H.
Defined.

(** X12.  When pixel.cpp selects files but can read none of them, it still
    prints its two extremes: a maximum of 0 and a minimum of 2147483647,
    both for the empty file name; the exit status is 0. *)
Theorem X12_pixel_prints_initial_extremes_when_nothing_is_read :
  forall (cv : OpenCV) (disk : Disk) (entries : list fs.path) (blurred_bg : Mat) (w : World),
    dir_entries disk Pixel.directory = Some entries ->
    GaussianBlur (file_image disk (Pixel.directory ++ "/background.tiff")%string)
      = Some blurred_bg ->
    filter (Pixel.selected disk) entries <> [] ->
    (forall p, In p (filter (Pixel.selected disk) entries) ->
       Mat_empty (file_image disk (fs.to_string p)) = true) ->
    exists w' rest,
      Pixel.main disk w = Some (0%Z, w') /\
      events w' = PixelCount EmptyString 2147483647 :: PixelCount EmptyString 0 :: rest.
Proof.
  intros cv disk entries blurred_bg w Hdir Hblur Hsome Hall.
  rewrite (Pixel_main_eval _ _ Hdir Hblur).
  match goal with |- context [foldM ?f ?l ?i ?w0] =>
    destruct (@Pixel_loop_returns _ disk blurred_bg l i w0)
      as (infos & w1 & Hf & _) end.
  - intros p Hp. left. apply Hall. exact Hp.
  - rewrite Hf. apply Pixel_loop in Hf.
    assert (Hnone : measured disk blurred_bg (filter (Pixel.selected disk) entries) = []).
    { clear Hf Hsome. induction (filter (Pixel.selected disk) entries) as [|p l IH].
      - reflexivity.
      - unfold measured. simpl flat_map. fold (measured disk blurred_bg l).
        rewrite (Hall p (or_introl eq_refl)). simpl.
        apply IH. intros q Hq. apply Hall. right. exact Hq. }
    rewrite Hnone in Hf. simpl in Hf. subst infos.
    destruct (filter (Pixel.selected disk) entries); [contradiction Hsome; reflexivity|].
    do 2 eexists. split; reflexivity.
Qed.

Lemma X12_pixel_prints_initial_extremes_when_nothing_is_read_witness :
  exists w' rest,
    Pixel.main (Fake.disk Pixel.directory
                  [("background.tiff"%string, Fake.background); ("x.tiff"%string, None)])
               (Fake.world 10) = Some (0%Z, w') /\
    events w' = PixelCount EmptyString 2147483647 :: PixelCount EmptyString 0 :: rest.
Proof.
  apply (@X12_pixel_prints_initial_extremes_when_nothing_is_read Fake.cv
           (Fake.disk Pixel.directory
              [("background.tiff"%string, Fake.background); ("x.tiff"%string, None)])
           [fs.mk_path Pixel.directory "background.tiff"; fs.mk_path Pixel.directory "x.tiff"]
           Fake.background (Fake.world 10) eq_refl eq_refl).
  - vm_compute. discriminate.
  - intros p Hp. vm_compute in Hp. destruct Hp as [<-|[]]. reflexivity.
Defined.

(** ** max_time.cpp: the occurrence counts *)

Lemma fold_left_combine_snd : forall (A B C : Type) (g : A -> C -> A) (l : list B) rs a,
  List.length rs = List.length l ->
  fold_left (fun a (xr : B * C) => g a (snd xr)) (combine l rs) a = fold_left g rs a.
Proof.
  intros A B C g l. induction l as [|x l IH]; intros rs a H.
  - destruct rs; [reflexivity | discriminate].
  - destruct rs as [|r rs]; [discriminate|]. simpl. apply IH. simpl in H. lia.
Qed.

Lemma increment_keys : forall image_count name,
  map fst (MaxTime.increment image_count name) =
  if in_dec string_dec name (map fst image_count)
  then map fst image_count else map fst image_count ++ [name].
Proof.
  induction image_count as [|[k n] rest IH]; intro name.
  - reflexivity.
  - simpl MaxTime.increment. destruct (String.eqb k name) eqn:E.
    + apply String.eqb_eq in E. subst k.
      destruct (in_dec string_dec name (map fst ((name, n) :: rest))) as [_|Hn].
      * reflexivity.
      * contradiction Hn. left. reflexivity.
    + apply String.eqb_neq in E. simpl map at 1. rewrite IH.
      destruct (in_dec string_dec name (map fst rest)) as [Hin|Hout];
        destruct (in_dec string_dec name (map fst ((k, n) :: rest))) as [Hin'|Hout'].
      * reflexivity.
      * contradiction Hout'. right. exact Hin.
      * destruct Hin' as [Hk|Hin']; [contradiction E | contradiction Hout].
      * reflexivity.
Qed.

Lemma increment_In : forall image_count name k n,
  In (k, n) (MaxTime.increment image_count name) ->
  In (k, n) image_count \/ (k = name /\ (1 <= n)%nat).
Proof.
  induction image_count as [|[k0 n0] rest IH]; intros name k n H.
  - destruct H as [H|[]]. inversion H; subst. right. split; [reflexivity | lia].
  - simpl in H. destruct (String.eqb k0 name) eqn:E.
    + apply String.eqb_eq in E. destruct H as [H|H].
      * inversion H; subst. right. split; [reflexivity | lia].
      * left. right. exact H.
    + destruct H as [H|H].
      * left. left. exact H.
      * destruct (IH _ _ _ H) as [Hin|Hnew]; [left; right; exact Hin | right; exact Hnew].
Qed.

Lemma increment_occurrences : forall image_count name k,
  occurrences (MaxTime.increment image_count name) k =
  if String.eqb k name then S (occurrences image_count k) else occurrences image_count k.
Proof.
  induction image_count as [|[k0 n0] rest IH]; intros name k.
  - simpl. rewrite String.eqb_sym. destruct (String.eqb k name); reflexivity.
  - simpl MaxTime.increment. destruct (String.eqb k0 name) eqn:E.
    + apply String.eqb_eq in E. subst k0. simpl. rewrite (String.eqb_sym name k).
      destruct (String.eqb k name); reflexivity.
    + simpl. rewrite IH. destruct (String.eqb k0 k) eqn:E1; [|reflexivity].
      apply String.eqb_eq in E1. subst k0. rewrite E. reflexivity.
Qed.

Lemma increment_sum : forall image_count name,
  list_sum (map snd (MaxTime.increment image_count name))
  = S (list_sum (map snd image_count)).
Proof.
  induction image_count as [|[k0 n0] rest IH]; intro name.
  - reflexivity.
  - simpl MaxTime.increment. destruct (String.eqb k0 name); simpl.
    + reflexivity.
    + rewrite IH. lia.
Qed.

Lemma tally_well_formed : forall image_count name,
  well_formed_counts image_count -> well_formed_counts (tally image_count name).
Proof.
  intros image_count name (Hnd & Hne & Hpos). unfold tally.
  destruct (String.eqb name EmptyString) eqn:E; [repeat split; assumption|].
  apply String.eqb_neq in E. unfold well_formed_counts. rewrite increment_keys.
  destruct (in_dec string_dec name (map fst image_count)) as [Hin|Hout].
  - split; [exact Hnd|]. split; [exact Hne|].
    intros k n H. apply increment_In in H. destruct H as [H|[_ H]]; [eauto | exact H].
  - split; [|split].
    + apply NoDup_app; [exact Hnd | repeat constructor; intros [] | ].
      intros x Hx [<-|[]]. contradiction.
    + intro H. apply in_app_or in H. destruct H as [H|[H|[]]]; [contradiction|].
      apply E. exact H.
    + intros k n H. apply increment_In in H. destruct H as [H|[_ H]]; [eauto | exact H].
Qed.

Lemma tally_fold : forall names image_count,
  well_formed_counts image_count ->
  let image_count' := fold_left tally names image_count in
  well_formed_counts image_count' /\
  (forall k, k <> EmptyString ->
     occurrences image_count' k
     = (occurrences image_count k + count_occ string_dec names k)%nat) /\
  (list_sum (map snd image_count') + count_occ string_dec names EmptyString
   = list_sum (map snd image_count) + List.length names)%nat.
Proof.
  induction names as [|name names IH]; intros image_count Hwf; cbv zeta.
  - simpl. repeat split; try apply Hwf; intros; lia.
  - simpl fold_left.
    destruct (IH (tally image_count name) (tally_well_formed name Hwf)) as (Hwf' & Hocc & Hsum).
    split; [exact Hwf'|]. split.
    + intros k Hk. rewrite (Hocc k Hk). unfold tally. simpl count_occ.
      destruct (String.eqb name EmptyString) eqn:E.
      * apply String.eqb_eq in E. subst name.
        destruct (string_dec EmptyString k) as [Heq|_]; [contradiction Hk; auto | reflexivity].
      * rewrite increment_occurrences.
        destruct (string_dec name k) as [->|Hne].
        -- rewrite String.eqb_refl. lia.
        -- apply not_eq_sym in Hne. apply String.eqb_neq in Hne. rewrite Hne. reflexivity.
    + simpl count_occ. simpl List.length.
      destruct (String.eqb name EmptyString) eqn:E.
      * assert (Ht : tally image_count name = image_count)
          by (unfold tally; rewrite E; reflexivity).
        rewrite Ht in Hsum |- *. apply String.eqb_eq in E. subst name.
        destruct (string_dec EmptyString EmptyString) as [_|Hne]; [lia | contradiction Hne; auto].
      * assert (Ht : tally image_count name = MaxTime.increment image_count name)
          by (unfold tally; rewrite E; reflexivity).
        rewrite Ht in Hsum |- *. rewrite increment_sum in Hsum. apply String.eqb_neq in E.
        destruct (string_dec name EmptyString) as [Heq|_]; [contradiction | lia].
Qed.

Section MaxTimeMain.
Context {cv : OpenCV}.

Lemma MaxTime_main_eval : forall total_iterations disk_at blurred_bg w,
  GaussianBlur (file_image (disk_at 0%nat) (MaxTime.directory ++ "/background.tiff")%string)
    = Some blurred_bg ->
  MaxTime.main_with total_iterations disk_at w =
  match mapM (MaxTime_winner total_iterations disk_at blurred_bg) (seq 0 total_iterations)
          (mk_world (clock w) (ticks w) (indeterminate w)
             (Imread (MaxTime.directory ++ "/background.tiff") :: events w)) with
  | Some (names, w') => Some ((0%Z, fold_left tally names []), w')
  | None => None
  end.
Proof.
  intros total_iterations disk_at blurred_bg w Hblur.
  assert (Hbg : Mat_empty (file_image (disk_at 0%nat)
                             (MaxTime.directory ++ "/background.tiff")%string) = false).
  { destruct (Mat_empty _) eqn:E; [|reflexivity].
    rewrite (GaussianBlur_empty _ E) in Hblur. discriminate. }
  unfold MaxTime.main_with. cbv zeta.
  unfold bind at 1. unfold imread at 1. unfold bind at 1. unfold emit at 1, ret at 1.
  rewrite Hbg. unfold bind at 1. rewrite Hblur. unfold try at 1, ret at 1.
  unfold bind at 1.
  rewrite (@foldM_ext _ _ (MaxTime.iteration total_iterations disk_at blurred_bg)
             (fun a x => r <- MaxTime_winner total_iterations disk_at blurred_bg x ;;
                         ret ((fun a (_ : nat) r => tally a r) a x r))).
  - rewrite foldM_measure_then_fold.
    destruct (mapM _ _ _) as [[names w']|] eqn:Em; [|reflexivity].
    rewrite (fold_left_combine_snd tally _ _ _ (mapM_length _ _ _ Em)). reflexivity.
  - intros a x w0. unfold MaxTime.iteration, MaxTime_winner, tally, bind.
    destruct (MaxTime.run_experiment _ _ _ _ w0) as [[e w1]|]; reflexivity.
Qed.

End MaxTimeMain.

(** X13.  The occurrence counts of max_time.cpp.  When [main] gets through
    its repetitions, the exit status is 0 and the map it has built counts,
    for every image name, in how many repetitions [run_experiment] named
    that image as the slowest.  A repetition without a slowest image (an
    empty name) is counted nowhere: the empty name is never a key, every
    count is at least 1, no key occurs twice, and the counts add up to the
    number of repetitions less those without a slowest image. *)
Theorem X13_image_count_tallies_the_slowest_images :
  forall (cv : OpenCV) (total_iterations : nat) (disk_at : nat -> Disk) (blurred_bg : Mat)
         (w w' : World) (status : Z) (image_count : list (string * nat)),
    GaussianBlur (file_image (disk_at 0%nat) (MaxTime.directory ++ "/background.tiff")%string)
      = Some blurred_bg ->
    MaxTime.main_with total_iterations disk_at w = Some ((status, image_count), w') ->
    status = 0%Z /\
    well_formed_counts image_count /\
    exists names,
      mapM (MaxTime_winner total_iterations disk_at blurred_bg) (seq 0 total_iterations)
        (mk_world (clock w) (ticks w) (indeterminate w)
           (Imread (MaxTime.directory ++ "/background.tiff") :: events w))
      = Some (names, w') /\
      List.length names = total_iterations /\
      (forall k, k <> EmptyString ->
         occurrences image_count k = count_occ string_dec names k) /\
      (list_sum (map snd image_count) + count_occ string_dec names EmptyString
       = total_iterations)%nat.
Proof.
  intros cv total_iterations disk_at blurred_bg w w' status image_count Hblur H.
  rewrite (MaxTime_main_eval _ _ _ Hblur) in H.
  destruct (mapM _ _ _) as [[names w1]|] eqn:Em; [|discriminate].
  inversion H; subst; clear H.
  assert (Hfresh : well_formed_counts []).
  { split; [constructor|]. split; [intros []|intros k n []]. }
  destruct (tally_fold names Hfresh) as (Hwf & Hocc & Hsum).
  pose proof (mapM_length _ _ _ Em) as Hlen. rewrite length_seq in Hlen.
  split; [reflexivity|]. split; [exact Hwf|].
  exists names. split; [reflexivity|]. split; [exact Hlen|]. split.
  - intros k Hk. rewrite (Hocc k Hk). reflexivity.
  - rewrite Hsum, Hlen. reflexivity.
Qed.

Lemma X13_image_count_tallies_the_slowest_images_witness :
  exists image_count w',
    MaxTime.main_with 3 (fun _ => Fake.sample MaxTime.directory) (Fake.world 10)
      = Some ((0%Z, image_count), w') /\
    well_formed_counts image_count /\
    (list_sum (map snd image_count) <= 3)%nat.
Proof.
  destruct (MaxTime.main_with 3 (fun _ => Fake.sample MaxTime.directory) (Fake.world 10))
    as [[[status image_count] w']|] eqn:E; [|vm_compute in E; discriminate E].
  destruct (@X13_image_count_tallies_the_slowest_images Fake.cv 3
              (fun _ => Fake.sample MaxTime.directory) Fake.background
              (Fake.world 10) w' status image_count eq_refl E)
    as (Hs & Hwf & names & _ & _ & _ & Hsum).
  subst status. exists image_count, w'.
  split; [reflexivity|]. split; [exact Hwf | lia].
Defined.

(** ** findcontour_time_10000.cpp: the two stopwatches *)

Lemma mapM_Forall2_inv :
  forall (A B : Type) (f : A -> M B) (I : World -> Prop) (P : A -> B -> Prop),
    (forall x w y w', I w -> f x w = Some (y, w') -> P x y /\ I w') ->
    forall l w ys w', I w -> mapM f l w = Some (ys, w') -> Forall2 P l ys.
Proof.
  intros A B f I P Hf l. induction l as [|x l IH]; intros w ys w' Hw H; simpl in H.
  - inversion H; subst. constructor.
  - apply bind_Some in H. destruct H as (y & w1 & Hy & H).
    apply bind_Some in H. destruct H as (ys' & w2 & Hys & H).
    inversion H; subst; clear H. destruct (Hf _ _ _ _ Hw Hy) as [Hp Hw1].
    constructor; [exact Hp | eapply IH; eassumption].
Qed.

Lemma column_sum_between : forall (A : Type) (f g : A -> double) rows a b,
  (forall row, In row rows -> 0 <= f row <= g row) ->
  0 <= a <= b ->
  0 <= column_sum f rows a <= column_sum g rows b.
Proof.
  intros A f g rows. induction rows as [|row rows IH]; intros a b H Hab.
  - exact Hab.
  - unfold column_sum in *. simpl fold_left. apply IH.
    + intros r Hr. apply H. right. exact Hr.
    + pose proof (H row (or_introl eq_refl)). lra.
Qed.

Section FindContourStopwatches.
Context {cv : OpenCV}.
Import FindContour.

Lemma FindContour_process_popped_nested : forall disk blurred_bg path w r w',
  (forall m n, (m <= n)%nat -> clock w m <= clock w n) ->
  process_popped disk blurred_bg path w = Some (r, w') ->
  (0 < duration r -> 0 <= findcontour_duration r <= duration r) /\
  (forall m n, (m <= n)%nat -> clock w' m <= clock w' n).
Proof.
  intros disk blurred_bg path w r w' Hmono H.
  unfold process_popped in H. unfold bind at 1 2 in H.
  unfold uninitialized in H. rewrite FindContour_process_single_image_eval in H.
  destruct (white_pixel_count _ _) as [n|]; [|discriminate].
  destruct (extracted_contours _ _) as [cs|]; [|discriminate].
  destruct ((n <? 250)%Z || (n >? 650)%Z); inversion H; subst; clear H;
    cbn [duration findcontour_duration clock].
  - split; [intro Hpos; lra | exact Hmono].
  - split; [intros _ | exact Hmono].
    pose proof (Hmono (ticks w) (S (ticks w)) ltac:(lia)).
    pose proof (Hmono (S (ticks w)) (S (S (ticks w))) ltac:(lia)).
    pose proof (Hmono (S (S (ticks w))) (S (S (S (ticks w)))) ltac:(lia)).
    change (1 + ticks w)%nat with (S (ticks w)).
    change (2 + ticks w)%nat with (S (S (ticks w))).
    change (3 + ticks w)%nat with (S (S (S (ticks w)))).
    lra.
Qed.

Lemma FindContour_commit_nested : forall jobs e,
  Forall (fun j : fs.path * Refs =>
            0 < duration (snd j) -> 0 <= findcontour_duration (snd j) <= duration (snd j))
         jobs ->
  (forall row, In row (results e) -> 0 <= row_findcontour5 row <= row_time5 row) ->
  forall row, In row (results (fold_left FindContourLocked.commit jobs e)) ->
    0 <= row_findcontour5 row <= row_time5 row.
Proof.
  induction jobs as [|[path r] jobs IH]; intros e Hall He; simpl fold_left.
  - exact He.
  - inversion Hall as [|j js Hj Hjs]; subst. apply IH; [exact Hjs|].
    unfold FindContourLocked.commit, aggregate. cbn [fst snd] in *.
    destruct (Qgtb (duration r) 0) eqn:E0; [|exact He].
    apply Qgtb_gt in E0.
    intros row Hrow.
    assert (Hin : In row (results e ++ [(fs.to_string path, circularity_ratio (metrics r),
                                         area_ratio (metrics r), duration r,
                                         findcontour_duration r)])).
    { destruct (Qgtb (duration r) (max_process_time e)); exact Hrow. }
    apply in_app_or in Hin. destruct Hin as [Hin|[<-|[]]]; [auto|].
    cbn [row_findcontour5 row_time5]. apply Hj. exact E0.
Qed.

End FindContourStopwatches.

(** X14.  findcontour_time_10000.cpp runs two stopwatches per frame, the
    one around [findContours] inside the one around the whole frame.  With
    a clock that never goes backwards, every row of [results] of a run that
    returns has a [findContours] time between 0 and its processing time, so
    [total_findcontour_time] lies between 0 and [total_time]. *)
Theorem X14_findcontour_time_is_within_the_processing_time :
  forall (cv : OpenCV) (disk : Disk) (dir : string) (w w' : World)
         (e : FindContour.Experiment),
    (forall m n, (m <= n)%nat -> clock w m <= clock w n) ->
    FindContour.run_experiment disk dir [] [] (EmptyString, 0) w = Some (e, w') ->
    (forall row, In row (FindContour.results e) ->
       0 <= row_findcontour5 row <= row_time5 row) /\
    0 <= FindContour.total_findcontour_time e <= FindContour.total_time e.
Proof.
  intros cv disk dir w w' e Hmono H.
  assert (Hrows : forall row, In row (FindContour.results e) ->
                    0 <= row_findcontour5 row <= row_time5 row).
  { rewrite FindContour_run_experiment_eval in H. cbv zeta in H.
    destruct (Mat_empty _).
    - inversion H; subst. intros row [].
    - destruct (GaussianBlur _) as [blurred_bg|]; [|discriminate].
      destruct (dir_entries disk dir) as [entries|]; [|discriminate].
      destruct (mapM _ _ _) as [[rs w1]|] eqn:Em; [|discriminate].
      inversion H; subst; clear H.
      apply FindContour_commit_nested; [|intros row []].
      apply Forall2_combine with
        (P := fun (_ : fs.path) (r : FindContour.Refs) =>
                0 < FindContour.duration r ->
                0 <= FindContour.findcontour_duration r <= FindContour.duration r).
      eapply mapM_Forall2_inv with
        (I := fun w0 => forall m n, (m <= n)%nat -> clock w0 m <= clock w0 n);
        [| |exact Em]; [|exact Hmono].
      intros path w0 r w2 Hw0 Hp.
      eapply FindContour_process_popped_nested; eassumption. }
  split; [exact Hrows|].
  assert (Hacc : exists done, FindContour_accounts done e).
  { rewrite FindContour_run_experiment_eval in H. cbv zeta in H.
    destruct (Mat_empty _).
    - inversion H; subst. exists []. apply FindContour_accounts_fresh.
    - destruct (GaussianBlur _) as [blurred_bg|]; [|discriminate].
      destruct (dir_entries disk dir) as [entries|]; [|discriminate].
      destruct (mapM _ _ _) as [[rs w1]|] eqn:Em; [|discriminate].
      inversion H; subst; clear H. eexists.
      apply (FindContour_accounts_fold _ FindContour_accounts_fresh). }
  assert (Hsum : FindContour.total_time e = column_sum row_time5 (FindContour.results e) 0 /\
                 FindContour.total_findcontour_time e
                 = column_sum row_findcontour5 (FindContour.results e) 0).
  { destruct Hacc as (done & Ht & Hf & _). split; assumption. }
  destruct Hsum as [Ht Hf]. rewrite Ht, Hf.
  apply column_sum_between; [exact Hrows | lra].
Qed.

Lemma X14_findcontour_time_is_within_the_processing_time_witness :
  exists e w',
    FindContour.run_experiment (Fake.sample "dir") "dir" [] [] (EmptyString, 0)
      (Fake.world 10) = Some (e, w') /\
    0 <= FindContour.total_findcontour_time e <= FindContour.total_time e.
Proof.
  destruct (FindContour.run_experiment (Fake.sample "dir") "dir" [] [] (EmptyString, 0)
              (Fake.world 10)) as [[e w']|] eqn:E; [|vm_compute in E; discriminate E].
  exists e, w'. split; [reflexivity|].
  refine (proj2 (@X14_findcontour_time_is_within_the_processing_time Fake.cv _ _ _ _ _ _ E)).
  intros m n Hmn. unfold Fake.world. cbn [clock].
  apply Qmult_le_compat_r; [|discriminate].
  rewrite <- Zle_Qle. lia.
Defined.

(** ** The progress bars *)

Lemma cells_before : forall pos a n,
  (Z.of_nat (a + n) <= pos)%Z ->
  map (fun i => ProgressBar.cell pos (Z.of_nat i)) (seq a n) = repeat "="%char n.
Proof.
  intros pos a n. revert a. induction n as [|n IH]; intros a H.
  - reflexivity.
  - simpl. f_equal.
    + unfold ProgressBar.cell.
      destruct (Z.ltb_spec (Z.of_nat a) pos) as [_|Hge]; [reflexivity | lia].
    + apply IH. lia.
Qed.

Lemma cells_after : forall pos a n,
  (pos < Z.of_nat a)%Z ->
  map (fun i => ProgressBar.cell pos (Z.of_nat i)) (seq a n) = repeat " "%char n.
Proof.
  intros pos a n. revert a. induction n as [|n IH]; intros a H.
  - reflexivity.
  - simpl. f_equal.
    + unfold ProgressBar.cell.
      destruct (Z.ltb_spec (Z.of_nat a) pos) as [Hlt|_]; [lia|].
      destruct (Z.eqb_spec (Z.of_nat a) pos) as [Heq|_]; [lia | reflexivity].
    + apply IH. lia.
Qed.

(** X15.  The bar both programs draw is always 70 characters wide.  For a
    position from 0 to 69 it is that many [=], one [>], and blanks to the
    end; from position 70 on (the last call of a run) it is 70 [=] and no
    [>] at all; a negative position would give 70 blanks. *)
Theorem X15_progress_bar_is_seventy_cells :
  forall pos : Z,
    String.length (ProgressBar.bar pos) = 70%nat /\
    ((0 <= pos < 70)%Z ->
     ProgressBar.bar pos =
     string_of_list_ascii
       (repeat "="%char (Z.to_nat pos) ++ ">"%char :: repeat " "%char (69 - Z.to_nat pos))) /\
    ((70 <= pos)%Z ->
     ProgressBar.bar pos = string_of_list_ascii (repeat "="%char 70)) /\
    ((pos < 0)%Z ->
     ProgressBar.bar pos = string_of_list_ascii (repeat " "%char 70)).
Proof.
  intro pos. unfold ProgressBar.bar.
  change (Z.to_nat ProgressBar.bar_width) with 70%nat.
  split; [|split; [|split]].
  - generalize (map (fun i => ProgressBar.cell pos (Z.of_nat i)) (seq 0 70)),
      (eq_sym (length_map (fun i => ProgressBar.cell pos (Z.of_nat i)) (seq 0 70))).
    rewrite length_seq. intros l Hl. rewrite Hl. clear Hl.
    induction l as [|c l IH]; simpl; [reflexivity | f_equal; exact IH].
  - intros [H0 H70]. f_equal.
    replace 70%nat with (Z.to_nat pos + S (69 - Z.to_nat pos))%nat by lia.
    rewrite seq_app, map_app. simpl seq. simpl map. f_equal.
    + apply cells_before. lia.
    + f_equal.
      * unfold ProgressBar.cell. rewrite Z2Nat.id by lia.
        rewrite Z.ltb_irrefl, Z.eqb_refl. reflexivity.
      * apply cells_after. lia.
  - intro H. f_equal. apply cells_before. simpl. lia.
  - intro H. f_equal. apply cells_after. simpl. lia.
Qed.

Lemma X15_progress_bar_is_seventy_cells_witness :
  ProgressBar.bar 3 =
  "===>                                                                  "%string /\
  ProgressBar.bar 70 =
  "======================================================================"%string.
Proof.
  destruct (X15_progress_bar_is_seventy_cells 3) as (_ & H3 & _).
  destruct (X15_progress_bar_is_seventy_cells 70) as (_ & _ & H70 & _).
  split.
  - rewrite H3 by lia. reflexivity.
  - rewrite H70 by lia. reflexivity.
Defined.

(** The calls of [print_progress_bar] in a run of max_time.cpp: the counts
    1 to 1000 out of 1000. *)
Lemma print_progress_bar_calls :
  forallb (fun i =>
             let c := Z.of_nat (i + 1) in
             (ProgressBar.position c 1000 =? 70 * c / 1000)%Z
             && ((ProgressBar.percent (ProgressBar.print_progress_bar c 1000) =? c / 10)%Z
                 || ((ProgressBar.percent (ProgressBar.print_progress_bar c 1000)
                      =? c / 10 - 1)%Z
                     && (c mod 10 =? 0)%Z)))
          (seq 0 1000) = true.
Proof. vm_compute. reflexivity. Qed.

(** X16.  The 1000 progress lines of max_time.cpp.  At every repetition
    the bar stands at exactly 70 * progress / 1000, rounded down: the
    [float] arithmetic never shows there.  The percentage is progress / 10
    rounded down whenever progress is not a multiple of 10; at a multiple
    of 10 it is that number or one less, because the [float] ratio can lie
    just below the exact one and the conversion to [int] truncates. *)
Theorem X16_max_time_progress_lines :
  forall i : nat,
    (i < 1000)%nat ->
    let c := Z.of_nat (i + 1) in
    let line := ProgressBar.print_progress_bar c 1000 in
    ProgressBar.bar_text line = ProgressBar.bar (70 * c / 1000) /\
    (c / 10 - 1 <= ProgressBar.percent line <= c / 10)%Z /\
    ((c mod 10 <> 0)%Z -> ProgressBar.percent line = (c / 10)%Z).
Proof.
  intros i Hi c line.
  pose proof print_progress_bar_calls as Hall.
  rewrite forallb_forall in Hall.
  specialize (Hall i ltac:(apply in_seq; lia)). cbv zeta in Hall.
  fold c in Hall. fold line in Hall.
  apply andb_true_iff in Hall. destruct Hall as [Hpos Hpct].
  apply Z.eqb_eq in Hpos.
  split; [|split].
  - unfold line, ProgressBar.print_progress_bar. cbn [ProgressBar.bar_text].
    fold (ProgressBar.position c 1000). rewrite Hpos. reflexivity.
  - apply orb_true_iff in Hpct. destruct Hpct as [H|H].
    + apply Z.eqb_eq in H. lia.
    + apply andb_true_iff in H. destruct H as [H _]. apply Z.eqb_eq in H. lia.
  - intro Hmod. apply orb_true_iff in Hpct. destruct Hpct as [H|H].
    + apply Z.eqb_eq in H. exact H.
    + apply andb_true_iff in H. destruct H as [_ H]. apply Z.eqb_eq in H. contradiction.
Qed.

Lemma X16_max_time_progress_lines_witness :
  ProgressBar.bar_text (ProgressBar.print_progress_bar 290 1000) = ProgressBar.bar 20 /\
  (28 <= ProgressBar.percent (ProgressBar.print_progress_bar 290 1000) <= 29)%Z /\
  ProgressBar.percent (ProgressBar.print_progress_bar 290 1000) = 28%Z.
Proof.
  destruct (@X16_max_time_progress_lines 289 ltac:(lia)) as (Hbar & Hpct & _).
  split; [exact Hbar|]. split; [exact Hpct|]. vm_compute. reflexivity.
Defined.

(** ** The worker after an exception *)

Section PipelineFailureFacts.
Variables Item St : Type.
Variable body : St -> Item -> option St.

Lemma Pipeline_failed_step : forall items s0 c c',
  Pipeline_inv body items s0 c -> Pipeline_failed body items s0 c ->
  Pipeline.step body c c' -> Pipeline_failed body items s0 c'.
Proof.
  intros items s0 c c' Hinv Hf Hstep.
  destruct Hstep; unfold Pipeline_failed, Pipeline_inv in *; simpl in *; try exact I.
  - (* push *)
    destruct wk; try exact I.
    destruct Hf as (p & y & Hitems & Hrun & Hy). exists p, y.
    split; [|split; assumption].
    rewrite Hitems, <- app_assoc. reflexivity.
  - (* complete *)
    destruct wk; try exact I. exact Hf.
  - (* throws *)
    destruct Hinv as (p & Hitems & Hrun & _). exists p, x.
    split; [exact Hitems|]. split; assumption.
Qed.

Lemma Pipeline_failed_steps : forall items s0 c c',
  Pipeline.steps body c c' ->
  Pipeline_inv body items s0 c -> Pipeline_failed body items s0 c ->
  Pipeline_failed body items s0 c'.
Proof.
  intros items s0 c c' H. induction H; intros Hinv Hf.
  - exact Hf.
  - apply IHsteps.
    + eapply Pipeline_inv_step; eassumption.
    + eapply Pipeline_failed_step; eassumption.
Qed.

Lemma Pipeline_finished_steps : forall c c',
  Pipeline.steps body c c' -> Pipeline.finished c ->
  Pipeline.worker c' = Pipeline.worker c /\ Pipeline.state c' = Pipeline.state c.
Proof.
  intros c c' H. induction H as [c|c1 c2 c3 Hstep Hsteps IH]; intro Hfin.
  - split; reflexivity.
  - assert (H12 : Pipeline.worker c2 = Pipeline.worker c1 /\
                  Pipeline.state c2 = Pipeline.state c1).
    { destruct Hstep; simpl in *; try (split; reflexivity);
        destruct Hfin as [Hfin|Hfin]; discriminate Hfin. }
    destruct H12 as [Hw Hs].
    destruct IH as [Hw' Hs'].
    + unfold Pipeline.finished. rewrite Hw. exact Hfin.
    + split; congruence.
Qed.

End PipelineFailureFacts.

(** X17.  An exception in the worker of [run_experiment], in every
    interleaving with the enumeration loop.  When the worker has been
    unwound, the frames before the one that threw have been processed, in
    the order pushed, and their effect is the state left behind; the frame
    that threw has been popped; every later frame is still in the queue or
    yet to be pushed.  From then on the enumeration loop may go on pushing,
    but the state never changes again: no later frame is ever processed. *)
Theorem X17_exception_stops_the_worker_at_the_first_failing_frame :
  forall (Item St : Type) (body : St -> Item -> option St)
         (items : list Item) (s0 : St) (c : Pipeline.Config Item St),
    Pipeline.steps body (Pipeline.initial items s0) c ->
    Pipeline.worker c = Pipeline.Unwound ->
    (exists processed x,
       items = processed ++ x :: Pipeline.image_queue c ++ Pipeline.to_push c /\
       Pipeline.run body processed s0 = Some (Pipeline.state c) /\
       body (Pipeline.state c) x = None) /\
    (forall c', Pipeline.steps body c c' ->
       Pipeline.worker c' = Pipeline.Unwound /\ Pipeline.state c' = Pipeline.state c).
Proof.
  intros Item St body items s0 c Hsteps Hw. split.
  - pose proof (@Pipeline_failed_steps Item St body items s0 _ _ Hsteps
                  (Pipeline_inv_initial body items s0) I) as Hf.
    unfold Pipeline_failed in Hf. rewrite Hw in Hf. exact Hf.
  - intros c' Hc'.
    destruct (@Pipeline_finished_steps Item St body c c' Hc') as [Hw' Hs'].
    + right. exact Hw.
    + split; [rewrite Hw'; exact Hw | exact Hs'].
Qed.

Lemma X17_exception_stops_the_worker_at_the_first_failing_frame_witness :
  let body := fun (s x : nat) => if Nat.eqb x 0 then None else Some (s + x)%nat in
  let c := Pipeline.mk_config [2%nat] [] false Pipeline.Unwound 1%nat in
  exists processed x,
    [1; 0; 2]%nat = processed ++ x :: Pipeline.image_queue c ++ Pipeline.to_push c /\
    Pipeline.run body processed 0%nat = Some 1%nat /\
    body 1%nat x = None.
Proof.
  intros body c.
  refine (proj1 (@X17_exception_stops_the_worker_at_the_first_failing_frame
                   nat nat body [1; 0; 2]%nat 0%nat c _ eq_refl)).
  unfold Pipeline.initial, c.
  eapply Pipeline.steps_cons; [apply Pipeline.producer_push|]. simpl app.
  eapply Pipeline.steps_cons; [apply Pipeline.worker_sees_incomplete|].
  eapply Pipeline.steps_cons;
    [apply (@Pipeline.worker_pops nat nat body [0; 2]%nat 1%nat [] false 0%nat 1%nat);
     reflexivity|].
  eapply Pipeline.steps_cons; [apply Pipeline.producer_push|]. simpl app.
  eapply Pipeline.steps_cons; [apply Pipeline.worker_sees_incomplete|].
  eapply Pipeline.steps_cons;
    [apply (@Pipeline.worker_throws nat nat body [2%nat] 0%nat [] false 1%nat);
     reflexivity|].
  apply Pipeline.steps_refl.
Defined.

(** ** max_time.cpp: the name a repetition hands to [main] *)

Lemma is_frame_name_nonempty : forall entry : fs.path,
  is_frame entry = true -> fs.filename entry <> EmptyString.
Proof.
  intros entry H Hname. unfold is_frame, fs.extension in H. rewrite Hname in H.
  discriminate H.
Qed.

(** X18.  What [run_experiment] of max_time.cpp hands back to [main] as the
    slowest image.  The name is empty exactly when no frame of the run was
    a success ([number] is 0); otherwise it is the file name, without the
    directory, of one of the enumerated frames, and the maximum time is
    positive.  So the test [!current_max_image.empty()] in [main] skips
    exactly the repetitions without a success. *)
Theorem X18_slowest_image_is_empty_or_a_frame_name :
  forall (cv : OpenCV) (disk : Disk) (dir : string) (blurred_bg : Mat)
         (entries : list fs.path) (w w' : World) (e : MaxTime.Experiment),
    dir_entries disk dir = Some entries ->
    MaxTime.run_experiment disk dir blurred_bg EmptyString w = Some (e, w') ->
    (MaxTime.max_processing_time_image e = EmptyString <-> MaxTime.number e = 0%Z) /\
    (MaxTime.number e <> 0%Z ->
     exists entry,
       In entry entries /\ is_frame entry = true /\
       MaxTime.max_processing_time_image e = fs.filename entry /\
       0 < MaxTime.max_process_time e).
Proof.
  intros cv disk dir blurred_bg entries w w' e Hdir H.
  rewrite MaxTime_run_experiment_eval, Hdir in H.
  destruct (mapM _ _ _) as [[rs w1]|] eqn:Em; [|discriminate].
  inversion H; subst; clear H.
  pose proof (MaxTime_inv_fold (combine (MaxTime.image_queue entries) rs) MaxTime_inv_fresh)
    as [Hn Hmax].
  simpl app in Hn, Hmax. unfold MaxTimeLocked.fresh in Hn, Hmax.
  set (e := fold_left MaxTimeLocked.commit (combine (MaxTime.image_queue entries) rs)
              (MaxTime.mk_experiment 0 0 0 EmptyString)) in *.
  assert (Hframe : forall j,
            first_argmax MaxTimeLocked.job_time
              (MaxTimeLocked.successes (combine (MaxTime.image_queue entries) rs)) j ->
            In (fst j) entries /\ is_frame (fst j) = true /\ 0 < MaxTimeLocked.job_time j).
  { intros j Hj. apply first_argmax_In in Hj.
    unfold MaxTimeLocked.successes in Hj. apply filter_In in Hj. destruct Hj as [Hin Hg].
    destruct j as [path r]. apply in_combine_l in Hin.
    unfold MaxTime.image_queue in Hin. apply filter_In in Hin.
    split; [apply Hin|]. split; [apply Hin|].
    unfold MaxTimeLocked.guarded in Hg. apply Qgtb_gt in Hg. exact Hg. }
  destruct Hmax as [(Hnone & Hz & Hi)|(j & Hj & Hi & Ht)].
  - rewrite Hnone in Hn. simpl in Hn. split.
    + split; intro; assumption.
    + intro Hne. contradiction.
  - destruct (Hframe j Hj) as (Hin & Hfr & Hpos).
    assert (Hlen : MaxTime.number e <> 0%Z).
    { rewrite Hn. apply first_argmax_In in Hj.
      destruct (MaxTimeLocked.successes (combine (MaxTime.image_queue entries) rs));
        [destruct Hj | discriminate]. }
    split.
    + split; intro Habs; [|contradiction].
      rewrite Hi in Habs. contradiction (is_frame_name_nonempty _ Hfr).
    + intros _. exists (fst j). rewrite Ht. repeat split; assumption.
Qed.

Lemma X18_slowest_image_is_empty_or_a_frame_name_witness :
  exists e w',
    MaxTime.run_experiment (Fake.sample "dir") "dir" Fake.background EmptyString
      (Fake.world 10) = Some (e, w') /\
    (MaxTime.max_processing_time_image e = EmptyString <-> MaxTime.number e = 0%Z).
Proof.
  destruct (MaxTime.run_experiment (Fake.sample "dir") "dir" Fake.background EmptyString
              (Fake.world 10)) as [[e w']|] eqn:E; [|vm_compute in E; discriminate E].
  exists e, w'. split; [reflexivity|].
  exact (proj1 (@X18_slowest_image_is_empty_or_a_frame_name Fake.cv (Fake.sample "dir") "dir"
                  Fake.background _ _ _ _ eq_refl E)).
Defined.

(** ** How often [findContours] runs *)

Lemma mapM_findContours_calls : forall (A B : Type) (f : A -> M B) (called : A -> bool),
  (forall x w y w', f x w = Some (y, w') ->
     findContours_calls (events w')
     = ((if called x then 1 else 0) + findContours_calls (events w))%nat) ->
  forall l w ys w', mapM f l w = Some (ys, w') ->
    findContours_calls (events w')
    = (List.length (filter called l) + findContours_calls (events w))%nat.
Proof.
  intros A B f called Hf l. induction l as [|x l IH]; intros w ys w' H; simpl in H.
  - inversion H; subst. reflexivity.
  - apply bind_Some in H. destruct H as (y & w1 & Hy & H).
    apply bind_Some in H. destruct H as (ys' & w2 & Hys & H).
    inversion H; subst; clear H.
    rewrite (IH _ _ _ Hys), (Hf _ _ _ _ Hy). simpl filter.
    destruct (called x); simpl; lia.
Qed.

Section Calls.
Context {cv : OpenCV}.

Lemma FindContour_process_popped_calls : forall disk blurred_bg path w r w',
  FindContour.process_popped disk blurred_bg path w = Some (r, w') ->
  findContours_calls (events w')
  = ((if in_window disk blurred_bg path then 1 else 0) + findContours_calls (events w))%nat.
Proof.
  intros disk blurred_bg path w r w' H.
  unfold FindContour.process_popped in H. unfold bind at 1 2 in H.
  unfold uninitialized in H. rewrite FindContour_process_single_image_eval in H.
  unfold in_window.
  destruct (white_pixel_count _ _) as [n|]; [|discriminate].
  destruct (extracted_contours _ _) as [cs|]; [|discriminate].
  destruct ((n <? 250)%Z || (n >? 650)%Z); inversion H; subst; clear H.
  - reflexivity.
  - destruct cs; reflexivity.
Qed.

Lemma MaxTime_process_popped_calls : forall disk blurred_bg path w r w',
  MaxTime.process_popped disk blurred_bg path w = Some (r, w') ->
  findContours_calls (events w')
  = ((if (fun _ : fs.path => true) path then 1 else 0) + findContours_calls (events w))%nat.
Proof.
  intros disk blurred_bg path w r w' H.
  unfold MaxTime.process_popped in H. unfold bind at 1 in H.
  unfold uninitialized in H. rewrite MaxTime_process_single_image_eval in H.
  destruct (extracted_contours _ _) as [cs|]; [|discriminate].
  inversion H; subst; clear H. destruct cs; reflexivity.
Qed.

End Calls.

(** X19.  How often [findContours] runs in a run that returns.  In
    findcontour_time_10000.cpp it runs once for each enumerated frame whose
    detection-pixel count lies in the window from 250 to 650, and for no
    other frame; in max_time.cpp, which has no window, it runs once for
    every enumerated frame. *)
Theorem X19_findContours_runs_once_per_admitted_frame :
  forall (cv : OpenCV) (disk : Disk) (dir : string) (blurred_bg : Mat)
         (entries : list fs.path) (w : World),
    GaussianBlur (file_image disk (dir ++ "/background.tiff")%string) = Some blurred_bg ->
    dir_entries disk dir = Some entries ->
    (forall e w',
       FindContour.run_experiment disk dir [] [] (EmptyString, 0) w = Some (e, w') ->
       findContours_calls (events w')
       = (List.length (filter (in_window disk blurred_bg) (filter is_frame entries))
          + findContours_calls (events w))%nat) /\
    (forall e w',
       MaxTime.run_experiment disk dir blurred_bg EmptyString w = Some (e, w') ->
       findContours_calls (events w')
       = (List.length (filter is_frame entries) + findContours_calls (events w))%nat).
Proof.
  intros cv disk dir blurred_bg entries w Hblur Hdir. split.
  - intros e w' H. rewrite FindContour_run_experiment_eval in H. cbv zeta in H.
    assert (Hbg : Mat_empty (file_image disk (dir ++ "/background.tiff")%string) = false).
    { destruct (Mat_empty _) eqn:E; [|reflexivity].
      rewrite (GaussianBlur_empty _ E) in Hblur. discriminate. }
    rewrite Hbg, Hblur, Hdir in H.
    destruct (mapM _ _ _) as [[rs w1]|] eqn:Em; [|discriminate].
    inversion H; subst; clear H.
    rewrite (mapM_findContours_calls _ (in_window disk blurred_bg)
               (@FindContour_process_popped_calls _ disk blurred_bg) _ _ Em).
    reflexivity.
  - intros e w' H. rewrite MaxTime_run_experiment_eval, Hdir in H.
    destruct (mapM _ _ _) as [[rs w1]|] eqn:Em; [|discriminate].
    inversion H; subst; clear H.
    rewrite (mapM_findContours_calls _ (fun _ : fs.path => true)
               (@MaxTime_process_popped_calls _ disk blurred_bg) _ _ Em).
    f_equal. f_equal. unfold MaxTime.image_queue.
    induction (filter is_frame entries) as [|x l IH]; simpl; [reflexivity | f_equal; exact IH].
Qed.

Lemma X19_findContours_runs_once_per_admitted_frame_witness :
  exists e w',
    FindContour.run_experiment (Fake.sample "dir") "dir" [] [] (EmptyString, 0)
      (Fake.world 10) = Some (e, w') /\
    findContours_calls (events w') = 3%nat.
Proof.
  destruct (FindContour.run_experiment (Fake.sample "dir") "dir" [] [] (EmptyString, 0)
              (Fake.world 10)) as [[e w']|] eqn:E; [|vm_compute in E; discriminate E].
  exists e, w'. split; [reflexivity|].
  rewrite (proj1 (@X19_findContours_runs_once_per_admitted_frame Fake.cv
                    (Fake.sample "dir") "dir" Fake.background
                    (map (fun f => fs.mk_path "dir" (fst f)) Fake.files)
                    (Fake.world 10) eq_refl eq_refl) e w' E).
  reflexivity.
Defined.

(** ** time_skip.cpp: the scopes, statement by statement *)

Section TimeSkipScope.
Import TimeSkip TimeSkipLocked.

Lemma TimeSkip_within_at : forall j e0 pc e,
  Locked.within guarded entry exec j e0 pc e -> TimeSkip_at j e0 pc e.
Proof.
  intros [path [r processed]] e0 pc e H. induction H as [_|pc e e' pc' _ IH He].
  - unfold entry, TimeSkip_at. simpl. destruct processed; split; reflexivity.
  - unfold TimeSkip_at in *. destruct pc; simpl in He; inversion He; subst; clear He.
    + destruct IH as [Hp ->]. split; [exact Hp | reflexivity].
    + destruct IH as [Hp ->]. simpl.
      destruct (Qgtb (duration r) (max_process_time e0)) eqn:Eb.
      * repeat split; auto.
      * split; [exact Hp | reflexivity].
    + destruct IH as (Hp & Hb & ->). repeat split; auto.
    + destruct IH as (Hp & Hb & ->). rewrite Hb. split; [exact Hp | reflexivity].
    + destruct IH as [Hp ->]. split; [exact Hp | reflexivity].
Qed.

(** The statements of a scope, run in order from its entry, leave what
    [aggregate] computes in one go. *)
Lemma TimeSkip_exec_commit : forall j e0 pc e e',
  Locked.within guarded entry exec j e0 pc e ->
  exec j pc e = (e', None) -> e' = commit e0 j.
Proof.
  intros [path [r processed]] e0 pc e e' H He.
  apply TimeSkip_within_at in H. unfold TimeSkip_at in H.
  unfold commit, aggregate. simpl.
  destruct pc; simpl in He; inversion He; subst; clear He.
  - destruct H as [-> ->]. simpl.
    destruct (Qgtb (duration r) (max_process_time e0)); reflexivity.
  - destruct H as [-> ->]. reflexivity.
Qed.

Lemma TimeSkip_totals_fold : forall jobs e,
  total_time e = column_sum row_time4 (results e) 0 ->
  total_time (fold_left commit jobs e)
  = column_sum row_time4 (results (fold_left commit jobs e)) 0.
Proof.
  induction jobs as [|[path [r processed]] jobs IH]; intros e He; simpl fold_left.
  - exact He.
  - apply IH. unfold commit, aggregate. cbn [fst snd]. destruct processed.
    + destruct (Qgtb (duration r) (max_process_time e)); simpl;
        rewrite column_sum_snoc, He; reflexivity.
    + exact He.
Qed.

End TimeSkipScope.

(** X20.  time_skip.cpp, any number of worker threads in any interleaving
    of the statements of their [lock_guard] scopes.  No two threads are
    inside a scope together.  Whenever the mutex is free the shared
    variables are what the completed scopes give when run whole, one after
    the other in the order they were left: [number] is the number of rows of
    [results], [total_time] the sum of their times, and every frame handled
    is in [results] or in [skipped_images], once. *)
Theorem X20_time_skip_scopes_do_not_interleave :
  forall c : Locked.Config TimeSkipLocked.Job TimeSkip.Experiment TimeSkipLocked.Pc,
    TimeSkipLocked.reachable c ->
    (forall w1 w2,
       Locked.in_scope (Locked.threads c w1) = true ->
       Locked.in_scope (Locked.threads c w2) = true -> w1 = w2) /\
    (Locked.mtx c = None ->
     let e := Locked.shared c in
     e = fold_left TimeSkip.commit (Locked.history c) TimeSkipLocked.fresh /\
     TimeSkip.number e = Z.of_nat (List.length (TimeSkip.results e)) /\
     TimeSkip.total_time e = column_sum row_time4 (TimeSkip.results e) 0 /\
     Permutation (map row_path4 (TimeSkip.results e) ++ map fst (TimeSkip.skipped_images e))
       (map (fun j => fs.to_string (fst j)) (Locked.history c))).
Proof.
  intros c Hc. split.
  - intros w1 w2 H1 H2.
    exact (Locked_mutual_exclusion TimeSkip.commit TimeSkip_exec_commit w1 w2 Hc H1 H2).
  - intros Hm e.
    assert (Hq : Locked.shared c
                 = fold_left TimeSkip.commit (Locked.history c) TimeSkipLocked.fresh)
      by exact (Locked_quiescent TimeSkip.commit TimeSkip_exec_commit Hc Hm).
    split; [exact Hq|]. unfold e. rewrite Hq.
    destruct (TimeSkip_commit_partition (Locked.history c) TimeSkipLocked.fresh) as [Hp Hn].
    split; [apply Hn; reflexivity|].
    split; [apply TimeSkip_totals_fold; reflexivity|].
    exact Hp.
Qed.

Lemma X20_time_skip_scopes_do_not_interleave_witness :
  let j : TimeSkipLocked.Job :=
    (Fake.frame "dir" "a.tiff", (TimeSkip.mk_refs [] ContourMetrics_default 300, false)) in
  exists c,
    TimeSkipLocked.reachable c /\ Locked.mtx c = None /\
    Locked.shared c = fold_left TimeSkip.commit [j] TimeSkipLocked.fresh.
Proof.
  intro j.
  pose proof (Locked.reachable_initial TimeSkipLocked.guarded TimeSkipLocked.entry
                TimeSkipLocked.exec TimeSkipLocked.fresh) as R.
  unfold Locked.initial in R.
  eapply Locked.reachable_step in R;
    [|eapply Locked.take with (w := 0%nat) (j := j); reflexivity].
  cbn [Locked.mtx Locked.shared Locked.threads Locked.history] in R.
  eapply Locked.reachable_step in R;
    [|eapply Locked.lock with (w := 0%nat) (j := j); reflexivity].
  cbn [Locked.mtx Locked.shared Locked.threads Locked.history] in R.
  eapply Locked.reachable_step in R;
    [|eapply Locked.last_statement with (w := 0%nat) (j := j)
        (pc := TimeSkipLocked.PushSkipped)
        (sh' := TimeSkip.mk_experiment 0 0 0 [] [("dir/a.tiff"%string, 300)]
                  (EmptyString, 0));
      reflexivity].
  cbn [Locked.mtx Locked.shared Locked.threads Locked.history] in R.
  eapply Locked.reachable_step in R;
    [|eapply Locked.unlock with (w := 0%nat) (j := j); reflexivity].
  cbn [Locked.mtx Locked.shared Locked.threads Locked.history] in R.
  eexists. split; [exact R|]. split; [reflexivity|].
  destruct (X20_time_skip_scopes_do_not_interleave R) as [_ Hq].
  exact (proj1 (Hq eq_refl)).
Defined.

(** ** The two ratios *)


